(** * CVPR 2024 scraper: a shallow embedding of [scrape_cvpr/cvpr2024_scraper.py]

    The development follows the source file top to bottom:

    - [PyStr]: the operations of Python's [str] that the scraper calls
      ([strip], [in], [split], [replace], [join]) and the regular
      expressions it compiles;
    - [Soup]: the part of BeautifulSoup the scraper relies on (a parsed tree,
      [find], [find_all], [get_text(strip=True)], [find_next_sibling] and the
      re-parenting done by [Tag.append]);
    - [Csv]: the [excel] dialect of Python's [csv] writer and reader;
    - [PyText] and [ViewCsv]: slices, padding and the table viewer of
      [scrape_cvpr/view_csv.py] ([print_table] and the rows [view_csv]
      reads);
    - the scraper itself: [extract_paper_info], [scrape_papers],
      [enrich_paper_details], [save_to_csv], [save_summary] and [main].

    Characters are code points below 256, so that [ascii] carries them.
    Logging and [time.sleep] are left out: they change no value the functions
    return. *)

From Stdlib Require Import String Ascii List ZArith Lia Bool Arith.
From Stdlib Require Import DecimalString.
Import ListNotations.

#[local] Set Warnings "-register-all".

Local Open Scope list_scope.
Local Open Scope string_scope.
Local Open Scope nat_scope.

(* ================================================================= *)
(** ** Python strings *)

Module PyStr.

(** [str.isspace] on one character, for code points below 256. *)
Definition isspace (c : ascii) : bool :=
  let n := nat_of_ascii c in
  ((9 <=? n) && (n <=? 13)) || ((28 <=? n) && (n <=? 32))
  || (n =? 133) || (n =? 160).

(** Truth value of a [str]: the empty string is falsy. *)
Definition truthy (s : string) : bool :=
  match s with EmptyString => false | String _ _ => true end.

Fixpoint lstrip (s : string) : string :=
  match s with
  | EmptyString => EmptyString
  | String c s' => if isspace c then lstrip s' else s
  end.

Fixpoint rstrip (s : string) : string :=
  match s with
  | EmptyString => EmptyString
  | String c s' =>
      match rstrip s' with
      | EmptyString => if isspace c then EmptyString else String c EmptyString
      | r => String c r
      end
  end.

(** [s.strip()] *)
Definition strip (s : string) : string := rstrip (lstrip s).

(** [s[n:]] *)
Fixpoint drop (n : nat) (s : string) : string :=
  match n, s with
  | O, _ => s
  | S _, EmptyString => EmptyString
  | S k, String _ s' => drop k s'
  end.

(** [s.startswith(p)] *)
Definition startswith (p s : string) : bool := String.prefix p s.

(** [s.endswith(suf)] *)
Fixpoint endswith (suf s : string) : bool :=
  String.eqb s suf
  || match s with
     | EmptyString => false
     | String _ s' => endswith suf s'
     end.

(** [sub in s] *)
Fixpoint contains (sub s : string) : bool :=
  startswith sub s
  || match s with
     | EmptyString => false
     | String _ s' => contains sub s'
     end.

(** The text after the first occurrence of [sub] in [s]. *)
Fixpoint after_first (sub s : string) : string :=
  if startswith sub s then drop (String.length sub) s
  else match s with
       | EmptyString => EmptyString
       | String _ s' => after_first sub s'
       end.

(** [s.split(sub, 1)[-1]]: what follows the first occurrence of [sub], or
    all of [s] when [sub] does not occur. *)
Definition split1_last (sub s : string) : string :=
  if contains sub s then after_first sub s else s.

(** [s.replace(old, new)] scans left to right and replaces the occurrences
    of [old] that do not overlap an earlier replaced one.  [skip] counts
    the characters of a matched occurrence still to be passed over. *)
Fixpoint replace_from (old new : string) (skip : nat) (s : string) : string :=
  match s with
  | EmptyString => EmptyString
  | String c s' =>
      match skip with
      | S k => replace_from old new k s'
      | O =>
          if startswith old s
          then new ++ replace_from old new (String.length old - 1) s'
          else String c (replace_from old new 0 s')
      end
  end.

(** With an empty [old], Python puts [new] around every character. *)
Fixpoint interleave (new s : string) : string :=
  match s with
  | EmptyString => new
  | String c s' => new ++ String c (interleave new s')
  end.

Definition replace (old new s : string) : string :=
  match old with
  | EmptyString => interleave new s
  | String _ _ => replace_from old new 0 s
  end.

(** [s.split(sep)] for a non-empty [sep]; the result is never empty. *)
Fixpoint split_from (sep : string) (skip : nat) (s : string) : list string :=
  match s with
  | EmptyString => [EmptyString]
  | String c s' =>
      match skip with
      | S k => split_from sep k s'
      | O =>
          if startswith sep s
          then EmptyString :: split_from sep (String.length sep - 1) s'
          else match split_from sep 0 s' with
               | h :: t => String c h :: t
               | [] => [String c EmptyString]
               end
      end
  end.

Definition split (sep s : string) : list string := split_from sep 0 s.

(** [sep.join(l)] *)
Definition join (sep : string) (l : list string) : string :=
  String.concat sep l.

(** ASCII lower case, which is all [re.I] folds for the letters of the
    scraper's patterns among code points below 256. *)
Definition lower_char (c : ascii) : ascii :=
  let n := nat_of_ascii c in
  if (65 <=? n) && (n <=? 90) then ascii_of_nat (n + 32) else c.

Fixpoint lower (s : string) : string :=
  match s with
  | EmptyString => EmptyString
  | String c s' => String (lower_char c) (lower s')
  end.

(** [re.compile(r'\.pdf$').search(s)]: [$] matches at the end of the string
    and before a newline that ends it. *)
Definition search_pdf (s : string) : bool :=
  endswith ".pdf" s || endswith (".pdf" ++ String (ascii_of_nat 10) "") s.

(** [re.compile(r'supplemental|supplementary', re.I).search(s)] *)
Definition search_supplemental (s : string) : bool :=
  contains "supplemental" (lower s) || contains "supplementary" (lower s).

(** [re.compile(r'abstract', re.I).search(s)] *)
Definition search_abstract (s : string) : bool :=
  contains "abstract" (lower s).

End PyStr.

(* ================================================================= *)
(** ** The parsed document *)

Module Soup.

(** A parsed page.  Only what the scraper can observe is kept: tags with
    their attributes, and the strings that [get_text] returns (comments and
    the like are not among them). *)
Inductive node : Type :=
| NavigableString (s : string)
| Tag (name : string) (attrs : list (string * string)) (contents : list node).

Definition is_tag (name : string) (n : node) : bool :=
  match n with
  | NavigableString _ => false
  | Tag nm _ _ => String.eqb nm name
  end.

(** [tag.attrs.get(key)] *)
Fixpoint lookup (key : string) (attrs : list (string * string)) : option string :=
  match attrs with
  | [] => None
  | (k, v) :: rest => if String.eqb k key then Some v else lookup key rest
  end.

Definition attr (key : string) (n : node) : option string :=
  match n with
  | NavigableString _ => None
  | Tag _ attrs _ => lookup key attrs
  end.

(** [tag.get(key, default)] *)
Definition get (key default : string) (n : node) : string :=
  match attr key n with
  | Some v => v
  | None => default
  end.

(** [tag.descendants]: every node below [n], in document order. *)
Fixpoint descendants (n : node) : list node :=
  match n with
  | NavigableString _ => []
  | Tag _ _ cs => flat_map (fun c => c :: descendants c) cs
  end.

(** [tag.find_all(name)] and [tag.find(name)] *)
Definition find_all (name : string) (n : node) : list node :=
  filter (is_tag name) (descendants n).

Definition find (name : string) (n : node) : option node :=
  List.find (is_tag name) (descendants n).

(** [tag.find(name, attr=pattern)]: the attribute must be present and the
    pattern must match its value. *)
Definition attr_matches (key : string) (pat : string -> bool) (n : node) : bool :=
  match attr key n with
  | Some v => pat v
  | None => false
  end.

Definition find_attr (name key : string) (pat : string -> bool) (n : node)
  : option node :=
  List.find (fun d => is_tag name d && attr_matches key pat d) (descendants n).

(** The strings of a node list, stripped, the empty ones dropped. *)
Fixpoint stripped_strings (l : list node) : list string :=
  match l with
  | [] => []
  | NavigableString s :: rest =>
      let t := PyStr.strip s in
      if PyStr.truthy t then t :: stripped_strings rest else stripped_strings rest
  | Tag _ _ _ :: rest => stripped_strings rest
  end.

(** [tag.get_text(strip=True)] *)
Definition get_text (n : node) : string :=
  String.concat "" (stripped_strings (descendants n)).

(** *** Nodes as objects

    [scrape_papers] moves nodes of the parsed page into fresh wrappers
    ([wrapper.append(dt_elem)] takes [dt_elem] away from its parent).  A node
    object is identified by its position in the page as parsed, and the
    state of the page is the list of positions moved away so far: the
    contents of a tag are its parsed contents without the nodes moved away. *)

Definition path := list nat.

Definition path_eqb (p q : path) : bool :=
  if list_eq_dec Nat.eq_dec p q then true else false.

Definition moved (gone : list path) (p : path) : bool :=
  existsb (path_eqb p) gone.

(** The node at position [p] of the page as parsed. *)
Fixpoint node_at (p : path) (n : node) : option node :=
  match p with
  | [] => Some n
  | i :: p' =>
      match n with
      | NavigableString _ => None
      | Tag _ _ cs =>
          match nth_error cs i with
          | Some c => node_at p' c
          | None => None
          end
      end
  end.

(** Positions of the descendants of [n], relative to [n], in document order. *)
Fixpoint descendant_paths (n : node) : list path :=
  match n with
  | NavigableString _ => []
  | Tag _ _ cs =>
      (fix go (i : nat) (l : list node) : list path :=
         match l with
         | [] => []
         | c :: l' =>
             (([i] :: map (cons i) (descendant_paths c)) ++ go (S i) l')%list
         end) 0 cs
  end.

Definition is_tag_at (name : string) (soup : node) (p : path) : bool :=
  match node_at p soup with
  | Some n => is_tag name n
  | None => false
  end.

(** [soup.find_all(name)], as node objects. *)
Definition find_all_paths (name : string) (soup : node) : list path :=
  filter (is_tag_at name soup) (descendant_paths soup).

(** The node object at [here] as it is now: its parsed subtree without the
    descendants that were moved away. *)
Fixpoint live (gone : list path) (here : path) (n : node) : node :=
  match n with
  | NavigableString s => NavigableString s
  | Tag name attrs cs =>
      Tag name attrs
        ((fix go (i : nat) (l : list node) : list node :=
            match l with
            | [] => []
            | c :: l' =>
                if moved gone (here ++ [i])%list then go (S i) l'
                else live gone (here ++ [i])%list c :: go (S i) l'
            end) 0 cs)
  end.

Definition live_at (gone : list path) (soup : node) (p : path) : option node :=
  match node_at p soup with
  | Some n => Some (live gone p n)
  | None => None
  end.

(** First position [parent ++ [j]], [j] counted from [i], that holds a
    [name] tag still in place. *)
Fixpoint first_sibling (name : string) (gone : list path) (parent : path)
    (i : nat) (l : list node) : option path :=
  match l with
  | [] => None
  | c :: l' =>
      if is_tag name c && negb (moved gone (parent ++ [i])%list)
      then Some (parent ++ [i])%list
      else first_sibling name gone parent (S i) l'
  end.

(** [elem.find_next_sibling(name)] for the node object at [p]: the first
    [name] tag among the nodes that follow it under its parent. *)
Definition find_next_sibling (name : string) (gone : list path) (soup : node)
    (p : path) : option path :=
  match rev p with
  | [] => None
  | i :: rparent =>
      let parent := rev rparent in
      match node_at parent soup with
      | Some (Tag _ _ cs) =>
          first_sibling name gone parent (S i) (skipn (S i) cs)
      | _ => None
      end
  end.

End Soup.

(* ================================================================= *)
(** ** Python's csv module, [excel] dialect *)

Module Csv.

Definition delimiter : ascii := ascii_of_nat 44.
Definition quotechar : ascii := ascii_of_nat 34.
Definition CR : ascii := ascii_of_nat 13.
Definition LF : ascii := ascii_of_nat 10.
Definition lineterminator : string := String CR (String LF EmptyString).

(** *** The writer ([QUOTE_MINIMAL], [doublequote]) *)

(** The characters that make the writer quote a field. *)
Definition special (c : ascii) : bool :=
  Ascii.eqb c delimiter || Ascii.eqb c quotechar
  || Ascii.eqb c CR || Ascii.eqb c LF.

Fixpoint needs_quotes (field : string) : bool :=
  match field with
  | EmptyString => false
  | String c s => special c || needs_quotes s
  end.

(** Every quote character of the field is written twice. *)
Fixpoint escape (field : string) : string :=
  match field with
  | EmptyString => EmptyString
  | String c s =>
      if Ascii.eqb c quotechar
      then String quotechar (String quotechar (escape s))
      else String c (escape s)
  end.

Definition write_field (field : string) : string :=
  if needs_quotes field
  then String quotechar (escape field ++ String quotechar EmptyString)
  else field.

Fixpoint join_fields (row : list string) : string :=
  match row with
  | [] => EmptyString
  | [f] => write_field f
  | f :: rest => write_field f ++ String delimiter (join_fields rest)
  end.

(** [writer.writerow(row)]; a row that is one empty field is written as a
    pair of quotes. *)
Definition writerow (row : list string) : string :=
  match row with
  | [EmptyString] => String quotechar (String quotechar lineterminator)
  | _ => join_fields row ++ lineterminator
  end.

Definition writerows (rows : list (list string)) : string :=
  String.concat EmptyString (map writerow rows).

(** *** The reader

    The states of the parser, and the parser's buffers: the field and the
    record being read, and the records read so far. *)
Inductive state : Type :=
| START_RECORD
| START_FIELD
| IN_FIELD
| IN_QUOTED_FIELD
| QUOTE_IN_QUOTED_FIELD
| EAT_CRNL.

Record parser : Type := mkParser {
  state_of : state;
  field : string;
  fields : list string;
  rows : list (list string)
}.

Definition set_state (st : state) (r : parser) : parser :=
  mkParser st (field r) (fields r) (rows r).

(** [csv.field_size_limit()], as it is when nobody has set it. *)
Definition field_limit : Z := 131072.

(** [parse_add_char]; [None] is the error raised on a field larger than the
    field limit. *)
Definition parse_add_char (c : ascii) (r : parser) : option parser :=
  if (Z.of_nat (String.length (field r)) >=? field_limit)%Z then None
  else Some (mkParser (state_of r) (field r ++ String c EmptyString)
               (fields r) (rows r)).

Definition parse_save_field (r : parser) : parser :=
  mkParser (state_of r) EmptyString (fields r ++ [field r])%list (rows r).

Definition is_newline (c : ascii) : bool := Ascii.eqb c LF || Ascii.eqb c CR.

(** The case [START_FIELD] of [parse_process_char], which [START_RECORD]
    falls into. *)
Definition start_field (c : ascii) (r : parser) : option parser :=
  if is_newline c then Some (set_state EAT_CRNL (parse_save_field r))
  else if Ascii.eqb c quotechar then Some (set_state IN_QUOTED_FIELD r)
  else if Ascii.eqb c delimiter
  then Some (set_state START_FIELD (parse_save_field r))
  else option_map (set_state IN_FIELD) (parse_add_char c r).

(** [parse_process_char] on a character of the line; [None] is an error
    raised: on a field larger than the field limit, and on a character that
    follows the end of a record on its line. *)
Definition parse_process_char (c : ascii) (r : parser) : option parser :=
  match state_of r with
  | START_RECORD =>
      if is_newline c then Some (set_state EAT_CRNL r)
      else start_field c r
  | START_FIELD => start_field c r
  | IN_FIELD =>
      if is_newline c then Some (set_state EAT_CRNL (parse_save_field r))
      else if Ascii.eqb c delimiter
      then Some (set_state START_FIELD (parse_save_field r))
      else parse_add_char c r
  | IN_QUOTED_FIELD =>
      if Ascii.eqb c quotechar then Some (set_state QUOTE_IN_QUOTED_FIELD r)
      else parse_add_char c r
  | QUOTE_IN_QUOTED_FIELD =>
      if Ascii.eqb c quotechar
      then option_map (set_state IN_QUOTED_FIELD) (parse_add_char c r)
      else if Ascii.eqb c delimiter
      then Some (set_state START_FIELD (parse_save_field r))
      else if is_newline c
      then Some (set_state EAT_CRNL (parse_save_field r))
      else option_map (set_state IN_FIELD) (parse_add_char c r)
  | EAT_CRNL =>
      if is_newline c then Some r else None
  end.

(** [parse_process_char] at the end of a line. *)
Definition parse_process_eol (r : parser) : parser :=
  match state_of r with
  | START_RECORD => r
  | START_FIELD | IN_FIELD | QUOTE_IN_QUOTED_FIELD =>
      set_state START_RECORD (parse_save_field r)
  | IN_QUOTED_FIELD => r
  | EAT_CRNL => set_state START_RECORD r
  end.

(** The record is handed out and the buffers are reset. *)
Definition emit (r : parser) : parser :=
  mkParser START_RECORD EmptyString [] (rows r ++ [fields r])%list.

(** The end of a line: the parser sees it, and the record is complete unless
    a quoted field is still open. *)
Definition end_of_line (r : parser) : parser :=
  let r := parse_process_eol r in
  match state_of r with
  | START_RECORD => emit r
  | _ => r
  end.

(** Where the reader stands in the current line of the file, which is read
    with [newline=''] as [save_to_csv] wrote it: a line ends after a line
    feed, and after a carriage return that no line feed follows. *)
Inductive line_status : Type :=
| LineStart
| InLine
| AfterCR.

Definition feed_in_line (c : ascii) (r : parser) : option (parser * line_status) :=
  match parse_process_char c r with
  | None => None
  | Some r =>
      if Ascii.eqb c LF then Some (end_of_line r, LineStart)
      else if Ascii.eqb c CR then Some (r, AfterCR)
      else Some (r, InLine)
  end.

Definition feed (c : ascii) (rl : parser * line_status)
  : option (parser * line_status) :=
  let '(r, l) := rl in
  match l with
  | AfterCR =>
      if Ascii.eqb c LF then feed_in_line c r
      else feed_in_line c (end_of_line r)
  | _ => feed_in_line c r
  end.

Fixpoint run (rl : parser * line_status) (text : string)
  : option (parser * line_status) :=
  match text with
  | EmptyString => Some rl
  | String c text' =>
      match feed c rl with
      | None => None
      | Some rl => run rl text'
      end
  end.

(** The end of the file: the last line ends, and a record left open by a
    quoted field is handed out as it is. *)
Definition finish (rl : parser * line_status) : parser :=
  let '(r, l) := rl in
  let r := match l with
           | LineStart => r
           | _ => end_of_line r
           end in
  match state_of r with
  | START_RECORD => r
  | _ => emit (parse_save_field r)
  end.

Definition start : parser * line_status :=
  (mkParser START_RECORD EmptyString [] [], LineStart).

(** [list(csv.reader(f))]; [None] when the reader raises. *)
Definition reader (text : string) : option (list (list string)) :=
  match run start text with
  | Some rl => Some (rows (finish rl))
  | None => None
  end.

End Csv.

(* ================================================================= *)
(** ** Slices, padding and numbers in text *)

Module PyText.

(** [len(s)], as the [int] it is. *)
Definition len (s : string) : Z := Z.of_nat (String.length s).

(** [str(n)] and [f"{n}"] for an [int] that is not negative. *)
Definition str_of_nat (n : nat) : string :=
  NilEmpty.string_of_uint (Nat.to_uint n).

(** [c * n] for a string [c] of one character. *)
Fixpoint repeat_char (c : ascii) (n : nat) : string :=
  match n with
  | 0 => EmptyString
  | S k => String c (repeat_char c k)
  end.

(** [s[:k]]: a negative [k] counts from the end, and a [k] beyond either end
    is clipped. *)
Definition slice_to (k : Z) (s : string) : string :=
  if (k <? 0)%Z then String.substring 0 (Z.to_nat (len s + k)) s
  else String.substring 0 (Z.to_nat k) s.

(** [s.ljust(width)]: spaces are added up to [width]; a string that is
    already that long is returned as it is. *)
Definition ljust (width : Z) (s : string) : string :=
  if (width <=? len s)%Z then s
  else s ++ repeat_char " " (Z.to_nat (width - len s)).

(** The line feed. *)
Definition nl : string := String (ascii_of_nat 10) EmptyString.

End PyText.

(* ================================================================= *)
(** ** The table viewer, [scrape_cvpr/view_csv.py] *)

Module ViewCsv.

(** [l[i] = v] for an index within the list. *)
Fixpoint set_item {A : Type} (i : nat) (v : A) (l : list A) : list A :=
  match l, i with
  | [], _ => []
  | _ :: t, 0 => v :: t
  | h :: t, S j => h :: set_item j v t
  end.

(** Lines 21-23, the inner loop over the cells of one row, from the cell of
    index [i] on: a cell beyond the last column changes nothing. *)
Fixpoint widen_from (i : nat) (row : list string) (col_widths : list Z)
  : list Z :=
  match row with
  | [] => col_widths
  | cell :: cells =>
      widen_from (S i) cells
        (if i <? List.length col_widths
         then set_item i (Z.max (nth i col_widths 0%Z) (PyText.len cell))
                col_widths
         else col_widths)
  end.

(** Lines 17-27: the width of every column. *)
Definition column_widths (data : list (list string)) (headers : list string)
    (max_width : Z) : list Z :=
  let col_widths := map PyText.len headers in
  let col_widths :=
    fold_left (fun col_widths row => widen_from 0 row col_widths)
      data col_widths in
  map (fun width => Z.min width max_width) col_widths.

(** Lines 30-31.  [col_widths] has one entry for each header, so that both
    lookups are within their lists. *)
Definition header_row (headers : list string) (col_widths : list Z) : string :=
  PyStr.join " | "
    (map (fun i =>
            PyText.ljust (nth i col_widths 0%Z)
              (PyText.slice_to (nth i col_widths 0%Z)
                 (nth i headers EmptyString)))
       (seq 0 (List.length headers))).

(** Lines 41-44: one cell as it is displayed. *)
Definition display_cell (width : Z) (cell : string) : string :=
  let cell_str :=
    if (PyText.len cell >? width)%Z
    then PyText.slice_to (width - 3) cell ++ "..."
    else cell in
  PyText.ljust width cell_str.

(** Lines 38-44, from the cell of index [i] on: the cells beyond the last
    column are not displayed. *)
Fixpoint display_from (num_cols : nat) (col_widths : list Z) (i : nat)
    (row : list string) : list string :=
  match row with
  | [] => []
  | cell :: cells =>
      ((if i <? num_cols
        then [display_cell (nth i col_widths 0%Z) cell]
        else [])
       ++ display_from num_cols col_widths (S i) cells)%list
  end.

Definition display_row (num_cols : nat) (col_widths : list Z)
    (row : list string) : string :=
  PyStr.join " | " (display_from num_cols col_widths 0 row).

(** [print_table], lines 10-48: the strings given to [print], one for each
    call. *)
Definition print_table (data : list (list string)) (headers : list string)
    (max_width : Z) : list string :=
  match data with
  | [] => ["No data to display"]
  | _ :: _ =>
      let num_cols := List.length headers in
      let col_widths := column_widths data headers max_width in
      let header_row := header_row headers col_widths in
      let rule := PyText.repeat_char "=" (String.length header_row) in
      ([rule; header_row; rule]
       ++ map (display_row num_cols col_widths) data
       ++ [rule;
           (PyText.nl ++ "Total rows: "
            ++ PyText.str_of_nat (List.length data))%string])%list
  end.

(** Line 59, [max_rows and i >= max_rows]: [None] and [0] are falsy. *)
Definition limit_reached (max_rows : option Z) (i : nat) : bool :=
  match max_rows with
  | Some m => negb (m =? 0)%Z && (Z.of_nat i >=? m)%Z
  | None => false
  end.

(** Lines 62-63: empty cells are appended to a row shorter than the
    header. *)
Definition pad (n : nat) (row : list string) : list string :=
  (row ++ repeat EmptyString (n - List.length row))%list.

(** Lines 57-64: the loop over the rows that the reader yields after the
    header row, from the row of index [i] on. *)
Fixpoint read_data (max_rows : option Z) (headers : list string) (i : nat)
    (rows : list (list string)) : list (list string) :=
  match rows with
  | [] => []
  | row :: rest =>
      if limit_reached max_rows i then []
      else
        firstn (List.length headers) (pad (List.length headers) row)
        :: read_data max_rows headers (S i) rest
  end.

(** Line 69, [max_rows and len(data) > max_rows]: whether the line
    [Showing first ... rows] is printed. *)
Definition showing_first (max_rows : option Z) (data : list (list string))
  : bool :=
  match max_rows with
  | Some m => negb (m =? 0)%Z && (Z.of_nat (List.length data) >? m)%Z
  | None => false
  end.

End ViewCsv.

(* ================================================================= *)
(** ** Paper records *)

(** The dictionary [extract_paper_info] builds and [enrich_paper_details]
    updates, with the keys the scraper writes; [None] is an absent key. *)
Record paper_record : Type := mkPaper {
  title : option string;
  authors : option (list string);
  abstract : option string;
  pdf_url : option string;
  supplementary_url : option string;
  _paper_url : option string
}.

(** [paper_info = {}] *)
Definition empty_paper : paper_record := mkPaper None None None None None None.

Definition set_title (v : string) (p : paper_record) : paper_record :=
  mkPaper (Some v) (authors p) (abstract p) (pdf_url p) (supplementary_url p)
          (_paper_url p).

Definition set_authors (v : list string) (p : paper_record) : paper_record :=
  mkPaper (title p) (Some v) (abstract p) (pdf_url p) (supplementary_url p)
          (_paper_url p).

Definition set_abstract (v : string) (p : paper_record) : paper_record :=
  mkPaper (title p) (authors p) (Some v) (pdf_url p) (supplementary_url p)
          (_paper_url p).

Definition set_pdf_url (v : string) (p : paper_record) : paper_record :=
  mkPaper (title p) (authors p) (abstract p) (Some v) (supplementary_url p)
          (_paper_url p).

Definition set_supplementary_url (v : string) (p : paper_record) : paper_record :=
  mkPaper (title p) (authors p) (abstract p) (pdf_url p) (Some v)
          (_paper_url p).

Definition set_paper_url (v : string) (p : paper_record) : paper_record :=
  mkPaper (title p) (authors p) (abstract p) (pdf_url p) (supplementary_url p)
          (Some v).

(** [del paper['_paper_url']] *)
Definition del_paper_url (p : paper_record) : paper_record :=
  mkPaper (title p) (authors p) (abstract p) (pdf_url p) (supplementary_url p)
          None.

(** Truth value of [d.get(key)]: an absent key and an empty string are falsy. *)
Definition truthy_get (v : option string) : bool :=
  match v with
  | Some s => PyStr.truthy s
  | None => false
  end.

(** What a call hands back: a value, or an exception that leaves it. *)
Inductive result (A : Type) : Type :=
| Returned (a : A)
| Raised.
Arguments Returned {A} a.
Arguments Raised {A}.

(** How a block of statements ends. *)
Inductive completion : Type :=
| Completed
| RaisedValueError.

(* ================================================================= *)
(** ** The scraper *)

Section Scraper.

(** [urllib.parse.urljoin]; [None] when it raises [ValueError]. *)
Variable urljoin : string -> string -> option string.

(** The network: the state of the world and [requests.Session.get] followed
    by the parse, as [fetch_page] wraps them. *)
Variable W : Type.
Variable fetch_page : string -> W -> option Soup.node * W.

Definition CVF : string := "https://openaccess.thecvf.com/".

(** *** [extract_paper_info] *)

(** Lines 52-66: the title and the detail-page address. *)
Definition extract_title (paper_element : Soup.node) (paper_info : paper_record)
  : option paper_record :=
  match Soup.find "dt" paper_element with
  | Some title_elem =>
      match Soup.find "a" title_elem with
      | Some title_link =>
          let paper_info := set_title (Soup.get_text title_link) paper_info in
          let href := Soup.get "href" "" title_link in
          if PyStr.truthy href
          then match urljoin CVF href with
               | Some u => Some (set_paper_url u paper_info)
               | None => None
               end
          else Some paper_info
      | None =>
          let title_text := Soup.get_text title_elem in
          if PyStr.truthy title_text
          then Some (set_title title_text paper_info)
          else Some paper_info
      end
  | None => Some paper_info
  end.

(** Lines 79-82: the loop over the labels, left at the first one found. *)
Fixpoint remove_prefixes (prefixes : list string) (author_text : string)
  : string :=
  match prefixes with
  | [] => author_text
  | prefix :: rest =>
      if PyStr.contains prefix author_text
      then PyStr.strip (PyStr.split1_last prefix author_text)
      else remove_prefixes rest author_text
  end.

Definition author_prefixes : list string := ["Authors:"; "Author:"; "By:"].

(** Lines 76-86: the authors of a detail node that holds no link. *)
Definition authors_from_text (authors_elem : Soup.node) : option (list string) :=
  let author_text :=
    remove_prefixes author_prefixes (Soup.get_text authors_elem) in
  if PyStr.truthy author_text
  then Some (map PyStr.strip (PyStr.split "," author_text))
  else None.

(** Lines 68-86. *)
Definition extract_authors (paper_element : Soup.node) (paper_info : paper_record)
  : paper_record :=
  match Soup.find "dd" paper_element with
  | Some authors_elem =>
      match Soup.find_all "a" authors_elem with
      | [] =>
          match authors_from_text authors_elem with
          | Some l => set_authors l paper_info
          | None => paper_info
          end
      | author_links => set_authors (map Soup.get_text author_links) paper_info
      end
  | None => paper_info
  end.

(** Lines 88-93. *)
Definition extract_pdf (paper_element : Soup.node) (paper_info : paper_record)
  : option paper_record :=
  match Soup.find_attr "a" "href" PyStr.search_pdf paper_element with
  | Some pdf_link =>
      let href := Soup.get "href" "" pdf_link in
      if PyStr.truthy href
      then match urljoin CVF href with
           | Some u => Some (set_pdf_url u paper_info)
           | None => None
           end
      else Some paper_info
  | None => Some paper_info
  end.

(** Lines 95-100. *)
Definition extract_supplementary (paper_element : Soup.node)
    (paper_info : paper_record) : option paper_record :=
  match Soup.find_attr "a" "href" PyStr.search_supplemental paper_element with
  | Some supp_link =>
      let href := Soup.get "href" "" supp_link in
      if PyStr.truthy href
      then match urljoin CVF href with
           | Some u => Some (set_supplementary_url u paper_info)
           | None => None
           end
      else Some paper_info
  | None => Some paper_info
  end.

(** The body of the [try]; [None] when a statement raises. *)
Definition extract_paper_info_body (paper_element : Soup.node) : option paper_record :=
  match extract_title paper_element empty_paper with
  | None => None
  | Some paper_info =>
      match extract_pdf paper_element
              (extract_authors paper_element paper_info) with
      | None => None
      | Some paper_info => extract_supplementary paper_element paper_info
      end
  end.

(** [extract_paper_info]: the record, or [None] when the title is missing
    or empty and when the body raised. *)
Definition extract_paper_info (paper_element : Soup.node) : option paper_record :=
  match extract_paper_info_body paper_element with
  | Some paper_info =>
      if truthy_get (title paper_info) then Some paper_info else None
  | None => None
  end.

(** *** [scrape_papers]: the listing pass *)

Definition opt_list {A : Type} (o : option A) : list A :=
  match o with
  | Some a => [a]
  | None => []
  end.

(** Lines 131-138: the wrapper built around one title node.  The detail
    node is looked up before the title node is moved; both are moved into
    the wrapper, which [extract_paper_info] then reads. *)
Definition make_wrapper (soup : Soup.node) (gone : list Soup.path)
    (dt_elem : Soup.path) : Soup.node * list Soup.path :=
  let dd_elem := Soup.find_next_sibling "dd" gone soup dt_elem in
  let gone := dt_elem :: gone in
  let gone := match dd_elem with
              | Some dd => dd :: gone
              | None => gone
              end in
  let dd_now := match dd_elem with
                | Some dd => opt_list (Soup.live_at gone soup dd)
                | None => []
                end in
  (Soup.Tag "div" [] (opt_list (Soup.live_at gone soup dt_elem) ++ dd_now)%list,
   gone).

(** The state of the loop of lines 125-148: the records so far, how many
    title nodes were processed, and the nodes moved into wrappers. *)
Record listing : Type := mkListing {
  papers_of : list paper_record;
  processed : nat;
  gone_of : list Soup.path
}.

Fixpoint listing_loop (max_papers : Z) (soup : Soup.node)
    (dt_elements : list Soup.path) (st : listing) : listing :=
  match dt_elements with
  | [] => st
  | dt_elem :: rest =>
      if (Z.of_nat (List.length (papers_of st)) >=? max_papers)%Z
      then st
      else
        let '(wrapper, gone) := make_wrapper soup (gone_of st) dt_elem in
        let papers :=
          match extract_paper_info wrapper with
          | Some paper_info => (papers_of st ++ [paper_info])%list
          | None => papers_of st
          end in
        listing_loop max_papers soup rest
          (mkListing papers (S (processed st)) gone)
  end.

(** Lines 117-148. *)
Definition listing_pass (max_papers : Z) (soup : Soup.node) : listing :=
  listing_loop max_papers soup (Soup.find_all_paths "dt" soup)
    (mkListing [] 0 []).

(** *** [enrich_paper_details] *)

(** Lines 166-169: the address of the detail page. *)
Definition detail_url (paper : paper_record) : option string :=
  let paper_url := _paper_url paper in
  if negb (truthy_get paper_url) && truthy_get (pdf_url paper)
  then match pdf_url paper with
       | Some u =>
           Some (PyStr.replace ".pdf" ".html" (PyStr.replace "/papers/" "/" u))
       | None => paper_url
       end
  else paper_url.

(** Lines 175-177: the abstract container.  The [class] attribute is kept as
    written: the pattern holds no blank, so it is found in the attribute
    exactly when it is found in one of its classes, which is the test that
    BeautifulSoup makes. *)
Definition find_abstract (soup : Soup.node) : option Soup.node :=
  match Soup.find_attr "div" "id" (String.eqb "abstract") soup with
  | Some abstract_elem => Some abstract_elem
  | None => Soup.find_attr "div" "class" PyStr.search_abstract soup
  end.

(** Lines 178-179. *)
Definition abstract_from_page (soup : Soup.node) (paper : paper_record) : paper_record :=
  match find_abstract soup with
  | Some abstract_elem => set_abstract (Soup.get_text abstract_elem) paper
  | None => paper
  end.

(** Lines 181-187; the record is updated in place, so it is handed back
    also when [urljoin] raises. *)
Definition pdf_from_page (soup : Soup.node) (paper : paper_record)
  : paper_record * completion :=
  if negb (truthy_get (pdf_url paper))
  then match Soup.find_attr "a" "href" PyStr.search_pdf soup with
       | Some pdf_link =>
           let href := Soup.get "href" "" pdf_link in
           if PyStr.truthy href
           then match urljoin CVF href with
                | Some u => (set_pdf_url u paper, Completed)
                | None => (paper, RaisedValueError)
                end
           else (paper, Completed)
       | None => (paper, Completed)
       end
  else (paper, Completed).

(** Lines 165-193: what one turn of the loop does to its record. *)
Definition enrich_paper (paper : paper_record) (w : W) : paper_record * completion * W :=
  let '(paper, c, w) :=
    match detail_url paper with
    | Some paper_url =>
        if PyStr.truthy paper_url
        then match fetch_page paper_url w with
             | (Some soup, w) =>
                 let '(paper, c) :=
                   pdf_from_page soup (abstract_from_page soup paper) in
                 (paper, c, w)
             | (None, w) => (paper, Completed, w)
             end
        else (paper, Completed, w)
    | None => (paper, Completed, w)
    end in
  match c with
  | Completed => (del_paper_url paper, Completed, w)
  | RaisedValueError => (paper, RaisedValueError, w)
  end.

Fixpoint enrich_loop (papers enriched_papers : list paper_record) (w : W)
  : result (list paper_record) * W :=
  match papers with
  | [] => (Returned enriched_papers, w)
  | paper :: rest =>
      match enrich_paper paper w with
      | (paper, Completed, w) =>
          enrich_loop rest (enriched_papers ++ [paper])%list w
      | (_, RaisedValueError, w) => (Raised, w)
      end
  end.

Definition enrich_paper_details (papers : list paper_record) (w : W)
  : result (list paper_record) * W :=
  enrich_loop papers [] w.

(** *** [scrape_papers] *)

Definition nonempty {A : Type} (l : list A) : bool :=
  match l with
  | [] => false
  | _ :: _ => true
  end.

Definition scrape_papers (base_url : string) (fetch_abstracts : bool)
    (max_papers : Z) (w : W) : result (list paper_record) * W :=
  match fetch_page base_url w with
  | (None, w) => (Returned [], w)
  | (Some soup, w) =>
      let papers := papers_of (listing_pass max_papers soup) in
      if nonempty papers && fetch_abstracts
      then enrich_paper_details papers w
      else (Returned papers, w)
  end.

(** *** [save_to_csv] *)

Definition fieldnames : list string :=
  ["title"; "authors"; "abstract"; "pdf_url"; "supplementary_url"].

(** [paper.get(key, '')] *)
Definition get_or_empty (v : option string) : string :=
  match v with
  | Some s => s
  | None => EmptyString
  end.

(** Lines 216-222: the row handed to [writer.writerow]. *)
Definition csv_row (paper : paper_record) : list string :=
  [ get_or_empty (title paper);
    match authors paper with
    | Some l => PyStr.join "; " l
    | None => EmptyString
    end;
    get_or_empty (abstract paper);
    get_or_empty (pdf_url paper);
    get_or_empty (supplementary_url paper) ].

(** The text of the file [save_to_csv] writes for [self.papers], or [None]
    when it returns at line 206 without writing one. *)
Definition save_to_csv (papers : list paper_record) : option string :=
  match papers with
  | [] => None
  | _ :: _ => Some (Csv.writerows (fieldnames :: map csv_row papers))
  end.

(** *** [main] *)

(** What [main] tells the user: the files it wrote, or that nothing was
    extracted. *)
Inductive report : Type :=
| FilesCreated (n : nat) (csv : option string)
| NoPapersExtracted.

Definition main (url : string) (no_abstracts : bool) (max_papers : Z) (w : W)
  : result report * W :=
  match scrape_papers url (negb no_abstracts) max_papers w with
  | (Returned papers, w) =>
      if nonempty papers
      then (Returned (FilesCreated (List.length papers) (save_to_csv papers)), w)
      else (Returned NoPapersExtracted, w)
  | (Raised, w) => (Raised, w)
  end.

(** *** The notions the claims are stated with *)

(** The title/detail pairs of a listing page as the pass pairs them: the
    wrappers of all its title nodes, with no cap. *)
Fixpoint wrappers_from (soup : Soup.node) (dt_elements : list Soup.path)
    (gone : list Soup.path) : list Soup.node :=
  match dt_elements with
  | [] => []
  | dt_elem :: rest =>
      let '(wrapper, gone) := make_wrapper soup gone dt_elem in
      wrapper :: wrappers_from soup rest gone
  end.

Definition title_detail_pairs (soup : Soup.node) : list Soup.node :=
  wrappers_from soup (Soup.find_all_paths "dt" soup) [].

(** The text a title node offers as title: that of its first link when it
    has one, its own text otherwise. *)
Definition title_of (title_elem : Soup.node) : string :=
  match Soup.find "a" title_elem with
  | Some title_link => Soup.get_text title_link
  | None => Soup.get_text title_elem
  end.

Definition title_text (paper_element : Soup.node) : string :=
  match Soup.find "dt" paper_element with
  | Some title_elem => title_of title_elem
  | None => EmptyString
  end.

Definition title_link (paper_element : Soup.node) : option Soup.node :=
  match Soup.find "dt" paper_element with
  | Some title_elem => Soup.find "a" title_elem
  | None => None
  end.

(** [urljoin] accepts the address of a link, if the link is there and has
    one. *)
Definition link_resolves (link : option Soup.node) : bool :=
  match link with
  | Some link =>
      let href := Soup.get "href" "" link in
      if PyStr.truthy href
      then match urljoin CVF href with Some _ => true | None => false end
      else true
  | None => true
  end.

Definition links_resolve (paper_element : Soup.node) : bool :=
  link_resolves (title_link paper_element)
  && link_resolves (Soup.find_attr "a" "href" PyStr.search_pdf paper_element)
  && link_resolves
       (Soup.find_attr "a" "href" PyStr.search_supplemental paper_element).

(** A pair that yields a record, as the code has it: its title text, the
    text of the link of its title node when the node has a link and the
    text of the node otherwise, is not empty, and [urljoin] takes the
    addresses of its links. *)
Definition well_formed_pair (paper_element : Soup.node) : bool :=
  PyStr.truthy (title_text paper_element) && links_resolve paper_element.

Definition count_well_formed (pairs : list Soup.node) : nat :=
  List.length (filter well_formed_pair pairs).

(** The records of a list of pairs. *)
Definition records_of (pairs : list Soup.node) : list paper_record :=
  flat_map (fun w => opt_list (extract_paper_info w)) pairs.

Definition has_title (p : paper_record) : Prop :=
  exists t, title p = Some t /\ t <> EmptyString.

(** In the words of the spec (4.3, step 1): one [/papers/] path segment
    becomes [/], and a [.pdf] suffix becomes [.html]. *)
Fixpoint spec_replace_segment (old new s : string) : string :=
  if PyStr.startswith old s then new ++ PyStr.drop (String.length old) s
  else match s with
       | EmptyString => EmptyString
       | String c s' => String c (spec_replace_segment old new s')
       end.

Definition spec_replace_suffix (suffix new s : string) : string :=
  if PyStr.endswith suffix s
  then String.substring 0 (String.length s - String.length suffix) s ++ new
  else s.

Definition spec_detail_url (pdfUrl : string) : string :=
  spec_replace_suffix ".pdf" ".html" (spec_replace_segment "/papers/" "/" pdfUrl).

(** In the words of the claim on titles: the link's text, else the node's own
    text; no title only when both are empty. *)
Definition spec_title (title_elem : Soup.node) : option string :=
  let link_text := match Soup.find "a" title_elem with
                   | Some title_link => Soup.get_text title_link
                   | None => EmptyString
                   end in
  if PyStr.truthy link_text then Some link_text
  else if PyStr.truthy (Soup.get_text title_elem)
       then Some (Soup.get_text title_elem)
       else None.

(** In the words of the spec (4.2, steps 1 and 2a): the title nodes of the
    page, in document order, that have a title: the text of the link, else
    the text of the node itself, is not empty.  Each announces one paper,
    with the detail node that follows it, if any. *)
Definition spec_well_formed (title_elem : Soup.node) : bool :=
  match spec_title title_elem with
  | Some _ => true
  | None => false
  end.

Definition spec_count_well_formed (soup : Soup.node) : nat :=
  List.length (filter spec_well_formed (Soup.find_all "dt" soup)).

(** In the words of the spec (4.2, step 2c): a label is stripped where it
    leads the text, and the rest is split on commas. *)
Fixpoint spec_strip_label (prefixes : list string) (author_text : string)
  : string :=
  match prefixes with
  | [] => author_text
  | prefix :: rest =>
      if PyStr.startswith prefix author_text
      then PyStr.strip (PyStr.drop (String.length prefix) author_text)
      else spec_strip_label rest author_text
  end.

Definition spec_authors_from_text (authors_elem : Soup.node) : list string :=
  map PyStr.strip
    (PyStr.split ","
       (spec_strip_label author_prefixes (Soup.get_text authors_elem))).

(** In the words of the spec (section 8, export round trip): a row of the
    file read back as a record.  The authors cell is split on the separator,
    and an empty cell stands for an absent field. *)
Record reparsed : Type := mkReparsed {
  r_title : string;
  r_authors : list string;
  r_pdf_url : option string;
  r_supplementary_url : option string
}.

Definition cell_field (cell : string) : option string :=
  if PyStr.truthy cell then Some cell else None.

Definition spec_reparse_row (cells : list string) : option reparsed :=
  match cells with
  | [t; a; _; p; s] =>
      Some (mkReparsed t (PyStr.split "; " a) (cell_field p) (cell_field s))
  | _ => None
  end.

(** What the round trip is to give back for a record: its title, its authors
    in order (none when the key is absent) and its two addresses. *)
Definition spec_expected (paper : paper_record) : reparsed :=
  mkReparsed (get_or_empty (title paper))
    (match authors paper with Some l => l | None => [] end)
    (pdf_url paper) (supplementary_url paper).

(** The records of the file, read back: the header row is skipped. *)
Definition spec_reparse (text : string) : option (list (option reparsed)) :=
  match Csv.reader text with
  | Some (_ :: data) => Some (map spec_reparse_row data)
  | _ => None
  end.

(** *** Pages, fetchers and an address joiner for the examples *)

(** Joins as [urljoin] does on the addresses of the examples, and raises as
    it does ([ValueError: Invalid IPv6 URL]) on a host that opens a bracket
    it does not close. *)
Definition urljoin_example (base url : string) : option string :=
  if PyStr.startswith "//[" url && negb (PyStr.contains "]" url) then None
  else if PyStr.startswith "/" url then Some (base ++ PyStr.drop 1 url)
  else Some (base ++ url).

(** A fetcher that fails on every address, and one that serves one page. *)
Definition fetch_nothing (url : string) (w : unit) : option Soup.node * unit :=
  (None, w).

Definition fetch_always (page : Soup.node) (url : string) (w : unit)
  : option Soup.node * unit :=
  (Some page, w).

Definition text (s : string) : Soup.node := Soup.NavigableString s.

Definition link (href s : string) : Soup.node :=
  Soup.Tag "a" [("href", href)] [text s].

Definition page (contents : list Soup.node) : Soup.node :=
  Soup.Tag "[document]" [] contents.

(** *** Notions for further properties *)

(** The address a record gets from a link: what [urljoin] gives for its
    [href], if there is a link and its [href] is not empty. *)
Definition address_of (link : option Soup.node) : option string :=
  match link with
  | Some link =>
      let href := Soup.get "href" "" link in
      if PyStr.truthy href then urljoin CVF href else None
  | None => None
  end.

(** A record with no address to fetch: neither [_paper_url] nor [pdf_url]
    holds a string that is not empty. *)
Definition no_address (paper : paper_record) : Prop :=
  truthy_get (_paper_url paper) = false /\ truthy_get (pdf_url paper) = false.

(** *** [save_summary] *)

(** Lines 235 and 239: [sum(1 for p in self.papers if p.get(key))]. *)
Definition papers_with_abstracts (papers : list paper_record) : nat :=
  List.length (filter (fun p => truthy_get (abstract p)) papers).

Definition papers_with_pdfs (papers : list paper_record) : nat :=
  List.length (filter (fun p => truthy_get (pdf_url p)) papers).

(** Line 253: the abstract as the summary shows it. *)
Definition abstract_preview (abstract : string) : string :=
  if 200 <? String.length abstract
  then PyText.slice_to 200 abstract ++ "..."
  else abstract.

(** Lines 248-251, for the list under the [authors] key. *)
Definition authors_line (authors : list string) : string :=
  "   Authors: " ++ PyStr.join ", " (firstn 3 authors)
  ++ (if 3 <? List.length authors
      then " et al. (" ++ PyText.str_of_nat (List.length authors) ++ " total)"
      else EmptyString)
  ++ PyText.nl.

(** Lines 245-254: what is written for the paper numbered [i]. *)
Definition sample_entry (i : nat) (paper : paper_record) : string :=
  PyText.nl ++ PyText.str_of_nat i ++ ". "
  ++ match title paper with
     | Some t => t
     | None => "Unknown Title"
     end
  ++ PyText.nl
  ++ match authors paper with
     | Some (a :: l) => authors_line (a :: l)
     | _ => EmptyString
     end
  ++ match abstract paper with
     | Some a =>
         if PyStr.truthy a
         then "   Abstract: " ++ abstract_preview a ++ PyText.nl
         else EmptyString
     | None => EmptyString
     end.

(** [for i, paper in enumerate(papers, i)] *)
Fixpoint sample_entries (i : nat) (papers : list paper_record) : string :=
  match papers with
  | [] => EmptyString
  | paper :: rest => sample_entry i paper ++ sample_entries (S i) rest
  end.

(** Lines 230-241: the head of the summary, from the three counts. *)
Definition summary_head (total with_abstracts with_pdfs : nat) : string :=
  "CVPR 2024 Conference Papers Summary" ++ PyText.nl
  ++ PyText.repeat_char "=" 50 ++ PyText.nl ++ PyText.nl
  ++ "Total Papers Extracted: " ++ PyText.str_of_nat total
  ++ PyText.nl ++ PyText.nl
  ++ "Papers with Abstracts: " ++ PyText.str_of_nat with_abstracts
  ++ PyText.nl
  ++ "Papers with PDF Links: " ++ PyText.str_of_nat with_pdfs
  ++ PyText.nl ++ PyText.nl.

(** The text of the file [save_summary] writes for [self.papers]. *)
Definition save_summary (papers : list paper_record) : string :=
  summary_head (List.length papers) (papers_with_abstracts papers)
    (papers_with_pdfs papers)
  ++ "Sample Papers:" ++ PyText.nl
  ++ PyText.repeat_char "-" 50 ++ PyText.nl
  ++ sample_entries 1 (firstn 10 papers).

(** The cells of a csv row under a column that are not empty. *)
Definition filled_cells (column : nat) (rows : list (list string)) : nat :=
  List.length
    (filter (fun row => PyStr.truthy (nth column row EmptyString)) rows).

(** *** A fetcher that keeps a log *)

(** A world that is the list of the addresses fetched so far, and a fetcher
    that serves what [serve] holds for an address and writes the address
    down. *)
Definition fetch_logged (serve : string -> option Soup.node) (url : string)
    (log : list string) : option Soup.node * list string :=
  (serve url, (log ++ [url])%list).

(** The address [enrich_paper_details] fetches for a record, if any: its
    detail-page address, when there is one and it is not empty. *)
Definition address_to_fetch (paper : paper_record) : list string :=
  match detail_url paper with
  | Some paper_url => if PyStr.truthy paper_url then [paper_url] else []
  | None => []
  end.

(** *** Sample pages and records *)

(** A listing page with three title/detail pairs. *)
Definition sample_listing : Soup.node :=
  page [Soup.Tag "dl" []
          [Soup.Tag "dt" [] [link "/content/CVPR2024/html/a.html" "Paper A"];
           Soup.Tag "dd" [] [link "#" "A. Smith"; text ", "; link "#" "B. Lee"];
           Soup.Tag "dt" [] [text " Paper B "];
           Soup.Tag "dd" [] [text "Authors: C. Diaz, D. Roy"];
           Soup.Tag "dt" [] [link "/content/CVPR2024/html/c.html" "Paper C"];
           Soup.Tag "dd" [] [link "/content/CVPR2024/papers/c.pdf" "pdf"]]].

(** A title node whose link has no text, beside text of its own. *)
Definition dt_empty_link : Soup.node :=
  Soup.Tag "dt" [] [Soup.Tag "a" [] []; text "Deep Nets"].

(** A listing page of two title nodes, the first with a link that has no
    text. *)
Definition page_empty_link_title : Soup.node :=
  page [Soup.Tag "dl" [] [dt_empty_link; Soup.Tag "dt" [] [text "Second"]]].

(** A detail node without links, with a label inside its text. *)
Definition dd_label_inside : Soup.node :=
  Soup.Tag "dd" [] [text "J. Smith, K. Lee (Corresponding Author: K. Lee)"].

(** A record as the listing pass makes it for a title node that has no link
    and no detail node. *)
Definition paper_no_authors : paper_record := set_title "Deep Nets" empty_paper.

(** A record with two authors and an address. *)
Definition paper_two_authors : paper_record :=
  set_pdf_url "https://openaccess.thecvf.com/content/CVPR2024/papers/a.pdf"
    (set_authors ["A. Smith"; "B. Lee"] (set_title "Paper A" empty_paper)).

(** An address that holds [.pdf] twice. *)
Definition pdf_url_twice : string :=
  "https://openaccess.thecvf.com/content/CVPR2024/papers/Wu_A.pdf_Study_paper.pdf".

Definition paper_pdf_twice : paper_record :=
  set_pdf_url pdf_url_twice (set_title "A Study" empty_paper).

Definition pdf_url_regular : string :=
  "https://openaccess.thecvf.com/content/CVPR2024/papers/Wu_Study_paper.pdf".

Definition paper_pdf_regular : paper_record :=
  set_pdf_url pdf_url_regular (set_title "A Study" empty_paper).

(** A record with an abstract, an address of its own and a detail page to
    visit, and a detail page with another abstract and another address. *)
Definition paper_enriched : paper_record :=
  set_paper_url "https://openaccess.thecvf.com/content/CVPR2024/html/a.html"
    (set_pdf_url "https://openaccess.thecvf.com/content/CVPR2024/papers/a.pdf"
       (set_abstract "An old abstract." (set_title "Paper A" empty_paper))).

Definition detail_page : Soup.node :=
  page [Soup.Tag "div" [("id", "abstract")] [text " A new abstract. "];
        link "/content/CVPR2024/papers/other.pdf" "pdf"].

(** A record to enrich, and a detail page whose [.pdf] link has an address
    that [urljoin] rejects. *)
Definition paper_to_enrich : paper_record :=
  set_paper_url "https://openaccess.thecvf.com/content/CVPR2024/html/a.html"
    (set_title "Paper A" empty_paper).

Definition detail_page_bad_link : Soup.node :=
  page [link "//[x.pdf" "pdf"].

(** A listing page that holds no title node. *)
Definition page_without_titles : Soup.node :=
  page [Soup.Tag "p" [] [text "The proceedings have moved."]].

(** *** Notions of the proofs *)

(** The positions below the children of a tag, and the children as they are
    now, for children at positions [i] and up: the local loops of
    [descendant_paths] and [live], named. *)
Fixpoint paths_from (i : nat) (l : list Soup.node) : list Soup.path :=
  match l with
  | [] => []
  | c :: l' =>
      (([i] :: map (cons i) (Soup.descendant_paths c)) ++ paths_from (S i) l')%list
  end.

Fixpoint live_from (gone : list Soup.path) (here : Soup.path) (i : nat)
    (l : list Soup.node) : list Soup.node :=
  match l with
  | [] => []
  | c :: l' =>
      if Soup.moved gone ((here ++ [i])%list) then live_from gone here (S i) l'
      else Soup.live gone ((here ++ [i])%list) c :: live_from gone here (S i) l'
  end.

(** [p] is the position of a node that holds the node at [q]. *)
Definition above (p q : Soup.path) : Prop :=
  exists r, r <> [] /\ q = (p ++ r)%list.

(** [later] does not hold [earlier]: a node comes before its descendants. *)
Definition in_order (earlier later : Soup.path) : Prop := ~ above later earlier.

(** The title text of the title node at a position of the page as parsed. *)
Definition title_at (soup : Soup.node) (dt_elem : Soup.path) : string :=
  match Soup.node_at dt_elem soup with
  | Some title_elem => title_of title_elem
  | None => EmptyString
  end.

(** Two records are the same entry: title, authors and supplementary
    address agree. *)
Definition same_entry (p q : paper_record) : Prop :=
  title q = title p /\ authors q = authors p
  /\ supplementary_url q = supplementary_url p.

(** The second record has the [pdf_url] of the first, if that one is set. *)
Definition keeps_pdf_url (p q : paper_record) : Prop :=
  truthy_get (pdf_url p) = true -> pdf_url q = pdf_url p.

(** [urljoin] accepts the address of the first [.pdf] link of a page. *)
Definition pdf_link_resolves (soup : Soup.node) : bool :=
  link_resolves (Soup.find_attr "a" "href" PyStr.search_pdf soup).

(** A name that does not hold the separator of the authors cell. *)
Definition no_separator (a : string) : Prop := PyStr.contains "; " a = false.

(** A cell that the csv reader takes: no longer than its field limit. *)
Definition within_limit (cell : string) : Prop :=
  (Z.of_nat (String.length cell) <= Csv.field_limit)%Z.

(** Where the parser stands when a field has been read: in a state in which
    a delimiter or the end of the record saves the field. *)
Definition field_read (r : Csv.parser) : Prop :=
  Csv.state_of r = Csv.START_FIELD \/ Csv.state_of r = Csv.IN_FIELD
  \/ Csv.state_of r = Csv.QUOTE_IN_QUOTED_FIELD.

(* ================================================================= *)
(** ** Properties of the enrichment pass *)

Lemma pdf_from_page_completed soup paper :
  truthy_get (pdf_url paper) = true \/ pdf_link_resolves soup = true ->
  snd (pdf_from_page soup paper) = Completed.
Proof.
  unfold pdf_from_page, pdf_link_resolves, link_resolves.
  intros [H | H].
  - rewrite H. reflexivity.
  - destruct (negb (truthy_get (pdf_url paper))); [| reflexivity].
    destruct (Soup.find_attr "a" "href" PyStr.search_pdf soup); [| reflexivity].
    destruct (PyStr.truthy (Soup.get "href" "" n)); [| reflexivity].
    destruct (urljoin CVF (Soup.get "href" "" n)); [reflexivity | discriminate].
Qed.

Lemma pdf_from_page_frame soup paper :
  same_entry paper (fst (pdf_from_page soup paper))
  /\ abstract (fst (pdf_from_page soup paper)) = abstract paper
  /\ _paper_url (fst (pdf_from_page soup paper)) = _paper_url paper
  /\ keeps_pdf_url paper (fst (pdf_from_page soup paper)).
Proof.
  unfold pdf_from_page, same_entry, keeps_pdf_url.
  destruct (truthy_get (pdf_url paper)) eqn:E; simpl.
  - repeat split.
  - destruct (Soup.find_attr "a" "href" PyStr.search_pdf soup);
      [| repeat split; discriminate].
    destruct (PyStr.truthy (Soup.get "href" "" n));
      [| repeat split; discriminate].
    destruct (urljoin CVF (Soup.get "href" "" n)); simpl;
      repeat split; discriminate.
Qed.

Lemma abstract_from_page_frame soup paper :
  same_entry paper (abstract_from_page soup paper)
  /\ pdf_url (abstract_from_page soup paper) = pdf_url paper
  /\ _paper_url (abstract_from_page soup paper) = _paper_url paper.
Proof.
  unfold abstract_from_page, same_entry.
  destruct (find_abstract soup); simpl; repeat split.
Qed.

(** What a turn of the loop leaves alone, whatever the fetch gives. *)
Lemma enrich_paper_frame paper w :
  same_entry paper (fst (fst (enrich_paper paper w)))
  /\ keeps_pdf_url paper (fst (fst (enrich_paper paper w))).
Proof.
  unfold enrich_paper.
  assert (Hdel : forall q, same_entry paper q /\ keeps_pdf_url paper q ->
            same_entry paper (del_paper_url q)
            /\ keeps_pdf_url paper (del_paper_url q)).
  { intros q [Hs Hk]. split; [exact Hs | exact Hk]. }
  assert (Hrefl : same_entry paper paper /\ keeps_pdf_url paper paper).
  { split; [repeat split | intros _; reflexivity]. }
  destruct (detail_url paper) as [paper_url |]; [| apply Hdel, Hrefl].
  destruct (PyStr.truthy paper_url); [| apply Hdel, Hrefl].
  destruct (fetch_page paper_url w) as [[soup |] w1]; [| apply Hdel, Hrefl].
  pose proof (pdf_from_page_frame soup (abstract_from_page soup paper))
    as (Hs & _ & _ & Hk).
  pose proof (abstract_from_page_frame soup paper) as (Hs' & Hp & _).
  destruct (pdf_from_page soup (abstract_from_page soup paper)) as [q c].
  simpl in Hs, Hk.
  assert (Hq : same_entry paper q /\ keeps_pdf_url paper q).
  { split.
    - destruct Hs as (a & b & c0), Hs' as (a' & b' & c').
      repeat split; congruence.
    - intros Ht. unfold keeps_pdf_url in Hk. rewrite <- Hp.
      apply Hk. rewrite Hp. exact Ht. }
  destruct c; simpl; [apply Hdel, Hq | exact Hq].
Qed.

(** The list handed back holds, in order, the records the turns produced. *)
Lemma enrich_loop_returned (R : paper_record -> paper_record -> Prop) :
  (forall paper w, R paper (fst (fst (enrich_paper paper w)))) ->
  forall papers enriched_papers w out w',
    enrich_loop papers enriched_papers w = (Returned out, w') ->
    exists l, out = (enriched_papers ++ l)%list /\ Forall2 R papers l.
Proof.
  intros HR papers.
  induction papers as [| paper rest IH]; intros acc w out w' H; simpl in H.
  - injection H as <- _. exists []. split; [symmetry; apply app_nil_r | constructor].
  - pose proof (HR paper w) as Hp.
    destruct (enrich_paper paper w) as [[q c] w1]. simpl in Hp.
    destruct c; [| discriminate].
    apply IH in H. destruct H as (l & -> & Hl).
    exists (q :: l). split.
    + rewrite <- app_assoc. reflexivity.
    + constructor; assumption.
Qed.

(** The pass hands its list back as soon as no turn raises. *)
Lemma enrich_loop_completes papers :
  forall enriched_papers w,
    (forall paper w, snd (fst (enrich_paper paper w)) = Completed) ->
    exists out w', enrich_loop papers enriched_papers w = (Returned out, w').
Proof.
  induction papers as [| paper rest IH]; intros acc w Hc; simpl.
  - eauto.
  - pose proof (Hc paper w) as Hp.
    destruct (enrich_paper paper w) as [[q c] w1]. simpl in Hp. subst c.
    apply IH. exact Hc.
Qed.

(** Whenever [enrich_paper_details] hands a list back, it has the length of
    its input and holds the same entries in the same order. *)
Lemma enrich_returns_same_entries papers w out w' :
  enrich_paper_details papers w = (Returned out, w') ->
  List.length out = List.length papers /\ Forall2 same_entry papers out.
Proof.
  intros H.
  apply (enrich_loop_returned same_entry) in H.
  - destruct H as (l & -> & Hl). simpl. split; [| exact Hl].
    symmetry. eapply Forall2_length. exact Hl.
  - intros paper w0. apply enrich_paper_frame.
Qed.

Lemma enrich_paper_failed_fetch :
  (forall url w, fst (fetch_page url w) = None) ->
  forall paper w, fst (enrich_paper paper w) = (del_paper_url paper, Completed).
Proof.
  intros Hfail paper w. unfold enrich_paper.
  destruct (detail_url paper) as [paper_url |]; [| reflexivity].
  destruct (PyStr.truthy paper_url); [| reflexivity].
  pose proof (Hfail paper_url w) as Hf.
  destruct (fetch_page paper_url w) as [[soup |] w1]; [discriminate | reflexivity].
Qed.

Lemma enrich_loop_failed_fetch :
  (forall url w, fst (fetch_page url w) = None) ->
  forall papers enriched_papers w,
    fst (enrich_loop papers enriched_papers w)
    = Returned (enriched_papers ++ map del_paper_url papers)%list.
Proof.
  intros Hfail papers.
  induction papers as [| paper rest IH]; intros acc w; simpl.
  - rewrite app_nil_r. reflexivity.
  - pose proof (enrich_paper_failed_fetch Hfail paper w) as Hp.
    destruct (enrich_paper paper w) as [[q c] w1]. simpl in Hp.
    injection Hp as -> ->.
    rewrite IH, <- app_assoc. reflexivity.
Qed.

(** The pass hands back a list of the same entries in the same order, for
    every way the fetches go, as long as [urljoin] accepts the address of
    the [.pdf] link of every page fetched. *)
Lemma enrich_preserves_entries :
  (forall url w soup w',
      fetch_page url w = (Some soup, w') -> pdf_link_resolves soup = true) ->
  forall papers w,
  exists out w',
    enrich_paper_details papers w = (Returned out, w')
    /\ List.length out = List.length papers
    /\ Forall2 same_entry papers out.
Proof.
  intros Hres papers w.
  destruct (enrich_loop_completes papers [] w) as (out & w' & E).
  - intros paper w0. unfold enrich_paper.
    destruct (detail_url paper) as [paper_url |]; [| reflexivity].
    destruct (PyStr.truthy paper_url); [| reflexivity].
    destruct (fetch_page paper_url w0) as [[soup |] w1] eqn:Ef; [| reflexivity].
    pose proof (pdf_from_page_completed soup (abstract_from_page soup paper)
                  (or_intror (Hres _ _ _ _ Ef))) as Hc.
    destruct (pdf_from_page soup (abstract_from_page soup paper)) as [q c].
    simpl in Hc. rewrite Hc. reflexivity.
  - exists out, w'. split; [exact E |].
    apply enrich_returns_same_entries in E. exact E.
Qed.

(** C3. With a page fetcher that fails on every address,
    [enrich_paper_details] hands back the records it was given, each one
    unchanged but for its [_paper_url] key, which is removed. *)
Theorem enrich_with_failing_fetcher :
  (forall url w, fst (fetch_page url w) = None) ->
  forall papers w,
    fst (enrich_paper_details papers w) = Returned (map del_paper_url papers).
Proof.
  intros Hfail papers w. unfold enrich_paper_details.
  rewrite (enrich_loop_failed_fetch Hfail). reflexivity.
Qed.

(** The turn of a record whose [pdf_url] is set never raises. *)
Lemma enrich_paper_with_pdf_url_completes paper w :
  truthy_get (pdf_url paper) = true ->
  snd (fst (enrich_paper paper w)) = Completed
  /\ pdf_url (fst (fst (enrich_paper paper w))) = pdf_url paper.
Proof.
  intros Hset. split; [| apply enrich_paper_frame; exact Hset].
  unfold enrich_paper.
  destruct (detail_url paper) as [paper_url |]; [| reflexivity].
  destruct (PyStr.truthy paper_url); [| reflexivity].
  destruct (fetch_page paper_url w) as [[soup |] w1]; [| reflexivity].
  pose proof (pdf_from_page_completed soup (abstract_from_page soup paper)) as Hc.
  destruct (pdf_from_page soup (abstract_from_page soup paper)) as [q c].
  simpl in Hc. rewrite Hc; [reflexivity |].
  left. destruct (abstract_from_page_frame soup paper) as (_ & -> & _).
  exact Hset.
Qed.

(** C6. A record whose [pdf_url] is set and not empty keeps it through
    [enrich_paper_details], whatever page is fetched, also when the page
    holds another [.pdf] link: in every list the pass hands back, a
    [pdf_url] that was set is the same, and one that differs was unset or
    empty before; and the turn of such a record, in any state of the world,
    leaves its [pdf_url] as it was and does not raise. *)
Theorem enrich_never_overwrites_pdf_url :
  forall papers w out w',
    enrich_paper_details papers w = (Returned out, w') ->
    Forall2 (fun paper enriched =>
               (truthy_get (pdf_url paper) = true ->
                pdf_url enriched = pdf_url paper)
               /\ (pdf_url enriched <> pdf_url paper ->
                   truthy_get (pdf_url paper) = false)) papers out
    /\ forall paper w0,
         In paper papers -> truthy_get (pdf_url paper) = true ->
         snd (fst (enrich_paper paper w0)) = Completed
         /\ pdf_url (fst (fst (enrich_paper paper w0))) = pdf_url paper.
Proof.
  intros papers w out w' H. split.
  - apply (enrich_loop_returned keeps_pdf_url) in H.
    + destruct H as (l & -> & Hl). simpl.
      induction Hl as [| p q ps qs Hpq _ IH]; constructor; [| exact IH].
      split; [exact Hpq |].
      intros Hne. destruct (truthy_get (pdf_url p)) eqn:E; [| reflexivity].
      exfalso. apply Hne, Hpq. exact E.
    + intros paper w0. apply enrich_paper_frame.
  - intros paper w0 _ Hset. apply enrich_paper_with_pdf_url_completes.
    exact Hset.
Qed.

(** The pass over a list in two parts: the second part starts from the list
    and the world the first part leaves. *)
Lemma enrich_loop_app before : forall rest enriched_papers w,
  enrich_loop (before ++ rest)%list enriched_papers w
  = match enrich_loop before enriched_papers w with
    | (Returned l, w1) => enrich_loop rest l w1
    | (Raised, w1) => (Raised, w1)
    end.
Proof.
  induction before as [| paper before IH]; intros rest acc w; [reflexivity |].
  simpl. destruct (enrich_paper paper w) as [[q c] w1].
  destruct c; [apply IH | reflexivity].
Qed.

(** C9. When the turn of a record fetches its detail page and the page has
    an abstract container, the record's [abstract] becomes the text of that
    container, whatever it was before: the key is assigned without a test.
    So it is for the record after its turn, and for the record at its place
    in every list that [enrich_paper_details] hands back. *)
Theorem enrich_replaces_abstract :
  forall paper old w paper_url soup w' abstract_elem,
    abstract paper = Some old ->
    detail_url paper = Some paper_url ->
    PyStr.truthy paper_url = true ->
    fetch_page paper_url w = (Some soup, w') ->
    find_abstract soup = Some abstract_elem ->
    abstract (fst (fst (enrich_paper paper w)))
    = Some (Soup.get_text abstract_elem)
    /\ forall before after w0 enriched_before out w1,
         enrich_paper_details before w0 = (Returned enriched_before, w) ->
         enrich_paper_details (before ++ paper :: after)%list w0
         = (Returned out, w1) ->
         exists enriched,
           nth_error out (List.length before) = Some enriched
           /\ abstract enriched = Some (Soup.get_text abstract_elem).
Proof.
  intros paper old w paper_url soup w' abstract_elem _ Hurl Ht Hf Ha.
  assert (Hturn : abstract (fst (fst (enrich_paper paper w)))
                  = Some (Soup.get_text abstract_elem)).
  { unfold enrich_paper. rewrite Hurl, Ht, Hf.
    pose proof (pdf_from_page_frame soup (abstract_from_page soup paper))
      as (_ & Hab & _).
    destruct (pdf_from_page soup (abstract_from_page soup paper)) as [q c].
    simpl in Hab.
    assert (Hq : abstract q = Some (Soup.get_text abstract_elem)).
    { rewrite Hab. unfold abstract_from_page. rewrite Ha. reflexivity. }
    destruct c; simpl; exact Hq. }
  split; [exact Hturn |].
  intros before after w0 enriched_before out w1 Hbefore Hall.
  pose proof (enrich_returns_same_entries _ _ _ _ Hbefore) as [Hlen _].
  unfold enrich_paper_details in *.
  rewrite enrich_loop_app, Hbefore in Hall. cbn [enrich_loop] in Hall.
  destruct (enrich_paper paper w) as [[q c] w2]. cbn [fst] in Hturn.
  destruct c; [| discriminate].
  apply (enrich_loop_returned (fun _ _ => True)) in Hall; [| auto].
  destruct Hall as (l & -> & _).
  exists q. split; [| exact Hturn].
  rewrite <- app_assoc, nth_error_app2 by lia.
  rewrite Hlen, Nat.sub_diag. reflexivity.
Qed.

(* ================================================================= *)
(** ** Properties of [extract_paper_info] *)

Lemma extract_title_spec w :
  match extract_title w empty_paper with
  | Some p =>
      link_resolves (title_link w) = true
      /\ truthy_get (title p) = PyStr.truthy (title_text w)
      /\ (PyStr.truthy (title_text w) = true -> title p = Some (title_text w))
  | None => link_resolves (title_link w) = false
  end.
Proof.
  unfold extract_title, title_link, title_text, title_of, link_resolves.
  destruct (Soup.find "dt" w) as [title_elem |]; simpl.
  - destruct (Soup.find "a" title_elem) as [tl |]; simpl.
    + destruct (PyStr.truthy (Soup.get "href" "" tl)); simpl.
      * destruct (urljoin CVF (Soup.get "href" "" tl)); simpl; auto.
      * auto.
    + destruct (PyStr.truthy (Soup.get_text title_elem)) eqn:E; simpl.
      * auto.
      * repeat split. discriminate.
  - repeat split. discriminate.
Qed.

Lemma extract_authors_title w p : title (extract_authors w p) = title p.
Proof.
  unfold extract_authors.
  destruct (Soup.find "dd" w) as [authors_elem |]; [| reflexivity].
  destruct (Soup.find_all "a" authors_elem); [| reflexivity].
  destruct (authors_from_text authors_elem); reflexivity.
Qed.

Lemma extract_pdf_spec w p :
  match extract_pdf w p with
  | Some p' =>
      link_resolves (Soup.find_attr "a" "href" PyStr.search_pdf w) = true
      /\ title p' = title p
  | None => link_resolves (Soup.find_attr "a" "href" PyStr.search_pdf w) = false
  end.
Proof.
  unfold extract_pdf, link_resolves.
  destruct (Soup.find_attr "a" "href" PyStr.search_pdf w) as [l |]; [| auto].
  destruct (PyStr.truthy (Soup.get "href" "" l)); [| auto].
  destruct (urljoin CVF (Soup.get "href" "" l)); simpl; auto.
Qed.

Lemma extract_supplementary_spec w p :
  match extract_supplementary w p with
  | Some p' =>
      link_resolves (Soup.find_attr "a" "href" PyStr.search_supplemental w) = true
      /\ title p' = title p
  | None =>
      link_resolves (Soup.find_attr "a" "href" PyStr.search_supplemental w) = false
  end.
Proof.
  unfold extract_supplementary, link_resolves.
  destruct (Soup.find_attr "a" "href" PyStr.search_supplemental w) as [l |];
    [| auto].
  destruct (PyStr.truthy (Soup.get "href" "" l)); [| auto].
  destruct (urljoin CVF (Soup.get "href" "" l)); simpl; auto.
Qed.

(** A pair yields a record exactly when it is well formed, and the record
    then bears the title text of the pair. *)
Lemma extract_paper_info_spec w :
  if well_formed_pair w
  then exists p, extract_paper_info w = Some p /\ title p = Some (title_text w)
  else extract_paper_info w = None.
Proof.
  unfold well_formed_pair, links_resolve, extract_paper_info,
    extract_paper_info_body.
  pose proof (extract_title_spec w) as Ht.
  destruct (extract_title w empty_paper) as [p1 |].
  - destruct Ht as (-> & Htr & Hti).
    pose proof (extract_pdf_spec w (extract_authors w p1)) as Hp.
    destruct (extract_pdf w (extract_authors w p1)) as [p2 |].
    + destruct Hp as (-> & Hp).
      pose proof (extract_supplementary_spec w p2) as Hs.
      destruct (extract_supplementary w p2) as [p3 |].
      * destruct Hs as (-> & Hs).
        assert (E : title p3 = title p1)
          by (rewrite Hs, Hp; apply extract_authors_title).
        rewrite E, Htr.
        destruct (PyStr.truthy (title_text w)); simpl; [| reflexivity].
        exists p3. split; [reflexivity |]. rewrite E. apply Hti. reflexivity.
      * rewrite Hs, !andb_false_r. reflexivity.
    + rewrite Hp, andb_false_r. reflexivity.
  - rewrite Ht, andb_false_r. reflexivity.
Qed.

Lemma truthy_nonempty s : PyStr.truthy s = true <-> s <> EmptyString.
Proof.
  destruct s; simpl; split; intros H; try congruence; try discriminate.
Qed.

Lemma extract_paper_info_has_title w p :
  extract_paper_info w = Some p -> has_title p.
Proof.
  intros H. pose proof (extract_paper_info_spec w) as Hs.
  unfold well_formed_pair in Hs.
  destruct (PyStr.truthy (title_text w)) eqn:Et; simpl in Hs.
  - destruct (links_resolve w).
    + destruct Hs as (q & Hq & Hti). rewrite H in Hq. injection Hq as <-.
      exists (title_text w). split; [exact Hti |].
      apply truthy_nonempty. exact Et.
    + congruence.
  - congruence.
Qed.

Lemma find_dt_of_wrapper attrs contents rest :
  Soup.find "dt" (Soup.Tag "div" [] (Soup.Tag "dt" attrs contents :: rest))
  = Some (Soup.Tag "dt" attrs contents).
Proof. reflexivity. Qed.

(** C5, as the code has it.  For the wrapper of a title node [dt] and of its
    detail node, if any: [extract_paper_info] takes the title from the text
    of the first link of [dt] when [dt] holds a link, and from the text of
    [dt] itself only when it holds none; it yields a record, which bears
    that text as title, exactly when the text taken is not empty and the
    addresses of the links resolve. *)
Theorem extract_title_from_link_else_text :
  forall attrs contents (dd : option Soup.node),
    let dt := Soup.Tag "dt" attrs contents in
    let wrapper := Soup.Tag "div" [] (dt :: opt_list dd) in
    let taken := match Soup.find "a" dt with
                 | Some title_link => Soup.get_text title_link
                 | None => Soup.get_text dt
                 end in
    match extract_paper_info wrapper with
    | Some paper_info =>
        title paper_info = Some taken /\ taken <> EmptyString
        /\ links_resolve wrapper = true
    | None => taken = EmptyString \/ links_resolve wrapper = false
    end.
Proof.
  intros attrs contents dd dt wrapper taken.
  assert (Htext : title_text wrapper = taken).
  { unfold title_text, wrapper, dt. rewrite find_dt_of_wrapper. reflexivity. }
  pose proof (extract_paper_info_spec wrapper) as Hs.
  unfold well_formed_pair in Hs. rewrite Htext in Hs.
  destruct (PyStr.truthy taken) eqn:Et; simpl in Hs.
  - destruct (links_resolve wrapper).
    + destruct Hs as (p & -> & Hti). repeat split; [exact Hti |].
      apply truthy_nonempty. exact Et.
    + rewrite Hs. right. reflexivity.
  - rewrite Hs. left. destruct taken; [reflexivity | discriminate].
Qed.

(* ================================================================= *)
(** ** Node objects and document order *)

Local Open Scope list_scope.

Lemma node_induction (P : Soup.node -> Prop) :
  (forall s, P (Soup.NavigableString s)) ->
  (forall name attrs contents, Forall P contents ->
      P (Soup.Tag name attrs contents)) ->
  forall n, P n.
Proof.
  intros Hs Ht. fix IH 1. intros [s | name attrs contents].
  - apply Hs.
  - apply Ht. induction contents as [| c cs IHcs]; constructor.
    + apply IH.
    + exact IHcs.
Qed.

Lemma descendant_paths_tag name attrs contents :
  Soup.descendant_paths (Soup.Tag name attrs contents) = paths_from 0 contents.
Proof.
  simpl. generalize 0.
  induction contents as [| c cs IH]; intros i; [reflexivity |].
  simpl. rewrite IH. reflexivity.
Qed.

Lemma live_tag gone here name attrs contents :
  Soup.live gone here (Soup.Tag name attrs contents)
  = Soup.Tag name attrs (live_from gone here 0 contents).
Proof.
  simpl. f_equal. generalize 0.
  induction contents as [| c cs IH]; intros i; [reflexivity |].
  simpl. rewrite IH. reflexivity.
Qed.

Lemma node_at_child name attrs pre c post p :
  Soup.node_at (List.length pre :: p) (Soup.Tag name attrs (pre ++ c :: post))
  = Soup.node_at p c.
Proof.
  simpl. rewrite nth_error_app2, Nat.sub_diag by lia. reflexivity.
Qed.

(** The positions listed are those of the descendants, in document order. *)
Lemma descendant_paths_nodes n :
  map (fun p => Soup.node_at p n) (Soup.descendant_paths n)
  = map Some (Soup.descendants n).
Proof.
  induction n as [s | name attrs contents IH] using node_induction;
    [reflexivity |].
  rewrite descendant_paths_tag. simpl Soup.descendants.
  assert (H : forall post pre,
             contents = pre ++ post -> Forall (fun c =>
               map (fun p => Soup.node_at p c) (Soup.descendant_paths c)
               = map Some (Soup.descendants c)) post ->
             map (fun p => Soup.node_at p (Soup.Tag name attrs contents))
               (paths_from (List.length pre) post)
             = map Some (flat_map (fun c => c :: Soup.descendants c) post)).
  { induction post as [| c post IHpost]; intros pre E Hall; [reflexivity |].
    inversion Hall as [| ? ? Hc Hpost]; subst.
    cbn [paths_from flat_map]. rewrite !map_app. cbn [map app].
    rewrite node_at_child. cbn [Soup.node_at]. f_equal. f_equal.
    - rewrite map_map. rewrite <- Hc. apply map_ext. intros p.
      apply node_at_child.
    - specialize (IHpost (pre ++ [c])).
      rewrite length_app, Nat.add_1_r in IHpost. apply IHpost.
      + rewrite <- app_assoc. reflexivity.
      + exact Hpost. }
  apply (H contents []); [reflexivity | exact IH].
Qed.

Lemma filter_paths_nodes name soup : forall paths nodes,
  map (fun p => Soup.node_at p soup) paths = map Some nodes ->
  map (fun p => Soup.node_at p soup)
    (filter (Soup.is_tag_at name soup) paths)
  = map Some (filter (Soup.is_tag name) nodes).
Proof.
  induction paths as [| p paths IH]; intros [| n nodes] H;
    try discriminate; [reflexivity |].
  simpl in H. injection H as Hp Hrest.
  simpl. unfold Soup.is_tag_at at 1. rewrite Hp.
  destruct (Soup.is_tag name n); simpl; rewrite ?Hp; f_equal; auto.
Qed.

(** [find_all_paths] lists the positions of the nodes of [find_all]. *)
Lemma find_all_paths_nodes name soup :
  map (fun p => Soup.node_at p soup) (Soup.find_all_paths name soup)
  = map Some (Soup.find_all name soup).
Proof.
  apply filter_paths_nodes, descendant_paths_nodes.
Qed.


Lemma moved_false gone p : ~ In p gone -> Soup.moved gone p = false.
Proof.
  unfold Soup.moved. intros H.
  destruct (existsb (Soup.path_eqb p) gone) eqn:E; [| reflexivity].
  apply existsb_exists in E. destruct E as (g & Hg & Heq).
  unfold Soup.path_eqb in Heq.
  destruct (list_eq_dec Nat.eq_dec p g); [subst; contradiction | discriminate].
Qed.

Lemma above_child here i : above here (here ++ [i]).
Proof. exists [i]. split; [discriminate | reflexivity]. Qed.

Lemma above_trans_child here i g : above (here ++ [i]) g -> above here g.
Proof.
  intros (r & Hr & ->). exists (i :: r). split; [discriminate |].
  rewrite <- app_assoc. reflexivity.
Qed.

Lemma above_length p q : above p q -> List.length p < List.length q.
Proof.
  intros (r & Hr & ->). rewrite length_app.
  destruct r; [congruence | simpl; lia].
Qed.

(** A node none of whose descendants was moved is as it was parsed. *)
Lemma live_unchanged n : forall gone here,
  (forall g, In g gone -> ~ above here g) ->
  Soup.live gone here n = n.
Proof.
  induction n as [s | name attrs contents IH] using node_induction;
    intros gone here Hg; [reflexivity |].
  rewrite live_tag. f_equal. generalize 0.
  induction IH as [| c cs Hc _ IHcs]; intros i; [reflexivity |].
  cbn [live_from]. rewrite moved_false.
  - rewrite Hc, IHcs; [reflexivity |].
    intros g Hin Habove. apply (Hg g Hin). eapply above_trans_child.
    exact Habove.
  - intros Hin. apply (Hg _ Hin). apply above_child.
Qed.

Lemma in_order_app l1 : forall l2,
  ForallOrdPairs in_order l1 -> ForallOrdPairs in_order l2 ->
  (forall a b, In a l1 -> In b l2 -> in_order a b) ->
  ForallOrdPairs in_order (l1 ++ l2).
Proof.
  induction l1 as [| x l1 IH]; intros l2 H1 H2 H12; [exact H2 |].
  inversion H1 as [| ? ? Hx Hl1]; subst. simpl. constructor.
  - apply Forall_app. split; [exact Hx |].
    apply Forall_forall. intros b Hb. apply H12; [left; reflexivity | exact Hb].
  - apply IH; [exact Hl1 | exact H2 |].
    intros a b Ha Hb. apply H12; [right; exact Ha | exact Hb].
Qed.

Lemma above_cons i p q : above (i :: p) (i :: q) -> above p q.
Proof.
  intros (r & Hr & E). exists r. split; [exact Hr |].
  simpl in E. injection E as E. exact E.
Qed.

Lemma in_order_map_cons i l :
  ForallOrdPairs in_order l -> ForallOrdPairs in_order (map (cons i) l).
Proof.
  induction 1 as [| a l Ha _ IH]; simpl; constructor; [| exact IH].
  apply Forall_forall. intros b Hb. apply in_map_iff in Hb.
  destruct Hb as (b' & <- & Hb'). intros Habove. apply above_cons in Habove.
  rewrite Forall_forall in Ha. exact (Ha b' Hb' Habove).
Qed.

Lemma in_order_filter (f : Soup.path -> bool) l :
  ForallOrdPairs in_order l -> ForallOrdPairs in_order (filter f l).
Proof.
  induction 1 as [| a l Ha _ IH]; simpl; [constructor |].
  destruct (f a); [| exact IH]. constructor; [| exact IH].
  apply Forall_forall. intros b Hb. apply filter_In in Hb.
  rewrite Forall_forall in Ha. apply Ha, Hb.
Qed.

Lemma paths_from_head l : forall i p,
  In p (paths_from i l) -> exists j q, p = j :: q /\ i <= j.
Proof.
  induction l as [| c l IH]; intros i p H; [contradiction |].
  cbn [paths_from] in H. apply in_app_or in H. destruct H as [H | H].
  - destruct H as [<- | H]; [exists i, []; split; [reflexivity | lia] |].
    apply in_map_iff in H. destruct H as (q & <- & _).
    exists i, q. split; [reflexivity | lia].
  - apply IH in H. destruct H as (j & q & -> & Hj).
    exists j, q. split; [reflexivity | lia].
Qed.

(** The positions of the descendants are listed in document order. *)
Lemma descendant_paths_in_order n :
  ForallOrdPairs in_order (Soup.descendant_paths n).
Proof.
  induction n as [s | name attrs contents IH] using node_induction;
    [constructor |].
  rewrite descendant_paths_tag. generalize 0.
  induction IH as [| c cs Hc _ IHcs]; intros i; [constructor |].
  cbn [paths_from]. apply in_order_app.
  - constructor; [| apply in_order_map_cons; exact Hc].
    apply Forall_forall. intros b Hb. apply in_map_iff in Hb.
    destruct Hb as (q & <- & _). intros Habove.
    apply above_length in Habove. simpl in Habove. lia.
  - apply IHcs.
  - intros a b Ha Hb Habove.
    apply paths_from_head in Hb. destruct Hb as (j & q & -> & Hj).
    destruct Habove as (r & _ & E).
    destruct Ha as [<- | Ha].
    + simpl in E. injection E as E _. lia.
    + apply in_map_iff in Ha. destruct Ha as (a' & <- & _).
      simpl in E. injection E as E _. lia.
Qed.

Lemma first_sibling_parent name gone parent l : forall i q,
  Soup.first_sibling name gone parent i l = Some q ->
  exists j, q = parent ++ [j].
Proof.
  induction l as [| c l IH]; intros i q H; [discriminate |].
  simpl in H.
  destruct (Soup.is_tag name c && negb (Soup.moved gone (parent ++ [i]))).
  - injection H as <-. exists i. reflexivity.
  - apply IH in H. exact H.
Qed.

Lemma find_next_sibling_parent name gone soup p q :
  Soup.find_next_sibling name gone soup p = Some q ->
  exists parent i j, p = parent ++ [i] /\ q = parent ++ [j].
Proof.
  unfold Soup.find_next_sibling. intros H.
  destruct (rev p) as [| i rparent] eqn:E; [discriminate |].
  destruct (Soup.node_at (rev rparent) soup) as [[s | nm at_ cs] |];
    try discriminate.
  apply first_sibling_parent in H. destruct H as (j & ->).
  exists (rev rparent), i, j. split; [| reflexivity].
  rewrite <- (rev_involutive p), E. reflexivity.
Qed.

Lemma above_sibling x parent i j :
  above x (parent ++ [j]) -> above x (parent ++ [i]).
Proof.
  intros (r & Hr & E).
  destruct (exists_last Hr) as (r' & k & ->).
  rewrite app_assoc in E. apply app_inj_tail in E. destruct E as [E _].
  exists (r' ++ [i]). split; [destruct r'; discriminate |].
  rewrite E, <- app_assoc. reflexivity.
Qed.

Lemma title_text_wrapper soup gone dt_elem :
  Soup.is_tag_at "dt" soup dt_elem = true ->
  (forall g, In g gone -> ~ above dt_elem g) ->
  title_text (fst (make_wrapper soup gone dt_elem)) = title_at soup dt_elem.
Proof.
  intros Htag Hg. unfold make_wrapper, title_at, Soup.is_tag_at in *.
  cbn [fst]. unfold Soup.live_at at 1.
  destruct (Soup.node_at dt_elem soup) as [n |]; [| discriminate].
  rewrite live_unchanged.
  - destruct n as [s | nm at_ cs]; [discriminate |].
    simpl in Htag. apply String.eqb_eq in Htag. subst nm.
    unfold title_text. cbn [opt_list app]. rewrite find_dt_of_wrapper.
    reflexivity.
  - intros g Hin Habove.
    destruct (Soup.find_next_sibling "dd" gone soup dt_elem) as [dd |] eqn:E.
    + destruct Hin as [<- | [<- | Hin]].
      * apply find_next_sibling_parent in E.
        destruct E as (parent & i & j & -> & ->).
        apply above_length in Habove. rewrite !length_app in Habove.
        simpl in Habove. lia.
      * apply above_length in Habove. lia.
      * exact (Hg g Hin Habove).
    + destruct Hin as [<- | Hin].
      * apply above_length in Habove. lia.
      * exact (Hg g Hin Habove).
Qed.

Lemma make_wrapper_gone soup gone dt_elem g x :
  In g (snd (make_wrapper soup gone dt_elem)) ->
  above x g ->
  In g gone \/ above x dt_elem.
Proof.
  unfold make_wrapper. cbn [snd]. intros Hin Habove.
  destruct (Soup.find_next_sibling "dd" gone soup dt_elem) as [dd |] eqn:E.
  - destruct Hin as [<- | [<- | Hin]]; [| right; exact Habove | left; exact Hin].
    apply find_next_sibling_parent in E.
    destruct E as (parent & i & j & -> & ->).
    right. eapply above_sibling. exact Habove.
  - destruct Hin as [<- | Hin]; [right; exact Habove | left; exact Hin].
Qed.

Lemma wrappers_from_titles soup dt_elements : forall gone,
  ForallOrdPairs in_order dt_elements ->
  Forall (fun d => Soup.is_tag_at "dt" soup d = true) dt_elements ->
  (forall g x, In g gone -> In x dt_elements -> ~ above x g) ->
  map title_text (wrappers_from soup dt_elements gone)
  = map (title_at soup) dt_elements.
Proof.
  induction dt_elements as [| d rest IH]; intros gone Hord Htag Hg;
    [reflexivity |].
  inversion Hord as [| ? ? Hd Hrest]; subst.
  inversion Htag as [| ? ? Htd Htrest]; subst.
  cbn [wrappers_from map].
  pose proof (title_text_wrapper soup gone d Htd
                (fun g Hin => Hg g d Hin (or_introl eq_refl))) as Ht.
  pose proof (make_wrapper_gone soup gone d) as Hgone.
  destruct (make_wrapper soup gone d) as [wrapper gone']. cbn [fst snd] in *.
  cbn [map]. rewrite Ht. f_equal.
  apply IH; [exact Hrest | exact Htrest |].
  intros g x Hin Hx Habove.
  destruct (Hgone g x Hin Habove) as [Hold | Hd'].
  - exact (Hg g x Hold (or_intror Hx) Habove).
  - rewrite Forall_forall in Hd. exact (Hd x Hx Hd').
Qed.

(** The title texts of the pairs of a page are those of its title nodes as
    parsed, in document order: no title node is changed by the moves of the
    nodes before it. *)
Lemma title_detail_pairs_titles soup :
  map title_text (title_detail_pairs soup)
  = map title_of (Soup.find_all "dt" soup).
Proof.
  unfold title_detail_pairs. rewrite wrappers_from_titles.
  - pose proof (find_all_paths_nodes "dt" soup) as H.
    unfold title_at.
    rewrite <- (map_map (fun p => Soup.node_at p soup)
                  (fun o => match o with
                            | Some title_elem => title_of title_elem
                            | None => EmptyString
                            end)).
    rewrite H, map_map. reflexivity.
  - apply in_order_filter, descendant_paths_in_order.
  - apply Forall_forall. intros d Hd. apply filter_In in Hd. apply Hd.
  - intros g x [].
Qed.

Local Open Scope string_scope.
Local Open Scope nat_scope.

(* ================================================================= *)
(** ** Properties of the listing pass *)

Lemma records_of_cons w ws :
  records_of (w :: ws) = (opt_list (extract_paper_info w) ++ records_of ws)%list.
Proof. reflexivity. Qed.

Lemma records_of_length ws :
  List.length (records_of ws) = count_well_formed ws.
Proof.
  unfold count_well_formed.
  induction ws as [| w ws IH]; [reflexivity |].
  rewrite records_of_cons, length_app, IH. simpl.
  pose proof (extract_paper_info_spec w) as Hs.
  destruct (well_formed_pair w).
  - destruct Hs as (p & -> & _). reflexivity.
  - rewrite Hs. reflexivity.
Qed.

Lemma records_of_have_title ws : Forall has_title (records_of ws).
Proof.
  induction ws as [| w ws IH]; [constructor |].
  rewrite records_of_cons. apply Forall_app. split; [| exact IH].
  destruct (extract_paper_info w) as [p |] eqn:E; simpl; [| constructor].
  constructor; [| constructor]. eapply extract_paper_info_has_title. exact E.
Qed.

Lemma records_of_firstn_le m ws :
  List.length (records_of (firstn m ws)) <= List.length (records_of ws).
Proof.
  revert m. induction ws as [| w ws IH]; intros [| m]; simpl firstn;
    try (simpl; lia).
  rewrite !records_of_cons, !length_app. specialize (IH m). lia.
Qed.

Lemma records_of_firstn_step m ws :
  List.length (records_of (firstn (S m) ws))
  <= S (List.length (records_of (firstn m ws))).
Proof.
  revert m. induction ws as [| w ws IH]; intros m.
  - destruct m; simpl; lia.
  - destruct m as [| m].
    + simpl firstn. rewrite records_of_cons, length_app.
      destruct (extract_paper_info w); simpl; lia.
    + change (firstn (S (S m)) (w :: ws)) with (w :: firstn (S m) ws).
      change (firstn (S m) (w :: ws)) with (w :: firstn m ws).
      rewrite !records_of_cons, !length_app. specialize (IH m). lia.
Qed.

Opaque make_wrapper.

(** The loop, from any state: it processes a prefix of the title nodes, the
    records it adds are those of the pairs of that prefix, every node it
    processes found fewer than [max_papers] records, and it leaves a node
    unprocessed only when [max_papers] records are there. *)
Lemma listing_loop_spec max_papers soup dt_elements :
  forall st,
    let pairs := wrappers_from soup dt_elements (gone_of st) in
    let out := listing_loop max_papers soup dt_elements st in
    exists m,
      m <= List.length dt_elements
      /\ papers_of out = (papers_of st ++ records_of (firstn m pairs))%list
      /\ processed out = processed st + m
      /\ (forall j, j < m ->
            (Z.of_nat (List.length (papers_of st)
                       + List.length (records_of (firstn j pairs)))
             < max_papers)%Z)
      /\ (m < List.length dt_elements ->
          (Z.of_nat (List.length (papers_of out)) >= max_papers)%Z).
Proof.
  induction dt_elements as [| dt_elem rest IH]; intros st; simpl.
  - exists 0. simpl. rewrite app_nil_r.
    repeat split; try lia.
  - destruct (Z.of_nat (List.length (papers_of st)) >=? max_papers)%Z eqn:E.
    + exists 0. simpl. rewrite app_nil_r.
      repeat split; try lia.
    + destruct (make_wrapper soup (gone_of st) dt_elem) as [wrapper gone].
      set (st1 := mkListing _ _ _).
      specialize (IH st1).
      destruct IH as (m & Hm & Hp & Hpr & Hlt & Hge).
      exists (S m). simpl firstn. rewrite records_of_cons.
      repeat split.
      * lia.
      * rewrite Hp. unfold st1. simpl.
        destruct (extract_paper_info wrapper); simpl;
          rewrite <- ?app_assoc; reflexivity.
      * rewrite Hpr. unfold st1. simpl. lia.
      * intros [| j] Hj.
        -- simpl. lia.
        -- simpl firstn. rewrite records_of_cons, length_app.
           specialize (Hlt j ltac:(lia)). unfold st1 in Hlt. simpl in Hlt.
           destruct (extract_paper_info wrapper); simpl in *;
             rewrite ?length_app in Hlt; simpl in Hlt; lia.
      * intros Hlen. apply Hge. lia.
Qed.

Transparent make_wrapper.

Lemma wrappers_from_length soup dt_elements :
  forall gone,
    List.length (wrappers_from soup dt_elements gone) = List.length dt_elements.
Proof.
  induction dt_elements as [| d l IH]; intros g; [reflexivity |].
  simpl. destruct (make_wrapper soup g d). simpl. rewrite IH. reflexivity.
Qed.

Lemma records_of_titles ws :
  map title (records_of ws)
  = map (fun w => Some (title_text w)) (filter well_formed_pair ws).
Proof.
  induction ws as [| w ws IH]; [reflexivity |].
  rewrite records_of_cons, map_app, IH. cbn [filter].
  pose proof (extract_paper_info_spec w) as Hs.
  destruct (well_formed_pair w).
  - destruct Hs as (p & -> & Ht). simpl. rewrite Ht. reflexivity.
  - rewrite Hs. reflexivity.
Qed.

(** C1, as the code has it.  For every listing page and every cap, the
    listing pass of [scrape_papers] emits min(K, max_papers) records, and
    none for a cap below zero, K being the number of title/detail pairs of
    the page that yield a record; every record has a title that is not
    empty; the records are those of the pairs of the title nodes processed;
    a title node is processed only while fewer than [max_papers] records
    are there, so the pass stops at once when the cap is reached, whatever
    title nodes remain.  The pairs are those of the title nodes of the page
    in document order, each with the detail node that follows it among the
    nodes not yet taken; the title text of a pair is that of its node as
    parsed, the text of its link when it has a link and its own text
    otherwise; a pair yields a record when that text is not empty and
    [urljoin] takes the addresses of its links; and the records bear the
    title texts of such pairs among those processed. *)
Theorem listing_pass_emits_min :
  forall (soup : Soup.node) (max_papers : Z),
    let out := listing_pass max_papers soup in
    let pairs := title_detail_pairs soup in
    Z.of_nat (List.length (papers_of out))
    = Z.max 0 (Z.min (Z.of_nat (count_well_formed pairs)) max_papers)
    /\ Forall has_title (papers_of out)
    /\ papers_of out = records_of (firstn (processed out) pairs)
    /\ processed out <= List.length pairs
    /\ (forall j, j < processed out ->
          (Z.of_nat (count_well_formed (firstn j pairs)) < max_papers)%Z)
    /\ (processed out < List.length pairs ->
        (max_papers <= Z.of_nat (List.length (papers_of out)))%Z)
    /\ map title_text pairs = map title_of (Soup.find_all "dt" soup)
    /\ map title (papers_of out)
       = map (fun w => Some (title_text w))
           (filter well_formed_pair (firstn (processed out) pairs))
    /\ (forall w, In w pairs ->
          (exists paper_info, extract_paper_info w = Some paper_info)
          <-> well_formed_pair w = true).
Proof.
  intros soup max_papers out pairs.
  pose proof (listing_loop_spec max_papers soup (Soup.find_all_paths "dt" soup)
                (mkListing [] 0 [])) as H.
  simpl in H. fold (title_detail_pairs soup) in H. fold pairs in H.
  fold (listing_pass max_papers soup) in H. fold out in H.
  destruct H as (m & Hm & Hp & Hpr & Hlt & Hge).
  assert (Hlen : List.length pairs
                 = List.length (Soup.find_all_paths "dt" soup))
    by apply wrappers_from_length.
  subst m.
  assert (Hbound : (Z.of_nat (List.length (papers_of out))
                    <= Z.max 0 max_papers)%Z).
  { rewrite Hp. destruct (processed out) as [| k]; [simpl; lia |].
    specialize (Hlt k ltac:(lia)).
    pose proof (records_of_firstn_step k pairs). lia. }
  assert (Hfull : processed out < List.length pairs ->
                  (max_papers <= Z.of_nat (List.length (papers_of out)))%Z).
  { intros Hl. specialize (Hge ltac:(lia)). lia. }
  assert (Hle : List.length (papers_of out) <= count_well_formed pairs).
  { rewrite Hp, <- records_of_length. apply records_of_firstn_le. }
  split; [| split; [| split; [| split; [| split; [| split; [| split;
    [| split]]]]]]].
  - destruct (Nat.eq_dec (processed out) (List.length pairs)) as [Heq | Hne].
    + rewrite Hp in Hbound |- *. rewrite Heq, firstn_all in Hbound |- *.
      rewrite records_of_length in Hbound |- *. lia.
    + specialize (Hfull ltac:(lia)). lia.
  - rewrite Hp. apply records_of_have_title.
  - exact Hp.
  - lia.
  - intros j Hj. rewrite <- records_of_length. apply Hlt. exact Hj.
  - exact Hfull.
  - apply title_detail_pairs_titles.
  - rewrite Hp. apply records_of_titles.
  - intros w _. pose proof (extract_paper_info_spec w) as Hw.
    destruct (well_formed_pair w).
    + destruct Hw as (q & Hq & _).
      split; [reflexivity | intros _; exists q; exact Hq].
    + rewrite Hw. split; [intros [q Hq]; discriminate | discriminate].
Qed.

(* ================================================================= *)
(** ** The outcome of [scrape_papers] when nothing is extracted *)

(** C2, as the code has it.  When the listing pass yields no record,
    [scrape_papers] returns the empty list and [main] reports that no papers
    were extracted; when the fetch of the listing page fails, the return
    value and the report are the same. *)
Theorem scrape_papers_no_data :
  forall base_url no_abstracts max_papers w,
    (fst (fetch_page base_url w) = None
     \/ exists soup, fst (fetch_page base_url w) = Some soup
                     /\ papers_of (listing_pass max_papers soup) = []) ->
    scrape_papers base_url (negb no_abstracts) max_papers w
    = (Returned [], snd (fetch_page base_url w))
    /\ main base_url no_abstracts max_papers w
       = (Returned NoPapersExtracted, snd (fetch_page base_url w)).
Proof.
  intros base_url no_abstracts max_papers w H.
  assert (E : scrape_papers base_url (negb no_abstracts) max_papers w
              = (Returned [], snd (fetch_page base_url w))).
  { unfold scrape_papers.
    destruct (fetch_page base_url w) as [[soup |] w1]; simpl in *.
    - destruct H as [H | (soup' & Hs & Hp)]; [discriminate |].
      injection Hs as <-. rewrite Hp. reflexivity.
    - reflexivity. }
  split; [exact E |].
  unfold main. rewrite E. reflexivity.
Qed.

(* ================================================================= *)
(** ** Facts about the string operations *)

Lemma append_nil_r s : s ++ EmptyString = s.
Proof. induction s as [| c s IH]; simpl; [| rewrite IH]; reflexivity. Qed.

Lemma append_assoc s t u : (s ++ t) ++ u = s ++ (t ++ u).
Proof. induction s as [| c s IH]; simpl; [| rewrite IH]; reflexivity. Qed.

Lemma length_append s t :
  String.length (s ++ t) = String.length s + String.length t.
Proof. induction s as [| c s IH]; simpl; [| rewrite IH]; reflexivity. Qed.

Lemma startswith_append p s : PyStr.startswith p (p ++ s) = true.
Proof.
  unfold PyStr.startswith.
  induction p as [| c p IH]; simpl.
  - destruct s; reflexivity.
  - destruct (Ascii.ascii_dec c c); [exact IH | congruence].
Qed.

(** Whether [p] leads a text is decided by the first characters of the
    text, as many as [p] has. *)
Lemma startswith_long p : forall x y,
  String.length p <= String.length x ->
  PyStr.startswith p (x ++ y) = PyStr.startswith p x.
Proof.
  unfold PyStr.startswith.
  induction p as [| c p IH]; intros x y Hlen.
  - simpl. destruct x, y; reflexivity.
  - destruct x as [| d x]; simpl in *; [lia |].
    destruct (Ascii.ascii_dec c d); [| reflexivity].
    apply IH. lia.
Qed.

Lemma contains_cons p c s :
  PyStr.contains p (String c s) = false ->
  PyStr.startswith p (String c s) = false /\ PyStr.contains p s = false.
Proof.
  simpl. intros H. apply orb_false_iff in H. exact H.
Qed.

Lemma contains_startswith p s :
  PyStr.contains p s = false -> PyStr.startswith p s = false.
Proof.
  destruct s; simpl; intros H; apply orb_false_iff in H; apply H.
Qed.

Lemma drop_append x s : PyStr.drop (String.length x) (x ++ s) = s.
Proof. induction x as [| c x IH]; simpl; [destruct s |]; auto. Qed.

Lemma replace_from_skip old new x : forall s,
  PyStr.replace_from old new (String.length x) (x ++ s)
  = PyStr.replace_from old new 0 s.
Proof.
  induction x as [| c x IH]; intros s; simpl; [reflexivity | apply IH].
Qed.

Lemma replace_from_match old new s :
  old <> EmptyString ->
  PyStr.replace_from old new 0 (old ++ s)
  = new ++ PyStr.replace_from old new 0 s.
Proof.
  intros Hne. destruct old as [| c old]; [congruence |].
  change (String c old ++ s) with (String c (old ++ s)).
  cbn [PyStr.replace_from].
  change (String c (old ++ s)) with (String c old ++ s).
  rewrite startswith_append. simpl String.length.
  replace (S (String.length old) - 1) with (String.length old) by lia.
  rewrite replace_from_skip. reflexivity.
Qed.

Lemma replace_from_none old new s :
  PyStr.contains old s = false -> PyStr.replace_from old new 0 s = s.
Proof.
  induction s as [| c s IH]; intros H; [reflexivity |].
  apply contains_cons in H. destruct H as [H1 H2].
  cbn [PyStr.replace_from]. rewrite H1, IH by exact H2. reflexivity.
Qed.

(** No occurrence of [old] starts in [a] when [a], followed by all of [old]
    but its last character, holds none. *)
Lemma startswith_before old old' z a s :
  old = old' ++ z ->
  String.length old <= S (String.length old') ->
  a <> EmptyString ->
  PyStr.contains old (a ++ old') = false ->
  PyStr.startswith old (a ++ old ++ s) = false.
Proof.
  intros Ho Hlen Ha Hc.
  rewrite Ho at 2. rewrite append_assoc, <- (append_assoc a old').
  rewrite startswith_long.
  - apply contains_startswith. exact Hc.
  - rewrite length_append. destruct a; [congruence | simpl; lia].
Qed.

Lemma replace_from_before old old' z new a s :
  old = old' ++ z ->
  String.length old <= S (String.length old') ->
  PyStr.contains old (a ++ old') = false ->
  PyStr.replace_from old new 0 (a ++ old ++ s)
  = a ++ PyStr.replace_from old new 0 (old ++ s).
Proof.
  intros Ho Hlen.
  induction a as [| c a IH]; intros Hc; [reflexivity |].
  pose proof (startswith_before old old' z (String c a) s Ho Hlen
                ltac:(discriminate) Hc) as Hs.
  change (String c a ++ old ++ s) with (String c (a ++ old ++ s)) in *.
  cbn [PyStr.replace_from]. rewrite Hs.
  change (String c a ++ old') with (String c (a ++ old')) in Hc.
  apply contains_cons in Hc. rewrite IH by apply Hc. reflexivity.
Qed.

(** [replace] on a text that holds [old] once. *)
Lemma replace_single old old' z new a s :
  old = old' ++ z ->
  String.length old <= S (String.length old') ->
  old <> EmptyString ->
  PyStr.contains old (a ++ old') = false ->
  PyStr.contains old s = false ->
  PyStr.replace old new (a ++ old ++ s) = a ++ new ++ s.
Proof.
  intros Ho Hlen Hne Ha Hs. unfold PyStr.replace.
  destruct old as [| c old0] eqn:E; [congruence |]. rewrite <- E in *.
  rewrite (replace_from_before old old' z new a s Ho Hlen Ha).
  rewrite replace_from_match by exact Hne.
  rewrite replace_from_none by exact Hs. reflexivity.
Qed.

Lemma spec_replace_segment_eq old new s :
  spec_replace_segment old new s
  = if PyStr.startswith old s then new ++ PyStr.drop (String.length old) s
    else match s with
         | EmptyString => EmptyString
         | String c s' => String c (spec_replace_segment old new s')
         end.
Proof. destruct s; reflexivity. Qed.

Lemma spec_replace_segment_single old old' z new a s :
  old = old' ++ z ->
  String.length old <= S (String.length old') ->
  PyStr.contains old (a ++ old') = false ->
  spec_replace_segment old new (a ++ old ++ s) = a ++ new ++ s.
Proof.
  intros Ho Hlen.
  induction a as [| c a IH]; intros Hc.
  - simpl append. rewrite spec_replace_segment_eq.
    rewrite startswith_append, drop_append. reflexivity.
  - pose proof (startswith_before old old' z (String c a) s Ho Hlen
                  ltac:(discriminate) Hc) as Hs.
    change (String c a ++ old ++ s) with (String c (a ++ old ++ s)) in *.
    cbn [spec_replace_segment]. rewrite Hs.
    change (String c a ++ old') with (String c (a ++ old')) in Hc.
    apply contains_cons in Hc. rewrite IH by apply Hc. reflexivity.
Qed.

Lemma endswith_append suffix x : PyStr.endswith suffix (x ++ suffix) = true.
Proof.
  induction x as [| c x IH].
  - simpl append. destruct suffix; simpl; rewrite ?String.eqb_refl, ?Ascii.eqb_refl;
      reflexivity.
  - change (String c x ++ suffix) with (String c (x ++ suffix)).
    cbn [PyStr.endswith]. rewrite IH. apply orb_true_r.
Qed.

Lemma substring_append x s :
  String.substring 0 (String.length x) (x ++ s) = x.
Proof.
  induction x as [| c x IH]; simpl.
  - destruct s; reflexivity.
  - rewrite IH. reflexivity.
Qed.

Lemma spec_replace_suffix_append suffix new x :
  spec_replace_suffix suffix new (x ++ suffix) = x ++ new.
Proof.
  unfold spec_replace_suffix.
  rewrite endswith_append, length_append, Nat.add_sub, substring_append.
  reflexivity.
Qed.

(* ================================================================= *)
(** ** The detail-page address *)

(** C4, as the code has it.  For a record with no stashed detail-page address
    and a [pdf_url] that is set and not empty, the address is [pdf_url] with
    every occurrence of [/papers/] replaced by [/] and then every occurrence
    of [.pdf] replaced by [.html].  Where [pdf_url] holds [/papers/] once and
    [.pdf] only as its suffix, that is the transform of the spec: the one
    segment and the suffix. *)
Theorem detail_url_from_pdf_url :
  forall paper u,
    truthy_get (_paper_url paper) = false ->
    pdf_url paper = Some u ->
    PyStr.truthy u = true ->
    detail_url paper
    = Some (PyStr.replace ".pdf" ".html" (PyStr.replace "/papers/" "/" u))
    /\ (forall a b,
          u = a ++ "/papers/" ++ b ++ ".pdf" ->
          PyStr.contains "/papers/" (a ++ "/papers") = false ->
          PyStr.contains "/papers/" (b ++ ".pdf") = false ->
          PyStr.contains ".pdf" ((a ++ "/" ++ b) ++ ".pd") = false ->
          detail_url paper = Some (a ++ "/" ++ b ++ ".html")
          /\ spec_detail_url u = a ++ "/" ++ b ++ ".html").
Proof.
  intros paper u Hno Hpdf Hu.
  assert (E : detail_url paper
              = Some (PyStr.replace ".pdf" ".html"
                        (PyStr.replace "/papers/" "/" u))).
  { unfold detail_url. rewrite Hno, Hpdf. simpl. rewrite Hu. reflexivity. }
  split; [exact E |].
  intros a b -> Ha Hb Hx.
  assert (E1 : PyStr.replace "/papers/" "/" (a ++ "/papers/" ++ b ++ ".pdf")
               = a ++ "/" ++ b ++ ".pdf").
  { apply (replace_single "/papers/" "/papers" "/");
      [reflexivity | simpl; lia | discriminate | exact Ha | exact Hb]. }
  assert (E2 : spec_replace_segment "/papers/" "/" (a ++ "/papers/" ++ b ++ ".pdf")
               = a ++ "/" ++ b ++ ".pdf").
  { apply (spec_replace_segment_single "/papers/" "/papers" "/");
      [reflexivity | simpl; lia | exact Ha]. }
  assert (E3 : a ++ "/" ++ b ++ ".pdf" = (a ++ "/" ++ b) ++ ".pdf" ++ "").
  { rewrite !append_assoc. reflexivity. }
  assert (E4 : (a ++ "/" ++ b) ++ ".html" = a ++ "/" ++ b ++ ".html").
  { rewrite !append_assoc. reflexivity. }
  split.
  - rewrite E, E1, E3.
    rewrite (replace_single ".pdf" ".pd" "f" ".html" (a ++ "/" ++ b) "");
      [| reflexivity | simpl; lia | discriminate | exact Hx | reflexivity].
    rewrite <- E4. reflexivity.
  - unfold spec_detail_url. rewrite E2.
    replace (a ++ "/" ++ b ++ ".pdf") with ((a ++ "/" ++ b) ++ ".pdf")
      by (rewrite !append_assoc; reflexivity).
    rewrite spec_replace_suffix_append. exact E4.
Qed.

(* ================================================================= *)
(** ** The csv reader reads back what the csv writer wrote *)

Lemma run_app s : forall t rl,
  Csv.run rl (s ++ t)
  = match Csv.run rl s with
    | Some rl' => Csv.run rl' t
    | None => None
    end.
Proof.
  induction s as [| c s IH]; intros t rl; simpl; [reflexivity |].
  destruct (Csv.feed c rl); [apply IH | reflexivity].
Qed.

Lemma special_false c :
  Csv.special c = false ->
  Ascii.eqb c Csv.delimiter = false /\ Ascii.eqb c Csv.quotechar = false
  /\ Ascii.eqb c Csv.CR = false /\ Ascii.eqb c Csv.LF = false.
Proof.
  unfold Csv.special. intros H.
  repeat (apply orb_false_iff in H; destruct H as [H ?]). auto.
Qed.

(** A character is added to a field that has not reached the limit. *)
Lemma parse_add_char_within c r :
  (Z.of_nat (String.length (Csv.field r)) < Csv.field_limit)%Z ->
  Csv.parse_add_char c r
  = Some (Csv.mkParser (Csv.state_of r)
            (Csv.field r ++ String c EmptyString) (Csv.fields r) (Csv.rows r)).
Proof.
  intros H. unfold Csv.parse_add_char.
  destruct (Z.geb_spec (Z.of_nat (String.length (Csv.field r)))
              Csv.field_limit); [lia | reflexivity].
Qed.

(** A character that needs no quoting, read inside an unquoted field. *)
Lemma feed_plain c acc fs rs l :
  Csv.special c = false -> l <> Csv.AfterCR ->
  (Z.of_nat (String.length acc) < Csv.field_limit)%Z ->
  Csv.feed c (Csv.mkParser Csv.IN_FIELD acc fs rs, l)
  = Some (Csv.mkParser Csv.IN_FIELD (acc ++ String c EmptyString) fs rs,
          Csv.InLine).
Proof.
  intros Hc Hl Hlen. apply special_false in Hc.
  destruct Hc as (Hd & Hq & Hr & Hn).
  assert (E : Csv.feed_in_line c (Csv.mkParser Csv.IN_FIELD acc fs rs)
              = Some (Csv.mkParser Csv.IN_FIELD (acc ++ String c EmptyString)
                        fs rs, Csv.InLine)).
  { unfold Csv.feed_in_line, Csv.parse_process_char, Csv.is_newline.
    cbn [Csv.state_of]. rewrite Hn, Hr, Hd.
    rewrite parse_add_char_within by exact Hlen. reflexivity. }
  destruct l; simpl; try exact E. congruence.
Qed.

(** The same character, read where a field starts. *)
Lemma feed_first_plain c st fs rs l :
  Csv.special c = false -> l <> Csv.AfterCR ->
  st = Csv.START_RECORD \/ st = Csv.START_FIELD ->
  (0 < Csv.field_limit)%Z ->
  Csv.feed c (Csv.mkParser st EmptyString fs rs, l)
  = Some (Csv.mkParser Csv.IN_FIELD (String c EmptyString) fs rs, Csv.InLine).
Proof.
  intros Hc Hl Hst Hlim. apply special_false in Hc.
  destruct Hc as (Hd & Hq & Hr & Hn).
  assert (E : Csv.feed_in_line c (Csv.mkParser st EmptyString fs rs)
              = Some (Csv.mkParser Csv.IN_FIELD (String c EmptyString) fs rs,
                      Csv.InLine)).
  { unfold Csv.feed_in_line, Csv.parse_process_char, Csv.start_field,
      Csv.is_newline.
    destruct Hst as [-> | ->]; cbn [Csv.state_of];
      rewrite Hn, Hr, Hq, Hd;
      rewrite parse_add_char_within by exact Hlim; reflexivity. }
  destruct l; simpl; try exact E. congruence.
Qed.

Lemma run_in_field f : forall acc fs rs,
  Csv.needs_quotes f = false ->
  within_limit (acc ++ f) ->
  Csv.run (Csv.mkParser Csv.IN_FIELD acc fs rs, Csv.InLine) f
  = Some (Csv.mkParser Csv.IN_FIELD (acc ++ f) fs rs, Csv.InLine).
Proof.
  unfold within_limit.
  induction f as [| c f IH]; intros acc fs rs H Hlen.
  - simpl. rewrite append_nil_r. reflexivity.
  - simpl in H. apply orb_false_iff in H. destruct H as [Hc Hf].
    rewrite length_append in Hlen. cbn [String.length] in Hlen.
    cbn [Csv.run]. rewrite feed_plain by (auto; try discriminate; lia).
    rewrite IH; [rewrite append_assoc; reflexivity | exact Hf |].
    rewrite !length_append. cbn [String.length]. lia.
Qed.

(** The end of a line changes nothing inside a quoted field. *)
Lemma end_of_line_quoted acc fs rs :
  Csv.end_of_line (Csv.mkParser Csv.IN_QUOTED_FIELD acc fs rs)
  = Csv.mkParser Csv.IN_QUOTED_FIELD acc fs rs.
Proof. reflexivity. Qed.

Lemma feed_quoted_char c acc fs rs l :
  Ascii.eqb c Csv.quotechar = false ->
  (Z.of_nat (String.length acc) < Csv.field_limit)%Z ->
  exists l',
    Csv.feed c (Csv.mkParser Csv.IN_QUOTED_FIELD acc fs rs, l)
    = Some (Csv.mkParser Csv.IN_QUOTED_FIELD (acc ++ String c EmptyString)
              fs rs, l').
Proof.
  intros Hq Hlen.
  assert (E : exists l',
             Csv.feed_in_line c (Csv.mkParser Csv.IN_QUOTED_FIELD acc fs rs)
             = Some (Csv.mkParser Csv.IN_QUOTED_FIELD
                       (acc ++ String c EmptyString) fs rs, l')).
  { unfold Csv.feed_in_line, Csv.parse_process_char. cbn [Csv.state_of].
    rewrite Hq. rewrite parse_add_char_within by exact Hlen.
    cbn [Csv.state_of Csv.field Csv.fields Csv.rows].
    destruct (Ascii.eqb c Csv.LF); [eexists; reflexivity |].
    destruct (Ascii.eqb c Csv.CR); eexists; reflexivity. }
  destruct l; simpl; try exact E.
  rewrite end_of_line_quoted. destruct (Ascii.eqb c Csv.LF); exact E.
Qed.

Lemma feed_quote_in_quoted acc fs rs l :
  Csv.feed Csv.quotechar (Csv.mkParser Csv.IN_QUOTED_FIELD acc fs rs, l)
  = Some (Csv.mkParser Csv.QUOTE_IN_QUOTED_FIELD acc fs rs, Csv.InLine).
Proof. destruct l; reflexivity. Qed.

Lemma feed_quote_after_quote acc fs rs :
  (Z.of_nat (String.length acc) < Csv.field_limit)%Z ->
  Csv.feed Csv.quotechar
    (Csv.mkParser Csv.QUOTE_IN_QUOTED_FIELD acc fs rs, Csv.InLine)
  = Some (Csv.mkParser Csv.IN_QUOTED_FIELD
            (acc ++ String Csv.quotechar EmptyString) fs rs, Csv.InLine).
Proof.
  intros Hlen. unfold Csv.feed, Csv.feed_in_line, Csv.parse_process_char.
  cbn [Csv.state_of].
  replace (Ascii.eqb Csv.quotechar Csv.quotechar) with true by reflexivity.
  rewrite parse_add_char_within by exact Hlen. reflexivity.
Qed.

(** Inside the quotes, the escaped text of a field is read back as the
    field. *)
Lemma run_escape f : forall acc fs rs l,
  within_limit (acc ++ f) ->
  exists l',
    Csv.run (Csv.mkParser Csv.IN_QUOTED_FIELD acc fs rs, l) (Csv.escape f)
    = Some (Csv.mkParser Csv.IN_QUOTED_FIELD (acc ++ f) fs rs, l').
Proof.
  unfold within_limit.
  induction f as [| c f IH]; intros acc fs rs l Hlen.
  - exists l. simpl. rewrite append_nil_r. reflexivity.
  - rewrite length_append in Hlen. cbn [String.length] in Hlen.
    assert (Hnext : (Z.of_nat
                       (String.length ((acc ++ String c EmptyString) ++ f))
                     <= Csv.field_limit)%Z).
    { rewrite !length_append. cbn [String.length]. lia. }
    cbn [Csv.escape]. destruct (Ascii.eqb c Csv.quotechar) eqn:Hq.
    + apply Ascii.eqb_eq in Hq. subst c.
      cbn [Csv.run]. rewrite feed_quote_in_quoted.
      rewrite feed_quote_after_quote by lia.
      destruct (IH (acc ++ String Csv.quotechar EmptyString) fs rs Csv.InLine
                  Hnext) as (l' & E).
      exists l'. rewrite E, append_assoc. reflexivity.
    + cbn [Csv.run].
      destruct (feed_quoted_char c acc fs rs l Hq ltac:(lia)) as (l1 & E1).
      rewrite E1.
      destruct (IH (acc ++ String c EmptyString) fs rs l1 Hnext) as (l' & E).
      exists l'. rewrite E, append_assoc. reflexivity.
Qed.

Lemma run_write_field f st fs rs l :
  st = Csv.START_RECORD \/ st = Csv.START_FIELD ->
  l <> Csv.AfterCR ->
  within_limit f ->
  exists r' l',
    Csv.run (Csv.mkParser st EmptyString fs rs, l) (Csv.write_field f)
    = Some (r', l')
    /\ Csv.field r' = f /\ Csv.fields r' = fs /\ Csv.rows r' = rs
    /\ l' <> Csv.AfterCR
    /\ (field_read r'
        \/ (f = EmptyString /\ st = Csv.START_RECORD
            /\ Csv.state_of r' = Csv.START_RECORD)).
Proof.
  intros Hst Hl Hlen. unfold Csv.write_field.
  destruct (Csv.needs_quotes f) eqn:Hq.
  - cbn [Csv.run].
    assert (E : Csv.feed Csv.quotechar (Csv.mkParser st EmptyString fs rs, l)
                = Some (Csv.mkParser Csv.IN_QUOTED_FIELD EmptyString fs rs,
                        Csv.InLine)).
    { destruct Hst as [-> | ->]; destruct l; try reflexivity; congruence. }
    rewrite E, run_app.
    destruct (run_escape f EmptyString fs rs Csv.InLine Hlen) as (l1 & E1).
    rewrite E1. cbn [Csv.run]. rewrite feed_quote_in_quoted.
    eexists; eexists. split; [reflexivity |]. simpl.
    repeat split; try discriminate. left. right. right. reflexivity.
  - destruct f as [| c f].
    + simpl. eexists; eexists. split; [reflexivity |]. simpl.
      repeat split; [exact Hl |].
      destruct Hst as [-> | ->];
        [right; repeat split | left; left; reflexivity].
    + simpl in Hq. apply orb_false_iff in Hq. destruct Hq as [Hc Hf].
      assert (Hlim : (0 < Csv.field_limit)%Z).
      { unfold within_limit in Hlen. cbn [String.length] in Hlen. lia. }
      cbn [Csv.run]. rewrite (feed_first_plain c st fs rs l Hc Hl Hst Hlim).
      rewrite run_in_field by (exact Hf || exact Hlen).
      eexists; eexists. split; [reflexivity |]. simpl.
      repeat split; try discriminate. left. right. left. reflexivity.
Qed.

Lemma feed_delimiter r l :
  field_read r \/ Csv.state_of r = Csv.START_RECORD ->
  l <> Csv.AfterCR ->
  Csv.feed Csv.delimiter (r, l)
  = Some (Csv.mkParser Csv.START_FIELD EmptyString
            (Csv.fields r ++ [Csv.field r])%list (Csv.rows r), Csv.InLine).
Proof.
  intros Hr Hl. destruct r as [st fd fs rs]. unfold field_read in Hr.
  simpl in Hr.
  destruct Hr as [[-> | [-> | ->]] | ->]; destruct l; try reflexivity;
    congruence.
Qed.

Lemma run_lineterminator r l :
  field_read r -> l <> Csv.AfterCR ->
  Csv.run (r, l) Csv.lineterminator
  = Some (Csv.mkParser Csv.START_RECORD EmptyString []
            (Csv.rows r ++ [(Csv.fields r ++ [Csv.field r])%list])%list,
          Csv.LineStart).
Proof.
  intros Hr Hl. destruct r as [st fd fs rs]. unfold field_read in Hr.
  simpl in Hr.
  destruct Hr as [-> | [-> | ->]]; destruct l; try reflexivity; congruence.
Qed.

(** The fields of a row, read from the start of a record or of a field. *)
Lemma run_join_fields rest : forall f st fs rs l,
  st = Csv.START_RECORD \/ st = Csv.START_FIELD ->
  l <> Csv.AfterCR ->
  Forall within_limit (f :: rest) ->
  exists r' l',
    Csv.run (Csv.mkParser st EmptyString fs rs, l) (Csv.join_fields (f :: rest))
    = Some (r', l')
    /\ (Csv.fields r' ++ [Csv.field r'])%list = (fs ++ f :: rest)%list
    /\ Csv.rows r' = rs
    /\ l' <> Csv.AfterCR
    /\ (field_read r'
        \/ (rest = [] /\ f = EmptyString /\ st = Csv.START_RECORD)).
Proof.
  induction rest as [| g rest IH]; intros f st fs rs l Hst Hl Hlen;
    inversion Hlen as [| ? ? Hf Hrest]; subst.
  - cbn [Csv.join_fields].
    destruct (run_write_field f st fs rs l Hst Hl Hf)
      as (r' & l' & E & Hf' & Hfs & Hrs & Hl' & Hs).
    exists r', l'. rewrite E, Hf', Hfs.
    repeat split; auto.
    destruct Hs as [Hs | (Hs1 & Hs2 & _)]; [left; exact Hs | right; auto].
  - change (Csv.join_fields (f :: g :: rest))
      with (Csv.write_field f
            ++ String Csv.delimiter (Csv.join_fields (g :: rest))).
    rewrite run_app.
    destruct (run_write_field f st fs rs l Hst Hl Hf)
      as (r1 & l1 & E & Hf' & Hfs & Hrs & Hl1 & Hs).
    rewrite E. cbn [Csv.run].
    rewrite feed_delimiter;
      [| destruct Hs as [Hs | (_ & _ & Hs)]; [left | right]; exact Hs
       | exact Hl1].
    rewrite Hf', Hfs, Hrs.
    destruct (IH g Csv.START_FIELD (fs ++ [f])%list rs Csv.InLine
                ltac:(right; reflexivity) ltac:(discriminate) Hrest)
      as (r' & l' & E' & Hfs' & Hrs' & Hl' & Hs').
    exists r', l'. rewrite E', Hfs', <- app_assoc.
    repeat split; auto.
    destruct Hs' as [Hs' | (_ & _ & Hs')]; [left; exact Hs' | discriminate].
Qed.

(** One row, read from the start of a record. *)
Lemma run_writerow row rs :
  Forall within_limit row ->
  Csv.run (Csv.mkParser Csv.START_RECORD EmptyString [] rs, Csv.LineStart)
    (Csv.writerow row)
  = Some (Csv.mkParser Csv.START_RECORD EmptyString [] (rs ++ [row])%list,
          Csv.LineStart).
Proof.
  intros Hlen.
  assert (Hgen : forall f rest,
             Forall within_limit (f :: rest) ->
             (rest = [] /\ f = EmptyString -> False) ->
             Csv.run (Csv.mkParser Csv.START_RECORD EmptyString [] rs,
                      Csv.LineStart)
               (Csv.join_fields (f :: rest) ++ Csv.lineterminator)
             = Some (Csv.mkParser Csv.START_RECORD EmptyString []
                       (rs ++ [f :: rest])%list, Csv.LineStart)).
  { intros f rest Hfits Hne. rewrite run_app.
    destruct (run_join_fields rest f Csv.START_RECORD [] rs Csv.LineStart
                ltac:(left; reflexivity) ltac:(discriminate) Hfits)
      as (r' & l' & E & Hfs & Hrs & Hl' & Hs).
    rewrite E.
    destruct Hs as [Hs | (Hs1 & Hs2 & _)]; [| exfalso; auto].
    rewrite run_lineterminator by assumption.
    rewrite Hfs, Hrs. reflexivity. }
  destruct row as [| f rest]; [reflexivity |].
  destruct rest as [| g rest].
  - destruct f as [| c f]; [reflexivity |].
    apply Hgen; [exact Hlen |]. intros [_ H]. discriminate.
  - destruct f; apply Hgen; try exact Hlen; intros [H _]; discriminate.
Qed.

Lemma run_writerows data : forall rs,
  Forall (Forall within_limit) data ->
  Csv.run (Csv.mkParser Csv.START_RECORD EmptyString [] rs, Csv.LineStart)
    (Csv.writerows data)
  = Some (Csv.mkParser Csv.START_RECORD EmptyString [] (rs ++ data)%list,
          Csv.LineStart).
Proof.
  unfold Csv.writerows.
  assert (Hconcat : forall l, String.concat EmptyString l
                              = fold_right append EmptyString l).
  { induction l as [| x l IH]; [reflexivity |].
    simpl. destruct l as [| y l].
    - simpl. rewrite append_nil_r. reflexivity.
    - rewrite IH. reflexivity. }
  rewrite Hconcat.
  induction data as [| row data IH]; intros rs Hlen; simpl.
  - rewrite app_nil_r. reflexivity.
  - inversion Hlen as [| ? ? Hrow Hdata]; subst.
    rewrite run_app, run_writerow by exact Hrow.
    rewrite IH by exact Hdata. rewrite <- app_assoc. reflexivity.
Qed.

(** Every list of rows whose cells the reader takes is read back as it was
    written. *)
Lemma reader_writerows data :
  Forall (Forall within_limit) data ->
  Csv.reader (Csv.writerows data) = Some data.
Proof.
  intros Hlen. unfold Csv.reader, Csv.start.
  rewrite run_writerows by exact Hlen. reflexivity.
Qed.

(* ================================================================= *)
(** ** The export *)

Lemma split_from_eq sep s :
  PyStr.split_from sep 0 s
  = match s with
    | EmptyString => [EmptyString]
    | String c s' =>
        if PyStr.startswith sep s
        then EmptyString
             :: PyStr.split_from sep (String.length sep - 1) s'
        else match PyStr.split_from sep 0 s' with
             | h :: t => String c h :: t
             | [] => [String c EmptyString]
             end
    end.
Proof. destruct s; reflexivity. Qed.

Lemma split_no_separator e :
  no_separator e -> PyStr.split "; " e = [e].
Proof.
  unfold PyStr.split, no_separator.
  induction e as [| c e IH]; intros H; [reflexivity |].
  apply contains_cons in H. destruct H as [H1 H2].
  rewrite split_from_eq, H1, IH by exact H2. reflexivity.
Qed.

(** The separator does not start inside a name that does not hold it. *)
Lemma startswith_separator e s :
  no_separator e -> e <> EmptyString ->
  PyStr.startswith "; " (e ++ "; " ++ s) = false.
Proof.
  unfold no_separator. intros H Hne.
  destruct e as [| c e]; [congruence |].
  destruct e as [| d e].
  - unfold PyStr.startswith. cbn [append String.prefix].
    destruct (Ascii.ascii_dec ";" c); [| reflexivity].
    destruct (Ascii.ascii_dec " " ";") as [E | _];
      [discriminate E | reflexivity].
  - change (String c (String d e) ++ "; " ++ s)
      with (String c (String d EmptyString) ++ (e ++ "; " ++ s)).
    rewrite startswith_long by (simpl; lia).
    apply contains_startswith in H.
    change (String c (String d e))
      with (String c (String d EmptyString) ++ e) in H.
    rewrite startswith_long in H by (simpl; lia). exact H.
Qed.

Lemma split_first e s :
  no_separator e ->
  PyStr.split "; " (e ++ "; " ++ s) = e :: PyStr.split "; " s.
Proof.
  unfold PyStr.split.
  induction e as [| c e IH]; intros H.
  { change (EmptyString ++ "; " ++ s) with ("; " ++ s).
    rewrite split_from_eq, startswith_append. reflexivity. }
  pose proof (startswith_separator (String c e) s H ltac:(discriminate)) as Hs.
  change (String c e ++ "; " ++ s) with (String c (e ++ "; " ++ s)) in *.
  rewrite split_from_eq, Hs, IH; [reflexivity |].
  apply contains_cons in H. apply H.
Qed.

(** Splitting gives back the names that were joined, when there is a name
    and no name holds the separator. *)
Lemma split_join l : forall e,
  Forall no_separator (e :: l) ->
  PyStr.split "; " (PyStr.join "; " (e :: l)) = e :: l.
Proof.
  unfold PyStr.join.
  induction l as [| g l IH]; intros e H.
  - simpl. apply split_no_separator. inversion H; assumption.
  - change (String.concat "; " (e :: g :: l))
      with (e ++ "; " ++ String.concat "; " (g :: l)).
    inversion H as [| ? ? He Hl]; subst.
    rewrite split_first by exact He. rewrite IH by exact Hl. reflexivity.
Qed.

Lemma cell_field_get_or_empty v :
  v <> Some EmptyString -> cell_field (get_or_empty v) = v.
Proof.
  destruct v as [[| c s] |]; simpl; intros H; try reflexivity. congruence.
Qed.

Lemma fieldnames_within_limit : Forall within_limit fieldnames.
Proof.
  repeat constructor; unfold within_limit, Csv.field_limit; simpl; lia.
Qed.

(** A field that has reached the limit takes no further character. *)
Lemma feed_plain_full c acc fs rs :
  Csv.special c = false ->
  (Csv.field_limit <= Z.of_nat (String.length acc))%Z ->
  Csv.feed c (Csv.mkParser Csv.IN_FIELD acc fs rs, Csv.InLine) = None.
Proof.
  intros Hc Hlen. apply special_false in Hc.
  destruct Hc as (Hd & Hq & Hr & Hn).
  unfold Csv.feed, Csv.feed_in_line, Csv.parse_process_char, Csv.is_newline,
    Csv.parse_add_char.
  cbn [Csv.state_of Csv.field]. rewrite Hn, Hr, Hd. cbn [orb].
  destruct (Z.geb_spec (Z.of_nat (String.length acc)) Csv.field_limit);
    [reflexivity | lia].
Qed.

Lemma run_in_field_over f : forall acc fs rs rest,
  Csv.needs_quotes f = false ->
  ~ within_limit (acc ++ f) ->
  within_limit acc ->
  Csv.run (Csv.mkParser Csv.IN_FIELD acc fs rs, Csv.InLine) (f ++ rest)
  = None.
Proof.
  unfold within_limit.
  induction f as [| c f IH]; intros acc fs rs rest H Hover Hacc.
  - rewrite append_nil_r in Hover. contradiction.
  - simpl in H. apply orb_false_iff in H. destruct H as [Hc Hf].
    cbn [append Csv.run].
    destruct (Z.eq_dec (Z.of_nat (String.length acc)) Csv.field_limit)
      as [Hfull | Hroom].
    + rewrite feed_plain_full by (auto; lia). reflexivity.
    + rewrite feed_plain by (auto; try discriminate; lia).
      apply IH; [exact Hf | |].
      * rewrite append_assoc. exact Hover.
      * rewrite length_append. cbn [String.length]. lia.
Qed.

Lemma concat_empty_cons x l :
  String.concat EmptyString (x :: l) = x ++ String.concat EmptyString l.
Proof.
  destruct l as [| y l]; simpl; [rewrite append_nil_r |]; reflexivity.
Qed.

(** The reader raises on the file [save_to_csv] writes when a title that
    needs no quotes is longer than the field limit. *)
Lemma reader_title_over_limit paper rest t :
  title paper = Some t ->
  Csv.needs_quotes t = false ->
  ~ within_limit t ->
  exists text,
    save_to_csv (paper :: rest) = Some text /\ Csv.reader text = None.
Proof.
  intros Ht Hq Hover. eexists. split; [reflexivity |].
  assert (Hlim : (0 < Csv.field_limit)%Z) by reflexivity.
  destruct t as [| c t].
  { exfalso. apply Hover. unfold within_limit. simpl. lia. }
  assert (Hrow : exists tail,
             Csv.writerow (csv_row paper) = String c (t ++ tail)).
  { unfold csv_row. rewrite Ht. cbn [get_or_empty].
    unfold Csv.writerow. cbn [Csv.join_fields].
    unfold Csv.write_field at 1. rewrite Hq.
    eexists. cbn [append]. rewrite append_assoc. reflexivity. }
  destruct Hrow as [tail Hrow].
  simpl in Hq. apply orb_false_iff in Hq. destruct Hq as [Hc Hplain].
  unfold Csv.reader, Csv.start, Csv.writerows. cbn [map].
  rewrite !concat_empty_cons, run_app.
  rewrite run_writerow by apply fieldnames_within_limit.
  rewrite Hrow. cbn [app append Csv.run].
  rewrite feed_first_plain
    by (auto; try discriminate; left; reflexivity).
  rewrite append_assoc.
  rewrite run_in_field_over; [reflexivity | exact Hplain | exact Hover |].
  unfold within_limit. simpl. lia.
Qed.

(** C7, as the code has it.  For every record list that is not empty and
    whose cells the csv reader takes (none is longer than its field limit),
    [save_to_csv] writes a file that the csv reader reads back as the header
    and one row per record, in order, and the row of a record gives back:
    its title; its authors, in order, by splitting the authors cell on the
    separator, when the record has an author and no name holds the
    separator, while a record without authors gives the one-name list of
    the empty cell; its [pdf_url] and its [supplementary_url], an absent key
    and an empty string both being an empty cell. *)
Theorem export_round_trip :
  forall papers,
    papers <> [] ->
    Forall (fun paper => Forall within_limit (csv_row paper)) papers ->
    exists text,
      save_to_csv papers = Some text
      /\ Csv.reader text = Some (fieldnames :: map csv_row papers)
      /\ spec_reparse text
         = Some (map (fun paper => spec_reparse_row (csv_row paper)) papers)
      /\ forall paper, In paper papers ->
           exists r,
             spec_reparse_row (csv_row paper) = Some r
             /\ r_title r = get_or_empty (title paper)
             /\ (forall e l, authors paper = Some (e :: l) ->
                   Forall no_separator (e :: l) -> r_authors r = e :: l)
             /\ (authors paper = None \/ authors paper = Some [] ->
                 r_authors r = [EmptyString])
             /\ (pdf_url paper <> Some EmptyString ->
                 r_pdf_url r = pdf_url paper)
             /\ (pdf_url paper = Some EmptyString -> r_pdf_url r = None)
             /\ (supplementary_url paper <> Some EmptyString ->
                 r_supplementary_url r = supplementary_url paper)
             /\ (supplementary_url paper = Some EmptyString ->
                 r_supplementary_url r = None).
Proof.
  intros papers Hne Hfits.
  exists (Csv.writerows (fieldnames :: map csv_row papers)).
  assert (Hread : Csv.reader (Csv.writerows (fieldnames :: map csv_row papers))
                  = Some (fieldnames :: map csv_row papers)).
  { apply reader_writerows. constructor; [apply fieldnames_within_limit |].
    apply Forall_map. exact Hfits. }
  split; [destruct papers; [congruence | reflexivity] |].
  split; [exact Hread |].
  split; [unfold spec_reparse; rewrite Hread, map_map; reflexivity |].
  intros paper _. eexists. split; [reflexivity |]. cbn [r_title r_authors
    r_pdf_url r_supplementary_url].
  repeat split.
  - intros e l Ha Hsep. rewrite Ha. apply split_join. exact Hsep.
  - intros [Ha | Ha]; rewrite Ha; reflexivity.
  - apply cell_field_get_or_empty.
  - intros ->. reflexivity.
  - apply cell_field_get_or_empty.
  - intros ->. reflexivity.
Qed.

(* ================================================================= *)
(** ** Authors read from the text of a detail node *)

(** C8, at a detail node whose text holds a label after the first name:
    [extract_paper_info] drops all that precedes the label, the first author
    with it, where stripping a leading label would leave the text whole. *)
Theorem authors_label_inside :
  Soup.find_all "a" dd_label_inside = []
  /\ authors_from_text dd_label_inside = Some ["K. Lee)"]
  /\ spec_authors_from_text dd_label_inside
     = ["J. Smith"; "K. Lee (Corresponding Author: K. Lee)"].
Proof. repeat split. Qed.

(* ================================================================= *)
(** ** Further properties of [extract_paper_info] *)

Lemma extract_title_record w p :
  extract_title w empty_paper = Some p ->
  authors p = None /\ abstract p = None /\ pdf_url p = None
  /\ supplementary_url p = None
  /\ _paper_url p = address_of (title_link w).
Proof.
  unfold extract_title, title_link, address_of.
  destruct (Soup.find "dt" w) as [title_elem |].
  - destruct (Soup.find "a" title_elem) as [tl |].
    + destruct (PyStr.truthy (Soup.get "href" "" tl)).
      * destruct (urljoin CVF (Soup.get "href" "" tl)); [| discriminate].
        intros H. injection H as <-. repeat split.
      * intros H. injection H as <-. repeat split.
    + destruct (PyStr.truthy (Soup.get_text title_elem));
        intros H; injection H as <-; repeat split.
  - intros H. injection H as <-. repeat split.
Qed.

Lemma extract_authors_record w p :
  title (extract_authors w p) = title p
  /\ abstract (extract_authors w p) = abstract p
  /\ pdf_url (extract_authors w p) = pdf_url p
  /\ supplementary_url (extract_authors w p) = supplementary_url p
  /\ _paper_url (extract_authors w p) = _paper_url p
  /\ (authors p = None ->
      authors (extract_authors w p) = authors (extract_authors w empty_paper)).
Proof.
  unfold extract_authors.
  destruct (Soup.find "dd" w) as [authors_elem |]; [| repeat split; auto].
  destruct (Soup.find_all "a" authors_elem); [| repeat split; auto].
  destruct (authors_from_text authors_elem); repeat split; auto.
Qed.

Lemma extract_pdf_record w p p' :
  extract_pdf w p = Some p' ->
  title p' = title p /\ authors p' = authors p /\ abstract p' = abstract p
  /\ supplementary_url p' = supplementary_url p
  /\ _paper_url p' = _paper_url p
  /\ (pdf_url p = None ->
      pdf_url p'
      = address_of (Soup.find_attr "a" "href" PyStr.search_pdf w)).
Proof.
  unfold extract_pdf, address_of.
  destruct (Soup.find_attr "a" "href" PyStr.search_pdf w) as [l |].
  - destruct (PyStr.truthy (Soup.get "href" "" l)).
    + destruct (urljoin CVF (Soup.get "href" "" l)); [| discriminate].
      intros H. injection H as <-. repeat split.
    + intros H. injection H as <-. repeat split; auto.
  - intros H. injection H as <-. repeat split; auto.
Qed.

Lemma extract_supplementary_record w p p' :
  extract_supplementary w p = Some p' ->
  title p' = title p /\ authors p' = authors p /\ abstract p' = abstract p
  /\ pdf_url p' = pdf_url p
  /\ _paper_url p' = _paper_url p
  /\ (supplementary_url p = None ->
      supplementary_url p'
      = address_of (Soup.find_attr "a" "href" PyStr.search_supplemental w)).
Proof.
  unfold extract_supplementary, address_of.
  destruct (Soup.find_attr "a" "href" PyStr.search_supplemental w) as [l |].
  - destruct (PyStr.truthy (Soup.get "href" "" l)).
    + destruct (urljoin CVF (Soup.get "href" "" l)); [| discriminate].
      intros H. injection H as <-. repeat split.
    + intros H. injection H as <-. repeat split; auto.
  - intros H. injection H as <-. repeat split; auto.
Qed.

Lemma paper_record_eq p q :
  title p = title q -> authors p = authors q -> abstract p = abstract q ->
  pdf_url p = pdf_url q -> supplementary_url p = supplementary_url q ->
  _paper_url p = _paper_url q -> p = q.
Proof.
  destruct p, q. simpl. intros. subst. reflexivity.
Qed.

(** The record of a wrapper, field by field. *)
Lemma extract_paper_info_record w p :
  extract_paper_info w = Some p ->
  p = mkPaper (Some (title_text w))
        (authors (extract_authors w empty_paper))
        None
        (address_of (Soup.find_attr "a" "href" PyStr.search_pdf w))
        (address_of (Soup.find_attr "a" "href" PyStr.search_supplemental w))
        (address_of (title_link w)).
Proof.
  intros H.
  assert (Ht : title p = Some (title_text w)).
  { pose proof (extract_paper_info_spec w) as Hs.
    destruct (well_formed_pair w).
    - destruct Hs as (q & Hq & Hti). congruence.
    - congruence. }
  unfold extract_paper_info, extract_paper_info_body in H.
  destruct (extract_title w empty_paper) as [p1 |] eqn:E1; [| discriminate].
  destruct (extract_pdf w (extract_authors w p1)) as [p2 |] eqn:E2;
    [| discriminate].
  destruct (extract_supplementary w p2) as [p3 |] eqn:E3; [| discriminate].
  destruct (truthy_get (title p3)); [| discriminate].
  injection H as ->.
  apply extract_title_record in E1.
  destruct E1 as (Ha1 & Hb1 & Hp1 & Hs1 & Hu1).
  pose proof (extract_authors_record w p1) as (_ & Hb & Hp & Hs & Hu & Ha).
  apply extract_pdf_record in E2.
  destruct E2 as (_ & Ha2 & Hb2 & Hs2 & Hu2 & Hp2).
  apply extract_supplementary_record in E3.
  destruct E3 as (_ & Ha3 & Hb3 & Hp3 & Hu3 & Hs3).
  apply paper_record_eq; simpl.
  - exact Ht.
  - rewrite Ha3, Ha2. apply Ha, Ha1.
  - rewrite Hb3, Hb2, Hb. exact Hb1.
  - rewrite Hp3. apply Hp2. rewrite Hp. exact Hp1.
  - apply Hs3. rewrite Hs2, Hs. exact Hs1.
  - rewrite Hu3, Hu2, Hu. exact Hu1.
Qed.

Lemma find_app_first {A} (f : A -> bool) l1 l2 :
  List.find f (l1 ++ l2)%list
  = match List.find f l1 with
    | Some x => Some x
    | None => List.find f l2
    end.
Proof.
  induction l1 as [| x l1 IH]; simpl; [reflexivity |].
  destruct (f x); [reflexivity | exact IH].
Qed.

Lemma find_none_stronger {A} (f g : A -> bool) l :
  (forall x, g x = true -> f x = true) ->
  List.find f l = None -> List.find g l = None.
Proof.
  intros Hfg. induction l as [| x l IH]; simpl; [reflexivity |].
  destruct (f x) eqn:Ef; [discriminate |].
  destruct (g x) eqn:Eg; [apply Hfg in Eg; congruence | exact IH].
Qed.

(** A tag that holds no [name] tag holds none with a given attribute. *)
Lemma find_attr_none name key pat n :
  Soup.find name n = None -> Soup.find_attr name key pat n = None.
Proof.
  unfold Soup.find, Soup.find_attr. apply find_none_stronger.
  intros x H. apply andb_true_iff in H. apply H.
Qed.

Lemma descendants_wrapper contents :
  Soup.descendants (Soup.Tag "div" [] contents)
  = flat_map (fun c => c :: Soup.descendants c) contents.
Proof. reflexivity. Qed.

(** What [find] sees in the wrapper of a title node alone. *)
Lemma find_in_wrapper_of_one name dt :
  Soup.is_tag name dt = false ->
  Soup.find name (Soup.Tag "div" [] [dt]) = Soup.find name dt.
Proof.
  intros H. unfold Soup.find. rewrite descendants_wrapper. simpl.
  rewrite H, app_nil_r. reflexivity.
Qed.

(** X1. A title node that holds no link and no detail node, and is followed
    by none, yields exactly one record when its text is not empty: the
    record has that text as [title] and no other key. *)
Theorem extract_bare_title_node :
  forall attrs contents,
    let dt := Soup.Tag "dt" attrs contents in
    Soup.find "a" dt = None ->
    Soup.find "dd" dt = None ->
    Soup.get_text dt <> EmptyString ->
    extract_paper_info (Soup.Tag "div" [] [dt])
    = Some (mkPaper (Some (Soup.get_text dt)) None None None None None).
Proof.
  intros attrs contents dt Ha Hdd Htext.
  set (w := Soup.Tag "div" [] [dt]).
  assert (Hfa : Soup.find "a" w = None).
  { unfold w. rewrite find_in_wrapper_of_one by reflexivity. exact Ha. }
  assert (Hfd : Soup.find "dd" w = None).
  { unfold w. rewrite find_in_wrapper_of_one by reflexivity. exact Hdd. }
  assert (Htt : title_text w = Soup.get_text dt).
  { unfold title_text, w, dt. rewrite find_dt_of_wrapper.
    unfold title_of. fold dt. rewrite Ha. reflexivity. }
  assert (Htl : title_link w = None).
  { unfold title_link, w, dt. rewrite find_dt_of_wrapper. fold dt. exact Ha. }
  pose proof (extract_paper_info_spec w) as Hs.
  assert (Hwf : well_formed_pair w = true).
  { unfold well_formed_pair, links_resolve. rewrite Htt, Htl.
    rewrite !(find_attr_none "a" "href") by exact Hfa.
    simpl. rewrite andb_true_r. apply truthy_nonempty. exact Htext. }
  rewrite Hwf in Hs. destruct Hs as (p & Hp & _).
  rewrite Hp. f_equal.
  apply extract_paper_info_record in Hp. rewrite Hp.
  rewrite Htt, Htl, !(find_attr_none "a" "href") by exact Hfa.
  unfold extract_authors. rewrite Hfd. reflexivity.
Qed.

(** The authors of a wrapper whose first detail node holds links. *)
Lemma authors_from_links w authors_elem :
  Soup.find "dd" w = Some authors_elem ->
  Soup.find_all "a" authors_elem <> [] ->
  authors (extract_authors w empty_paper)
  = Some (map Soup.get_text (Soup.find_all "a" authors_elem)).
Proof.
  intros Hdd Hlinks. unfold extract_authors. rewrite Hdd.
  destruct (Soup.find_all "a" authors_elem); [congruence | reflexivity].
Qed.

(** X2. When the title node holds no detail node of its own and the detail
    node that follows it holds links, the authors of the record are the
    texts of all those links, in document order, none dropped and none
    merged. *)
Theorem extract_authors_in_document_order :
  forall attrs contents dd_attrs dd_contents paper_info,
    let dt := Soup.Tag "dt" attrs contents in
    let dd := Soup.Tag "dd" dd_attrs dd_contents in
    Soup.find "dd" dt = None ->
    Soup.find_all "a" dd <> [] ->
    extract_paper_info (Soup.Tag "div" [] [dt; dd]) = Some paper_info ->
    authors paper_info = Some (map Soup.get_text (Soup.find_all "a" dd)).
Proof.
  intros attrs contents dd_attrs dd_contents paper_info dt dd Hdd Hlinks H.
  apply extract_paper_info_record in H. rewrite H. cbn [authors].
  apply authors_from_links; [| exact Hlinks].
  unfold Soup.find. rewrite descendants_wrapper.
  cbn [flat_map]. cbn [app List.find].
  change (Soup.is_tag "dd" dt) with false. cbv iota.
  rewrite find_app_first.
  unfold Soup.find in Hdd. rewrite Hdd. reflexivity.
Qed.

Lemma split_from_nonempty sep s : forall skip,
  PyStr.split_from sep skip s <> [].
Proof.
  induction s as [| c s IH]; intros skip; [simpl; discriminate |].
  destruct skip; [| apply IH].
  cbn [PyStr.split_from].
  destruct (PyStr.startswith sep (String c s)); [discriminate |].
  destruct (PyStr.split_from sep 0 s); discriminate.
Qed.

(** X3. Every record that [extract_paper_info] yields has a title that is
    not empty and no abstract, and its authors, when the key is there, are
    at least one: the key is never set to the empty list. *)
Theorem extract_paper_info_invariants :
  forall paper_element paper_info,
    extract_paper_info paper_element = Some paper_info ->
    has_title paper_info
    /\ abstract paper_info = None
    /\ authors paper_info <> Some [].
Proof.
  intros w p H. split; [eapply extract_paper_info_has_title; exact H |].
  apply extract_paper_info_record in H. rewrite H. cbn [abstract authors].
  split; [reflexivity |].
  unfold extract_authors.
  destruct (Soup.find "dd" w) as [authors_elem |]; [| discriminate].
  destruct (Soup.find_all "a" authors_elem) eqn:El.
  - unfold authors_from_text.
    destruct (PyStr.truthy _); [| discriminate].
    cbn [set_authors authors]. intros E. injection E as E.
    apply map_eq_nil in E. exact (split_from_nonempty _ _ _ E).
  - cbn [set_authors authors]. discriminate.
Qed.

(** X4. Every address of a record is what [urljoin] gave, against the base
    of the site, for the [href] of a link of the wrapper: the [pdf_url] for
    the first link whose [href] ends in [.pdf], the [supplementary_url] for
    the first link whose [href] holds the word, the [_paper_url] for the
    first link of the title node; and that [href] is not empty. *)
Theorem extract_addresses_from_urljoin :
  forall paper_element paper_info,
    extract_paper_info paper_element = Some paper_info ->
    (forall u, pdf_url paper_info = Some u ->
       exists pdf_link,
         Soup.find_attr "a" "href" PyStr.search_pdf paper_element
         = Some pdf_link
         /\ Soup.get "href" "" pdf_link <> EmptyString
         /\ urljoin CVF (Soup.get "href" "" pdf_link) = Some u)
    /\ (forall u, supplementary_url paper_info = Some u ->
          exists supp_link,
            Soup.find_attr "a" "href" PyStr.search_supplemental paper_element
            = Some supp_link
            /\ Soup.get "href" "" supp_link <> EmptyString
            /\ urljoin CVF (Soup.get "href" "" supp_link) = Some u)
    /\ (forall u, _paper_url paper_info = Some u ->
          exists title_elem title_link,
            Soup.find "dt" paper_element = Some title_elem
            /\ Soup.find "a" title_elem = Some title_link
            /\ Soup.get "href" "" title_link <> EmptyString
            /\ urljoin CVF (Soup.get "href" "" title_link) = Some u).
Proof.
  intros w p H. apply extract_paper_info_record in H. rewrite H.
  cbn [pdf_url supplementary_url _paper_url].
  assert (Haddr : forall link u,
             address_of link = Some u ->
             exists l, link = Some l
                       /\ Soup.get "href" "" l <> EmptyString
                       /\ urljoin CVF (Soup.get "href" "" l) = Some u).
  { intros [l |] u; simpl; [| discriminate].
    destruct (PyStr.truthy (Soup.get "href" "" l)) eqn:E; [| discriminate].
    intros Hu. exists l. repeat split; [| exact Hu].
    apply truthy_nonempty. exact E. }
  repeat split.
  - intros u Hu. apply Haddr in Hu. exact Hu.
  - intros u Hu. apply Haddr in Hu. exact Hu.
  - intros u Hu. apply Haddr in Hu. destruct Hu as (l & Hl & Hne & Hj).
    unfold title_link in Hl.
    destruct (Soup.find "dt" w) as [title_elem |]; [| discriminate].
    exists title_elem, l. repeat split; assumption.
Qed.

(* ================================================================= *)
(** ** Further properties of the enrichment pass *)

Lemma enrich_paper_completed paper w :
  snd (fst (enrich_paper paper w)) = Completed ->
  _paper_url (fst (fst (enrich_paper paper w))) = None.
Proof.
  unfold enrich_paper.
  destruct (detail_url paper) as [paper_url |]; [| reflexivity].
  destruct (PyStr.truthy paper_url); [| reflexivity].
  destruct (fetch_page paper_url w) as [[soup |] w1]; [| reflexivity].
  destruct (pdf_from_page soup (abstract_from_page soup paper)) as [q c].
  destruct c; [reflexivity | discriminate].
Qed.

Lemma enrich_loop_returned_completed (P : paper_record -> Prop) :
  (forall paper w, snd (fst (enrich_paper paper w)) = Completed ->
                   P (fst (fst (enrich_paper paper w)))) ->
  forall papers enriched_papers w out w',
    Forall P enriched_papers ->
    enrich_loop papers enriched_papers w = (Returned out, w') ->
    Forall P out.
Proof.
  intros HP papers.
  induction papers as [| paper rest IH]; intros acc w out w' Hacc H;
    simpl in H.
  - injection H as <- _. exact Hacc.
  - pose proof (HP paper w) as Hp.
    destruct (enrich_paper paper w) as [[q c] w1]. simpl in Hp.
    destruct c; [| discriminate].
    eapply IH; [| exact H].
    apply Forall_app. split; [exact Hacc |].
    constructor; [apply Hp; reflexivity | constructor].
Qed.

(** X7. No record of a list that [enrich_paper_details] hands back has the
    [_paper_url] key: the key is removed from every record, whether its
    fetch succeeded, failed or was not made. *)
Theorem enrich_removes_paper_url :
  forall papers w out w',
    enrich_paper_details papers w = (Returned out, w') ->
    Forall (fun enriched => _paper_url enriched = None) out.
Proof.
  intros papers w out w' H.
  eapply (enrich_loop_returned_completed
            (fun enriched => _paper_url enriched = None));
    [| constructor | exact H].
  intros paper w0. apply enrich_paper_completed.
Qed.

Lemma detail_url_no_address paper :
  no_address paper -> truthy_get (detail_url paper) = false.
Proof.
  intros [Hu Hp]. unfold detail_url. rewrite Hu, Hp. exact Hu.
Qed.

Lemma enrich_paper_no_address paper w :
  no_address paper ->
  enrich_paper paper w = (del_paper_url paper, Completed, w).
Proof.
  intros H. apply detail_url_no_address in H. unfold enrich_paper.
  destruct (detail_url paper) as [paper_url |]; [| reflexivity].
  simpl in H. rewrite H. reflexivity.
Qed.

(** X8. For records that have neither a detail-page address nor a
    [pdf_url], the pass fetches nothing: it leaves the world as it found it
    and hands the records back unchanged, but for the [_paper_url] key. *)
Theorem enrich_without_address_fetches_nothing :
  forall papers w,
    Forall no_address papers ->
    enrich_paper_details papers w = (Returned (map del_paper_url papers), w).
Proof.
  intros papers w H. unfold enrich_paper_details.
  change (map del_paper_url papers)
    with (([] : list paper_record) ++ map del_paper_url papers)%list.
  generalize (@nil paper_record).
  induction H as [| paper rest Hp _ IH]; intros acc; simpl.
  - rewrite app_nil_r. reflexivity.
  - rewrite (enrich_paper_no_address paper w Hp), IH, <- app_assoc.
    reflexivity.
Qed.

(** X9. When the detail page of a record is fetched and holds no abstract
    container, the [abstract] of the record stays as it was, set or not;
    and if the record has a [pdf_url], the turn changes nothing in it but
    the [_paper_url] key, and does not raise. *)
Theorem enrich_page_without_abstract :
  forall paper w paper_url soup w',
    detail_url paper = Some paper_url ->
    PyStr.truthy paper_url = true ->
    fetch_page paper_url w = (Some soup, w') ->
    find_abstract soup = None ->
    abstract (fst (fst (enrich_paper paper w))) = abstract paper
    /\ (truthy_get (pdf_url paper) = true ->
        enrich_paper paper w = (del_paper_url paper, Completed, w')).
Proof.
  intros paper w paper_url soup w' Hurl Ht Hf Ha.
  unfold enrich_paper. rewrite Hurl, Ht, Hf.
  assert (Hab : abstract_from_page soup paper = paper).
  { unfold abstract_from_page. rewrite Ha. reflexivity. }
  rewrite Hab. split.
  - pose proof (pdf_from_page_frame soup paper) as (_ & Hq & _).
    destruct (pdf_from_page soup paper) as [q c]. simpl in Hq.
    destruct c; simpl; exact Hq.
  - intros Hset. unfold pdf_from_page. rewrite Hset. reflexivity.
Qed.

(** X10. When a record has no [pdf_url], or an empty one, and its detail
    page is fetched: if the page holds a link whose [href] ends in [.pdf],
    the [pdf_url] of the record becomes what [urljoin] gives for the [href]
    of the first such link; if the page holds none, the [pdf_url] stays as
    it was.  In both cases the turn does not raise. *)
Theorem enrich_fills_pdf_url :
  forall paper w paper_url soup w',
    truthy_get (pdf_url paper) = false ->
    detail_url paper = Some paper_url ->
    PyStr.truthy paper_url = true ->
    fetch_page paper_url w = (Some soup, w') ->
    (forall pdf_link u,
        Soup.find_attr "a" "href" PyStr.search_pdf soup = Some pdf_link ->
        urljoin CVF (Soup.get "href" "" pdf_link) = Some u ->
        Soup.get "href" "" pdf_link <> EmptyString ->
        pdf_url (fst (fst (enrich_paper paper w))) = Some u
        /\ snd (fst (enrich_paper paper w)) = Completed)
    /\ (Soup.find_attr "a" "href" PyStr.search_pdf soup = None ->
        pdf_url (fst (fst (enrich_paper paper w))) = pdf_url paper
        /\ snd (fst (enrich_paper paper w)) = Completed).
Proof.
  intros paper w paper_url soup w' Hunset Hurl Ht Hf.
  assert (Hp : truthy_get (pdf_url (abstract_from_page soup paper)) = false).
  { destruct (abstract_from_page_frame soup paper) as (_ & -> & _).
    exact Hunset. }
  assert (Hsame : pdf_url (abstract_from_page soup paper) = pdf_url paper)
    by apply abstract_from_page_frame.
  split.
  - intros pdf_link u Hl Hu Hne. apply truthy_nonempty in Hne.
    unfold enrich_paper. rewrite Hurl, Ht, Hf.
    unfold pdf_from_page. rewrite Hp, Hl, Hne, Hu. simpl. split; reflexivity.
  - intros Hl. unfold enrich_paper. rewrite Hurl, Ht, Hf.
    unfold pdf_from_page. rewrite Hp, Hl. simpl. split; [exact Hsame |].
    reflexivity.
Qed.

(** X18. The list that [enrich_paper_details] hands back holds the records
    it was given, as many and in the same order, each with the [title], the
    [authors] and the [supplementary_url] it had: the pass drops no record,
    adds none, and touches none of these keys. *)
Theorem enrich_keeps_entries :
  forall papers w out w',
    enrich_paper_details papers w = (Returned out, w') ->
    Forall2
      (fun paper enriched =>
         title enriched = title paper
         /\ authors enriched = authors paper
         /\ supplementary_url enriched = supplementary_url paper)
      papers out.
Proof.
  intros papers w out w' H.
  apply enrich_returns_same_entries in H. exact (proj2 H).
Qed.

(* ================================================================= *)
(** ** Further properties of [scrape_papers], [save_to_csv] and [main] *)

(** The records of the listing pass are those of a prefix of the pairs, and
    no more than the cap. *)
Lemma listing_pass_records max_papers soup :
  (exists m, papers_of (listing_pass max_papers soup)
             = records_of (firstn m (title_detail_pairs soup)))
  /\ ((0 <= max_papers)%Z ->
      (Z.of_nat (List.length (papers_of (listing_pass max_papers soup)))
       <= max_papers)%Z).
Proof.
  pose proof (listing_loop_spec max_papers soup (Soup.find_all_paths "dt" soup)
                (mkListing [] 0 [])) as H.
  simpl in H. fold (title_detail_pairs soup) in H.
  fold (listing_pass max_papers soup) in H.
  destruct H as (m & Hm & Hp & Hpr & Hlt & Hge).
  split; [exists m; exact Hp |].
  intros Hcap. rewrite Hp. destruct m as [| k]; [simpl; lia |].
  specialize (Hlt k ltac:(lia)).
  pose proof (records_of_firstn_step k (title_detail_pairs soup)). lia.
Qed.

Lemma same_entry_has_title p q : same_entry p q -> has_title p -> has_title q.
Proof.
  intros (Ht & _) (t & Hp & Hne). exists t. split; [congruence | exact Hne].
Qed.

(** What [scrape_papers] returns: records with a title, and no more than a
    cap that is not negative. *)
Lemma scrape_papers_returned base_url fetch_abstracts max_papers w papers w' :
  scrape_papers base_url fetch_abstracts max_papers w
  = (Returned papers, w') ->
  Forall has_title papers
  /\ ((0 <= max_papers)%Z ->
      (Z.of_nat (List.length papers) <= max_papers)%Z).
Proof.
  intros H. unfold scrape_papers in H.
  destruct (fetch_page base_url w) as [[soup |] w1].
  - destruct (listing_pass_records max_papers soup) as ((m & Hm) & Hcap).
    assert (Hl : Forall has_title (papers_of (listing_pass max_papers soup))).
    { rewrite Hm. apply records_of_have_title. }
    destruct (nonempty (papers_of (listing_pass max_papers soup))
              && fetch_abstracts).
    + apply enrich_returns_same_entries in H. destruct H as [Hlen Hall].
      split; [| rewrite Hlen; exact Hcap].
      clear Hlen Hm Hcap. induction Hall as [| p q ps qs Hpq _ IH];
        [constructor |].
      inversion Hl; subst. constructor; [| apply IH; assumption].
      eapply same_entry_has_title; eassumption.
    + injection H as <- _. split; assumption.
  - injection H as <- _. split; [constructor | simpl; lia].
Qed.

(** X6. Every list that [scrape_papers] returns holds only records with a
    title that is not empty, and, for a cap that is not negative, no more
    records than the cap, whether the abstracts are fetched or not. *)
Theorem scrape_papers_returns_titled_within_cap :
  forall base_url fetch_abstracts max_papers w papers w',
    scrape_papers base_url fetch_abstracts max_papers w
    = (Returned papers, w') ->
    Forall has_title papers
    /\ ((0 <= max_papers)%Z ->
        (Z.of_nat (List.length papers) <= max_papers)%Z).
Proof.
  intros base_url fetch_abstracts max_papers w papers w'.
  apply scrape_papers_returned.
Qed.

Lemma csv_row_del_paper_url paper :
  csv_row (del_paper_url paper) = csv_row paper.
Proof. reflexivity. Qed.

(** X11. The file that [save_to_csv] writes does not depend on the
    [_paper_url] key of the records: with the key or without it the text is
    the same, so the file is the same whether the records come from the
    listing pass alone or from an enrichment whose fetches all fail.  No
    file is written exactly when there is no record. *)
Theorem save_to_csv_ignores_paper_url :
  forall papers,
    save_to_csv (map del_paper_url papers) = save_to_csv papers
    /\ (save_to_csv papers = None <-> papers = [])
    /\ ((forall url w, fst (fetch_page url w) = None) ->
        forall w enriched w',
          enrich_paper_details papers w = (Returned enriched, w') ->
          save_to_csv enriched = save_to_csv papers).
Proof.
  intros papers.
  assert (E : save_to_csv (map del_paper_url papers) = save_to_csv papers).
  { destruct papers as [| p l]; [reflexivity |].
    cbn [save_to_csv map]. rewrite map_map, csv_row_del_paper_url.
    do 4 f_equal. }
  split; [exact E |]. split.
  - destruct papers; simpl; split; intros H; congruence.
  - intros Hfail w enriched w' H.
    pose proof (enrich_loop_failed_fetch Hfail papers [] w) as Hf.
    unfold enrich_paper_details in H. rewrite H in Hf. simpl in Hf.
    injection Hf as ->. exact E.
Qed.

(** X14. When [main] reports the files as created, [scrape_papers] returned
    at least one record, the count reported is the number of records, which
    a cap that is not negative bounds, and the csv file was written; when it
    reports that no papers were extracted, [scrape_papers] returned the
    empty list and no file was written. *)
Theorem main_reports :
  forall url no_abstracts max_papers w r w',
    main url no_abstracts max_papers w = (Returned r, w') ->
    exists papers,
      scrape_papers url (negb no_abstracts) max_papers w
      = (Returned papers, w')
      /\ match r with
         | FilesCreated n csv =>
             n = List.length papers /\ 1 <= n
             /\ ((0 <= max_papers)%Z -> (Z.of_nat n <= max_papers)%Z)
             /\ exists text, csv = Some text /\ save_to_csv papers = Some text
         | NoPapersExtracted => papers = [] /\ save_to_csv papers = None
         end.
Proof.
  intros url no_abstracts max_papers w r w' H. unfold main in H.
  destruct (scrape_papers url (negb no_abstracts) max_papers w)
    as [[papers |] w1] eqn:E; [| discriminate].
  exists papers.
  destruct papers as [| p l]; simpl in H; injection H as <- <-.
  - split; [reflexivity |]. split; reflexivity.
  - split; [reflexivity |]. split; [reflexivity |]. split; [simpl; lia |].
    split; [| eexists; split; reflexivity].
    apply scrape_papers_returned in E. apply E.
Qed.

(* ================================================================= *)
(** ** The nodes that the listing pass moves *)

Lemma moved_true gone p : In p gone -> Soup.moved gone p = true.
Proof.
  intros H. unfold Soup.moved. apply existsb_exists. exists p.
  split; [exact H |]. unfold Soup.path_eqb.
  destruct (list_eq_dec Nat.eq_dec p p); [reflexivity | contradiction].
Qed.

Lemma moved_false_not_in gone p : Soup.moved gone p = false -> ~ In p gone.
Proof.
  intros H Hin. rewrite (moved_true gone p Hin) in H. discriminate.
Qed.

Lemma node_at_app p : forall q n,
  Soup.node_at (p ++ q)%list n
  = match Soup.node_at p n with
    | Some m => Soup.node_at q m
    | None => None
    end.
Proof.
  induction p as [| i p IH]; intros q n; [reflexivity |].
  cbn [app Soup.node_at]. destruct n as [s | name attrs cs]; [reflexivity |].
  destruct (nth_error cs i); [apply IH | reflexivity].
Qed.

(** What [first_sibling] finds is a [name] tag of the list, still in
    place. *)
Lemma first_sibling_found name gone parent l : forall i q,
  Soup.first_sibling name gone parent i l = Some q ->
  exists j c,
    q = (parent ++ [i + j])%list /\ nth_error l j = Some c
    /\ Soup.is_tag name c = true /\ Soup.moved gone q = false.
Proof.
  induction l as [| c l IH]; intros i q H; [discriminate |].
  cbn [Soup.first_sibling] in H.
  destruct (Soup.is_tag name c) eqn:Etag;
    [destruct (Soup.moved gone (parent ++ [i])%list) eqn:Emoved |];
    cbn [negb andb] in H.
  - destruct (IH (S i) q H) as (j & c' & Hq & Hc & Ht & Hm).
    exists (S j), c'. replace (i + S j) with (S i + j) by lia.
    repeat split; assumption.
  - injection H as <-. exists 0, c. rewrite Nat.add_0_r.
    repeat split; assumption.
  - destruct (IH (S i) q H) as (j & c' & Hq & Hc & Ht & Hm).
    exists (S j), c'. replace (i + S j) with (S i + j) by lia.
    repeat split; assumption.
Qed.

(** [find_next_sibling] finds a [name] tag of the page that was not moved
    away. *)
Lemma find_next_sibling_found name gone soup p q :
  Soup.find_next_sibling name gone soup p = Some q ->
  Soup.is_tag_at name soup q = true /\ Soup.moved gone q = false.
Proof.
  unfold Soup.find_next_sibling. intros H.
  destruct (rev p) as [| i rparent]; [discriminate |].
  destruct (Soup.node_at (rev rparent) soup) as [[s | nm attrs cs] |] eqn:En;
    try discriminate.
  apply first_sibling_found in H.
  destruct H as (j & c & -> & Hc & Htag & Hmoved).
  split; [| exact Hmoved].
  unfold Soup.is_tag_at. rewrite node_at_app, En.
  rewrite nth_error_skipn in Hc. cbn [Soup.node_at]. rewrite Hc.
  exact Htag.
Qed.

Lemma is_tag_one name name' n :
  Soup.is_tag name n = true -> Soup.is_tag name' n = true -> name = name'.
Proof.
  destruct n as [s | nm attrs cs]; [discriminate |]. simpl.
  intros H H'. apply String.eqb_eq in H, H'. congruence.
Qed.

Lemma nodup_map_cons (i : nat) (l : list Soup.path) :
  NoDup l -> NoDup (map (cons i) l).
Proof.
  induction 1 as [| p l Hp _ IH]; simpl; constructor; [| exact IH].
  intros Hin. apply in_map_iff in Hin. destruct Hin as (q & E & Hq).
  injection E as <-. contradiction.
Qed.

Lemma paths_from_nodup l :
  Forall (fun c => NoDup (Soup.descendant_paths c)) l ->
  forall i, NoDup (paths_from i l).
Proof.
  induction 1 as [| c l Hc _ IH]; intros i; [constructor |].
  cbn [paths_from]. apply NoDup_app.
  - constructor; [| apply nodup_map_cons; exact Hc].
    intros Hin. apply in_map_iff in Hin. destruct Hin as (q & E & Hq).
    injection E as ->.
    destruct c as [s | nm attrs cs]; [contradiction |].
    rewrite descendant_paths_tag in Hq.
    apply paths_from_head in Hq. destruct Hq as (j & r & E & _).
    discriminate.
  - apply IH.
  - intros p Hp Hp'. apply paths_from_head in Hp'.
    destruct Hp' as (j & r & -> & Hj).
    destruct Hp as [E | Hp]; [injection E as ->; lia |].
    apply in_map_iff in Hp. destruct Hp as (q & E & _).
    injection E as -> _. lia.
Qed.

(** No position is listed twice among the descendants of a node. *)
Lemma descendant_paths_nodup n : NoDup (Soup.descendant_paths n).
Proof.
  induction n as [s | name attrs contents IH] using node_induction;
    [constructor |].
  rewrite descendant_paths_tag. apply paths_from_nodup. exact IH.
Qed.

Lemma make_wrapper_moves soup gone dt_elem :
  snd (make_wrapper soup gone dt_elem)
  = match Soup.find_next_sibling "dd" gone soup dt_elem with
    | Some dd => dd :: dt_elem :: gone
    | None => dt_elem :: gone
    end.
Proof.
  unfold make_wrapper.
  destruct (Soup.find_next_sibling "dd" gone soup dt_elem); reflexivity.
Qed.

Lemma listing_loop_moves_once max_papers soup : forall dt_elements st,
  NoDup dt_elements ->
  Forall (fun d => Soup.is_tag_at "dt" soup d = true) dt_elements ->
  NoDup (gone_of st) ->
  Forall (fun g => Soup.is_tag_at "dt" soup g = true
                   \/ Soup.is_tag_at "dd" soup g = true) (gone_of st) ->
  (forall g, In g (gone_of st) -> ~ In g dt_elements) ->
  NoDup (gone_of (listing_loop max_papers soup dt_elements st))
  /\ Forall (fun g => Soup.is_tag_at "dt" soup g = true
                      \/ Soup.is_tag_at "dd" soup g = true)
       (gone_of (listing_loop max_papers soup dt_elements st)).
Proof.
  induction dt_elements as [| d rest IH];
    intros st Hdts Htags Hgone Hkinds Hfresh; cbn [listing_loop];
    [split; assumption |].
  destruct (Z.of_nat (List.length (papers_of st)) >=? max_papers)%Z;
    [split; assumption |].
  pose proof (make_wrapper_moves soup (gone_of st) d) as Hm.
  destruct (make_wrapper soup (gone_of st) d) as [wrapper gone].
  cbn [snd] in Hm. subst gone.
  inversion Hdts as [| ? ? Hd Hrest]; subst.
  inversion Htags as [| ? ? Hdt Hrest_tags]; subst.
  assert (Hnew : ~ In d (gone_of st))
    by (intros Hin; apply (Hfresh d Hin); left; reflexivity).
  destruct (Soup.find_next_sibling "dd" (gone_of st) soup d) as [dd |] eqn:Edd.
  - apply find_next_sibling_found in Edd. destruct Edd as [Hdd Hplace].
    apply moved_false_not_in in Hplace.
    assert (Hne : dd <> d).
    { intros ->. unfold Soup.is_tag_at in Hdt, Hdd.
      destruct (Soup.node_at d soup) as [n |]; [| discriminate].
      pose proof (is_tag_one _ _ n Hdt Hdd). discriminate. }
    apply IH; cbn [gone_of]; try assumption.
    + constructor; [| constructor; assumption].
      intros [E | Hin]; [apply Hne; symmetry; exact E | contradiction].
    + constructor; [right; exact Hdd |].
      constructor; [left; exact Hdt | exact Hkinds].
    + intros g [<- | [<- | Hg]] Hin.
      * rewrite Forall_forall in Hrest_tags.
        specialize (Hrest_tags dd Hin). unfold Soup.is_tag_at in *.
        destruct (Soup.node_at dd soup) as [n |]; [| discriminate].
        pose proof (is_tag_one _ _ n Hrest_tags Hdd). discriminate.
      * contradiction.
      * apply (Hfresh g Hg). right. exact Hin.
  - apply IH; cbn [gone_of]; try assumption.
    + constructor; assumption.
    + constructor; [left; exact Hdt | exact Hkinds].
    + intros g [<- | Hg] Hin; [contradiction |].
      apply (Hfresh g Hg). right. exact Hin.
Qed.

(** X5. The listing pass moves no node of the page twice: a title node is
    moved into one wrapper only, and a detail node that one title node took
    is not given to another.  The nodes it moves are [dt] and [dd] tags of
    the page. *)
Theorem listing_pass_moves_each_node_once :
  forall max_papers soup,
    NoDup (gone_of (listing_pass max_papers soup))
    /\ Forall (fun g => Soup.is_tag_at "dt" soup g = true
                        \/ Soup.is_tag_at "dd" soup g = true)
         (gone_of (listing_pass max_papers soup)).
Proof.
  intros max_papers soup. unfold listing_pass.
  apply listing_loop_moves_once; cbn [gone_of].
  - apply NoDup_filter, descendant_paths_nodup.
  - apply Forall_forall. intros d Hd. apply filter_In in Hd. apply Hd.
  - constructor.
  - constructor.
  - intros g [].
Qed.

End Scraper.

(* ================================================================= *)
(** ** The properties at the sample pages and records *)

(** The sample listing has three well-formed pairs; with a cap of two the
    pass emits two records and processes two title nodes. *)
Example listing_pass_sample :
  count_well_formed urljoin_example (title_detail_pairs sample_listing) = 3
  /\ map title (papers_of (listing_pass urljoin_example 2 sample_listing))
     = [Some "Paper A"; Some "Paper B"]
  /\ processed (listing_pass urljoin_example 2 sample_listing) = 2.
Proof. vm_compute. repeat split. Qed.

(** A negative cap: nothing is processed and nothing is emitted. *)
Example listing_pass_negative_cap :
  listing_pass urljoin_example (-1) sample_listing = mkListing [] 0 [].
Proof. reflexivity. Qed.

Lemma listing_pass_emits_min_witness :
  Z.of_nat
    (List.length (papers_of (listing_pass urljoin_example 2 sample_listing)))
  = Z.max 0
      (Z.min
         (Z.of_nat
            (count_well_formed urljoin_example
               (title_detail_pairs sample_listing)))
         2).
Proof.
  exact (proj1 (listing_pass_emits_min urljoin_example sample_listing 2)).
Defined.

(** C1, refuted as stated.  A page of two title nodes that both have a
    title in the words of the spec, the first through the text of the node
    beside a link without text: with a cap of 100 the pass emits one
    record, that of the second node, not two.  And with a cap of -1 the
    pass emits no record, where the minimum of a count and the cap is
    -1. *)
Lemma listing_pass_emits_fewer_than_min :
  spec_count_well_formed page_empty_link_title = 2
  /\ map title
       (papers_of (listing_pass urljoin_example 100 page_empty_link_title))
     = [Some "Second"]
  /\ Z.of_nat
       (List.length
          (papers_of (listing_pass urljoin_example 100 page_empty_link_title)))
     <> Z.min (Z.of_nat (spec_count_well_formed page_empty_link_title)) 100
  /\ papers_of (listing_pass urljoin_example (-1) sample_listing) = []
  /\ Z.of_nat
       (List.length
          (papers_of (listing_pass urljoin_example (-1) sample_listing)))
     <> Z.min (Z.of_nat (spec_count_well_formed sample_listing)) (-1).
Proof. vm_compute. repeat split; discriminate. Qed.

(** C2, refuted as stated: a listing page that yields no record and a fetch
    of the listing page that fails give [scrape_papers] the same return
    value, and [main] the same report. *)
Lemma empty_result_same_as_fetch_failure :
  ~ (scrape_papers urljoin_example unit (fetch_always page_without_titles)
       CVF true 100 tt
     <> scrape_papers urljoin_example unit fetch_nothing CVF true 100 tt
     \/ main urljoin_example unit (fetch_always page_without_titles)
          CVF false 100 tt
        <> main urljoin_example unit fetch_nothing CVF false 100 tt).
Proof. intros [H | H]; apply H; reflexivity. Qed.

Lemma scrape_papers_no_data_witness :
  scrape_papers urljoin_example unit (fetch_always page_without_titles)
    CVF (negb false) 100 tt
  = (Returned [], tt)
  /\ main urljoin_example unit (fetch_always page_without_titles)
       CVF false 100 tt
     = (Returned NoPapersExtracted, tt).
Proof.
  apply (scrape_papers_no_data urljoin_example unit
           (fetch_always page_without_titles) CVF false 100 tt).
  right. exists page_without_titles. split; reflexivity.
Defined.

Lemma enrich_with_failing_fetcher_witness :
  fst (enrich_paper_details urljoin_example unit fetch_nothing
         [paper_enriched; paper_no_authors] tt)
  = Returned (map del_paper_url [paper_enriched; paper_no_authors]).
Proof.
  apply (enrich_with_failing_fetcher urljoin_example unit fetch_nothing).
  intros url w. reflexivity.
Defined.

(** C4, refuted as stated: on an address that holds [.pdf] twice, the code
    replaces both, where the transform of the spec touches the suffix only. *)
Lemma detail_url_replaces_every_pdf :
  detail_url paper_pdf_twice
  = Some "https://openaccess.thecvf.com/content/CVPR2024/Wu_A.html_Study_paper.html"
  /\ spec_detail_url pdf_url_twice
     = "https://openaccess.thecvf.com/content/CVPR2024/Wu_A.pdf_Study_paper.html"
  /\ detail_url paper_pdf_twice <> Some (spec_detail_url pdf_url_twice).
Proof. repeat split. vm_compute. discriminate. Qed.

Lemma detail_url_from_pdf_url_witness :
  detail_url paper_pdf_regular
  = Some "https://openaccess.thecvf.com/content/CVPR2024/Wu_Study_paper.html"
  /\ spec_detail_url pdf_url_regular
     = "https://openaccess.thecvf.com/content/CVPR2024/Wu_Study_paper.html".
Proof.
  apply (proj2 (detail_url_from_pdf_url paper_pdf_regular pdf_url_regular
                  eq_refl eq_refl eq_refl)
           "https://openaccess.thecvf.com/content/CVPR2024" "Wu_Study_paper");
    reflexivity.
Defined.

(** C5, refuted as stated: a title node whose link has no text yields no
    record, though its own text is not empty. *)
Lemma empty_link_text_yields_no_record :
  spec_title dt_empty_link = Some "Deep Nets"
  /\ extract_paper_info urljoin_example (Soup.Tag "div" [] [dt_empty_link])
     = None
  /\ ~ (exists paper_info,
          extract_paper_info urljoin_example
            (Soup.Tag "div" [] [dt_empty_link]) = Some paper_info
          /\ title paper_info = spec_title dt_empty_link).
Proof.
  repeat split. intros (paper_info & H & _). discriminate H.
Qed.

(** The sample record after the pass: the abstract is the page's, the
    [pdf_url] is the record's own, the [_paper_url] key is gone. *)
Example enrich_sample :
  fst (enrich_paper_details urljoin_example unit (fetch_always detail_page)
         [paper_enriched] tt)
  = Returned
      [mkPaper (Some "Paper A") None (Some "A new abstract.")
         (Some "https://openaccess.thecvf.com/content/CVPR2024/papers/a.pdf")
         None None].
Proof. reflexivity. Qed.

Lemma enrich_never_overwrites_pdf_url_witness :
  Forall2
    (fun paper enriched =>
       (truthy_get (pdf_url paper) = true -> pdf_url enriched = pdf_url paper)
       /\ (pdf_url enriched <> pdf_url paper ->
           truthy_get (pdf_url paper) = false))
    [paper_enriched]
    [mkPaper (Some "Paper A") None (Some "A new abstract.")
       (Some "https://openaccess.thecvf.com/content/CVPR2024/papers/a.pdf")
       None None].
Proof.
  apply (enrich_never_overwrites_pdf_url urljoin_example unit
           (fetch_always detail_page) [paper_enriched] tt _ tt).
  reflexivity.
Defined.

Lemma enrich_replaces_abstract_witness :
  abstract
    (fst (fst (enrich_paper urljoin_example unit (fetch_always detail_page)
                 paper_enriched tt)))
  = Some "A new abstract.".
Proof.
  apply (enrich_replaces_abstract urljoin_example unit
           (fetch_always detail_page) paper_enriched "An old abstract." tt
           "https://openaccess.thecvf.com/content/CVPR2024/html/a.html"
           detail_page tt
           (Soup.Tag "div" [("id", "abstract")] [text " A new abstract. "]));
    reflexivity.
Defined.

(** C7, refuted as stated: the record of a title node without detail node
    has no authors; its authors cell is empty, and splitting the empty cell
    gives one empty name, not the empty list. *)
Lemma export_round_trip_loses_no_authors :
  match save_to_csv [paper_no_authors] with
  | Some text =>
      spec_reparse text
      = Some [Some (mkReparsed "Deep Nets" [EmptyString] None None)]
      /\ spec_reparse text <> Some [Some (spec_expected paper_no_authors)]
  | None => False
  end.
Proof. vm_compute. split; [reflexivity | discriminate]. Qed.

Lemma export_round_trip_witness :
  exists text r,
    save_to_csv [paper_two_authors; paper_no_authors] = Some text
    /\ Csv.reader text
       = Some (fieldnames :: map csv_row [paper_two_authors; paper_no_authors])
    /\ spec_reparse_row (csv_row paper_two_authors) = Some r
    /\ r_title r = "Paper A"
    /\ r_authors r = ["A. Smith"; "B. Lee"]
    /\ r_pdf_url r = pdf_url paper_two_authors
    /\ r_supplementary_url r = None.
Proof.
  assert (Hfits : Forall (fun paper => Forall within_limit (csv_row paper))
                    [paper_two_authors; paper_no_authors])
    by (repeat constructor; unfold within_limit, Csv.field_limit; simpl; lia).
  destruct (export_round_trip [paper_two_authors; paper_no_authors]
              ltac:(discriminate) Hfits)
    as (text & Hsave & Hread & _ & Hall).
  destruct (Hall paper_two_authors (or_introl eq_refl))
    as (r & Hr & Ht & Ha & _ & Hp & _ & Hs & _).
  exists text, r. split; [exact Hsave |]. split; [exact Hread |].
  split; [exact Hr |]. split; [exact Ht |].
  split; [apply Ha; [reflexivity | repeat constructor] |].
  split; [apply Hp; discriminate | apply Hs; discriminate].
Defined.

(** C10, at a detail page whose [.pdf] link has an address that [urljoin]
    rejects, for a record without [pdf_url]: [enrich_paper_details] raises,
    and hands back no list. *)
Theorem enrich_raises_on_rejected_address :
  detail_url paper_to_enrich
  = Some "https://openaccess.thecvf.com/content/CVPR2024/html/a.html"
  /\ urljoin_example CVF "//[x.pdf" = None
  /\ fst (enrich_paper_details urljoin_example unit
            (fetch_always detail_page_bad_link) [paper_to_enrich] tt)
     = Raised.
Proof. repeat split. Qed.

(* ================================================================= *)
(** ** Facts about slices and padding *)

Lemma length_substring_0 n : forall s,
  String.length (String.substring 0 n s) = Nat.min n (String.length s).
Proof.
  induction n as [| n IH]; intros [| c s]; simpl; try reflexivity.
  rewrite IH. reflexivity.
Qed.

Lemma substring_0_prefix n : forall s,
  exists rest, s = String.substring 0 n s ++ rest.
Proof.
  induction n as [| n IH]; intros [| c s]; simpl.
  - exists EmptyString. reflexivity.
  - exists (String c s). reflexivity.
  - exists EmptyString. reflexivity.
  - destruct (IH s) as [rest H]. exists rest. rewrite <- H. reflexivity.
Qed.

Lemma length_repeat_char c n : String.length (PyText.repeat_char c n) = n.
Proof. induction n as [| n IH]; simpl; [| rewrite IH]; reflexivity. Qed.

Lemma len_append s t :
  PyText.len (s ++ t) = (PyText.len s + PyText.len t)%Z.
Proof. unfold PyText.len. rewrite length_append. lia. Qed.

Lemma len_slice_to k s :
  (0 <= k)%Z -> PyText.len (PyText.slice_to k s) = Z.min k (PyText.len s).
Proof.
  intros Hk. unfold PyText.slice_to, PyText.len.
  destruct (Z.ltb_spec k 0) as [H | _]; [lia |].
  rewrite length_substring_0. lia.
Qed.

Lemma len_ljust width s :
  PyText.len (PyText.ljust width s) = Z.max width (PyText.len s).
Proof.
  unfold PyText.ljust.
  destruct (Z.leb_spec width (PyText.len s)) as [H | H]; [lia |].
  rewrite len_append. unfold PyText.len at 2.
  rewrite length_repeat_char. lia.
Qed.

(** A displayed cell fills its column when the cell fits, and when the
    column has room for the three dots. *)
Lemma len_display_cell width cell :
  (PyText.len cell <= width \/ 3 <= width)%Z ->
  PyText.len (ViewCsv.display_cell width cell) = width.
Proof.
  intros H. unfold ViewCsv.display_cell. rewrite len_ljust.
  destruct (Z.gtb_spec (PyText.len cell) width) as [Hgt | Hle]; [| lia].
  rewrite len_append, len_slice_to by lia.
  change (PyText.len "...") with 3%Z. lia.
Qed.

Lemma length_join sep : forall l1 l2,
  map String.length l1 = map String.length l2 ->
  String.length (PyStr.join sep l1) = String.length (PyStr.join sep l2).
Proof.
  unfold PyStr.join.
  induction l1 as [| a l1 IH]; intros [| b l2] H; try discriminate;
    [reflexivity |].
  injection H as Hab H. specialize (IH l2 H).
  destruct l1 as [| a' l1]; destruct l2 as [| b' l2]; try discriminate.
  - exact Hab.
  - cbn [String.concat] in *. rewrite !length_append, Hab, IH. reflexivity.
Qed.

(* ================================================================= *)
(** ** The column widths of [print_table] *)

Lemma length_set_item {A : Type} (v : A) : forall l i,
  List.length (ViewCsv.set_item i v l) = List.length l.
Proof.
  induction l as [| h t IH]; intros [| j]; simpl; try reflexivity.
  rewrite IH. reflexivity.
Qed.

Lemma nth_set_item_same {A : Type} (v d : A) : forall l i,
  i < List.length l -> nth i (ViewCsv.set_item i v l) d = v.
Proof.
  induction l as [| h t IH]; intros [| j] H; simpl in *; try lia.
  - reflexivity.
  - apply IH. lia.
Qed.

Lemma nth_set_item_other {A : Type} (v d : A) : forall l i j,
  j <> i -> nth j (ViewCsv.set_item i v l) d = nth j l d.
Proof.
  induction l as [| h t IH]; intros [| i] [| j] H; simpl; try reflexivity.
  - contradiction.
  - apply IH. lia.
Qed.

Lemma widen_from_length row : forall i col_widths,
  List.length (ViewCsv.widen_from i row col_widths) = List.length col_widths.
Proof.
  induction row as [| cell cells IH]; intros i col_widths; simpl;
    [reflexivity |].
  rewrite IH. destruct (i <? List.length col_widths); [| reflexivity].
  apply length_set_item.
Qed.

(** A row never narrows a column. *)
Lemma widen_from_grows row : forall i col_widths j,
  (nth j col_widths 0 <= nth j (ViewCsv.widen_from i row col_widths) 0)%Z.
Proof.
  induction row as [| cell cells IH]; intros i col_widths j; simpl; [lia |].
  eapply Z.le_trans; [| apply IH].
  destruct (Nat.ltb_spec i (List.length col_widths)) as [Hi | Hi]; [| lia].
  destruct (Nat.eq_dec j i) as [-> | Hji].
  - rewrite nth_set_item_same by exact Hi. lia.
  - rewrite nth_set_item_other by exact Hji. lia.
Qed.

(** After a row, each of its cells fits the column it stands in. *)
Lemma widen_from_covers row : forall i col_widths j cell,
  nth_error row j = Some cell ->
  i + j < List.length col_widths ->
  (PyText.len cell
   <= nth (i + j) (ViewCsv.widen_from i row col_widths) 0)%Z.
Proof.
  induction row as [| c cells IH]; intros i col_widths [| j] cell Hj Hlt;
    simpl in Hj; try discriminate.
  - injection Hj as ->. simpl. rewrite Nat.add_0_r in *.
    eapply Z.le_trans; [| apply widen_from_grows].
    destruct (Nat.ltb_spec i (List.length col_widths)) as [Hi | Hi]; [| lia].
    rewrite nth_set_item_same by exact Hi. lia.
  - simpl. replace (i + S j) with (S i + j) in * by lia.
    apply IH; [exact Hj |].
    destruct (i <? List.length col_widths);
      [rewrite length_set_item |]; exact Hlt.
Qed.

Lemma widen_all_length data : forall col_widths,
  List.length
    (fold_left (fun col_widths row => ViewCsv.widen_from 0 row col_widths)
       data col_widths)
  = List.length col_widths.
Proof.
  induction data as [| row data IH]; intros col_widths; simpl;
    [reflexivity |].
  rewrite IH. apply widen_from_length.
Qed.

Lemma widen_all_grows data : forall col_widths j,
  (nth j col_widths 0
   <= nth j
        (fold_left (fun col_widths row => ViewCsv.widen_from 0 row col_widths)
           data col_widths) 0)%Z.
Proof.
  induction data as [| row data IH]; intros col_widths j; simpl; [lia |].
  eapply Z.le_trans; [apply (widen_from_grows row 0) | apply IH].
Qed.

Lemma widen_all_covers data : forall col_widths row j cell,
  In row data ->
  nth_error row j = Some cell ->
  j < List.length col_widths ->
  (PyText.len cell
   <= nth j
        (fold_left (fun col_widths row => ViewCsv.widen_from 0 row col_widths)
           data col_widths) 0)%Z.
Proof.
  induction data as [| r data IH]; intros col_widths row j cell Hin Hj Hlt;
    [contradiction |].
  simpl. destruct Hin as [-> | Hin].
  - eapply Z.le_trans; [| apply widen_all_grows].
    apply (widen_from_covers row 0 col_widths j cell Hj Hlt).
  - apply (IH _ row j cell Hin Hj). rewrite widen_from_length. exact Hlt.
Qed.

Lemma column_widths_length data headers max_width :
  List.length (ViewCsv.column_widths data headers max_width)
  = List.length headers.
Proof.
  unfold ViewCsv.column_widths.
  rewrite length_map, widen_all_length, length_map. reflexivity.
Qed.

(** The width of a column is the longest of its header and its cells, cut
    at [max_width]. *)
Lemma column_widths_nth data headers max_width j :
  j < List.length headers ->
  exists longest,
    nth j (ViewCsv.column_widths data headers max_width) 0%Z
    = Z.min longest max_width
    /\ (PyText.len (nth j headers EmptyString) <= longest)%Z
    /\ forall row cell,
         In row data -> nth_error row j = Some cell ->
         (PyText.len cell <= longest)%Z.
Proof.
  intros Hj. unfold ViewCsv.column_widths.
  set (widen := fun col_widths row => ViewCsv.widen_from 0 row col_widths).
  exists (nth j (fold_left widen data (map PyText.len headers)) 0%Z).
  split; [| split].
  - rewrite (nth_indep _ 0%Z (Z.min 0 max_width)).
    + apply (map_nth (fun width => Z.min width max_width)).
    + rewrite length_map. unfold widen.
      rewrite widen_all_length, length_map. exact Hj.
  - eapply Z.le_trans; [| apply widen_all_grows].
    rewrite (nth_indep _ 0%Z (PyText.len EmptyString))
      by (rewrite length_map; exact Hj).
    rewrite (map_nth PyText.len). lia.
  - intros row cell Hin Hc. apply (widen_all_covers data _ row j cell Hin Hc).
    rewrite length_map. exact Hj.
Qed.

(* ================================================================= *)
(** ** The lines of [print_table] *)

Lemma display_from_lengths num_cols col_widths : forall row i,
  num_cols <= i + List.length row ->
  (forall j cell,
      nth_error row j = Some cell -> i + j < num_cols ->
      PyText.len (ViewCsv.display_cell (nth (i + j) col_widths 0%Z) cell)
      = nth (i + j) col_widths 0%Z) ->
  map String.length (ViewCsv.display_from num_cols col_widths i row)
  = map (fun j => Z.to_nat (nth j col_widths 0%Z)) (seq i (num_cols - i)).
Proof.
  induction row as [| cell cells IH]; intros i Hlen Hcells; simpl in *.
  - replace (num_cols - i) with 0 by lia. reflexivity.
  - rewrite map_app, IH.
    + destruct (Nat.ltb_spec i num_cols) as [Hi | Hi].
      * replace (num_cols - i) with (S (num_cols - S i)) by lia.
        simpl. f_equal.
        specialize (Hcells 0 cell eq_refl ltac:(lia)).
        rewrite Nat.add_0_r in Hcells. unfold PyText.len in Hcells.
        lia.
      * replace (num_cols - i) with 0 by lia.
        replace (num_cols - S i) with 0 by lia. reflexivity.
    + lia.
    + intros j c Hj Hlt. replace (S i + j) with (i + S j) by lia.
      apply Hcells; [exact Hj | lia].
Qed.

(** With room for the three dots, and rows that have a cell for every
    column, all the lines of the table but the count of the rows are as long
    as the header row. *)
Lemma print_table_lines data headers max_width :
  (3 <= max_width)%Z ->
  Forall (fun row => List.length headers <= List.length row) data ->
  Forall
    (fun line =>
       String.length line
       = String.length
           (ViewCsv.header_row headers
              (ViewCsv.column_widths data headers max_width)))
    (removelast (ViewCsv.print_table data headers max_width)).
Proof.
  intros Hmax Hrows. unfold ViewCsv.print_table.
  destruct data as [| r0 data0] eqn:Edata; [constructor |].
  rewrite <- Edata in *. clear Edata r0 data0.
  set (col_widths := ViewCsv.column_widths data headers max_width).
  set (header := ViewCsv.header_row headers col_widths).
  set (rule := PyText.repeat_char "=" (String.length header)).
  rewrite app_assoc, removelast_app by discriminate.
  cbn [removelast]. rewrite <- app_assoc.
  assert (Hrule : String.length rule = String.length header)
    by apply length_repeat_char.
  assert (Hwidth : forall j, j < List.length headers ->
            (0 <= nth j col_widths 0)%Z
            /\ forall row cell, In row data -> nth_error row j = Some cell ->
                 (PyText.len cell <= nth j col_widths 0 
                  \/ 3 <= nth j col_widths 0)%Z).
  { intros j Hj.
    destruct (column_widths_nth data headers max_width j Hj)
      as (longest & Hw & Hh & Hc).
    fold col_widths in Hw. rewrite Hw.
    assert (0 <= PyText.len (nth j headers EmptyString))%Z
      by (unfold PyText.len; lia).
    split; [lia |]. intros row cell Hin Hcell.
    specialize (Hc row cell Hin Hcell). lia. }
  assert (Hheader :
            map String.length
              (map (fun i =>
                      PyText.ljust (nth i col_widths 0%Z)
                        (PyText.slice_to (nth i col_widths 0%Z)
                           (nth i headers EmptyString)))
                 (seq 0 (List.length headers)))
            = map (fun j => Z.to_nat (nth j col_widths 0%Z))
                (seq 0 (List.length headers - 0))).
  { rewrite map_map, Nat.sub_0_r. apply map_ext_in. intros j Hj.
    apply in_seq in Hj. destruct (Hwidth j ltac:(lia)) as [H0 _].
    pose proof (len_ljust (nth j col_widths 0%Z)
                  (PyText.slice_to (nth j col_widths 0%Z)
                     (nth j headers EmptyString))) as H.
    rewrite len_slice_to in H by exact H0. unfold PyText.len in H at 1.
    lia. }
  repeat constructor; try exact Hrule.
  apply Forall_app. split; [| repeat constructor; exact Hrule].
  apply Forall_map. rewrite Forall_forall in Hrows |- *.
  intros row Hin. unfold ViewCsv.display_row. subst header.
  unfold ViewCsv.header_row. apply length_join. rewrite Hheader.
  apply display_from_lengths; [apply Hrows; exact Hin |].
  intros j cell Hcell Hlt. simpl in *.
  apply len_display_cell. apply (proj2 (Hwidth j Hlt) row cell Hin Hcell).
Qed.

(** X17. With room for the three dots in every column, and rows that have a
    cell for every column, [print_table] prints a table whose lines are
    aligned: the rules, the header row and every data row are all as long
    as the header row.  Only the line that counts the rows differs. *)
Theorem print_table_aligned :
  forall data headers max_width,
    (3 <= max_width)%Z ->
    Forall (fun row => List.length headers <= List.length row) data ->
    Forall
      (fun line =>
         String.length line
         = String.length
             (ViewCsv.header_row headers
                (ViewCsv.column_widths data headers max_width)))
      (removelast (ViewCsv.print_table data headers max_width)).
Proof.
  intros data headers max_width. apply print_table_lines.
Qed.

(** A column narrower than the three dots: a cell that does not fit is cut
    to a string longer than the column, and its row is longer than the
    header row. *)
Example print_table_too_narrow :
  ViewCsv.print_table [["abcdef"]] ["h"] 2
  = ["=="; "h "; "=="; "abcde..."; "==";
     PyText.nl ++ "Total rows: 1"].
Proof. reflexivity. Qed.

(* ================================================================= *)
(** ** The rows that [view_csv] reads *)

Lemma length_pad_firstn n row :
  List.length (firstn n (ViewCsv.pad n row)) = n.
Proof.
  unfold ViewCsv.pad. rewrite length_firstn, length_app, repeat_length. lia.
Qed.

Lemma read_data_rectangular max_rows headers : forall rows i,
  Forall (fun row => List.length row = List.length headers)
    (ViewCsv.read_data max_rows headers i rows).
Proof.
  induction rows as [| row rest IH]; intros i; simpl; [constructor |].
  destruct (ViewCsv.limit_reached max_rows i); constructor;
    [apply length_pad_firstn | apply IH].
Qed.

Lemma read_data_unlimited max_rows headers :
  (forall i, ViewCsv.limit_reached max_rows i = false) ->
  forall rows i,
    ViewCsv.read_data max_rows headers i rows
    = map (fun row =>
             firstn (List.length headers)
               (ViewCsv.pad (List.length headers) row)) rows.
Proof.
  intros H. induction rows as [| row rest IH]; intros i; simpl;
    [reflexivity |].
  rewrite H, IH. reflexivity.
Qed.

Lemma read_data_limited m headers :
  m <> 0%Z ->
  forall rows i,
    ViewCsv.read_data (Some m) headers i rows
    = map (fun row =>
             firstn (List.length headers)
               (ViewCsv.pad (List.length headers) row))
        (firstn (Z.to_nat (m - Z.of_nat i)) rows).
Proof.
  intros Hm. induction rows as [| row rest IH]; intros i; simpl.
  - rewrite firstn_nil. reflexivity.
  - apply Z.eqb_neq in Hm. rewrite Hm. simpl.
    destruct (Z.geb_spec (Z.of_nat i) m) as [Hge | Hlt].
    + replace (Z.to_nat (m - Z.of_nat i)) with 0 by lia. reflexivity.
    + replace (Z.to_nat (m - Z.of_nat i))
        with (S (Z.to_nat (m - Z.of_nat (S i)))) by lia.
      simpl. rewrite IH. reflexivity.
Qed.

(** X15. The rows [view_csv] keeps: each row of the file, cut or padded
    with empty cells to the number of columns of the header.  Without a
    limit, and with a limit of [0], these are all the rows of the file;
    with a limit that is not [0] they are its first [max_rows] rows, which
    for a negative limit are none.  The line [Showing first ... rows] is
    printed for a negative limit only: for no other limit are there more
    rows than the limit. *)
Theorem view_csv_row_limit :
  forall max_rows headers rows,
    ViewCsv.read_data max_rows headers 0 rows
    = map (fun row =>
             firstn (List.length headers)
               (row ++ repeat EmptyString
                         (List.length headers - List.length row))%list)
        (match max_rows with
         | None => rows
         | Some m => if (m =? 0)%Z then rows else firstn (Z.to_nat m) rows
         end)
    /\ ViewCsv.showing_first max_rows
         (ViewCsv.read_data max_rows headers 0 rows)
       = match max_rows with
         | None => false
         | Some m => (m <? 0)%Z
         end.
Proof.
  intros max_rows headers rows.
  destruct max_rows as [m |]; [destruct (Z.eqb_spec m 0) as [-> | Hm] |].
  - split; [| reflexivity]. apply read_data_unlimited. reflexivity.
  - split.
    + rewrite (read_data_limited m headers Hm rows 0).
      rewrite Z.sub_0_r. reflexivity.
    + unfold ViewCsv.showing_first.
      rewrite (read_data_limited m headers Hm rows 0), length_map,
        length_firstn.
      apply Z.eqb_neq in Hm. rewrite Hm. cbn [negb andb].
      destruct (Z.gtb_spec
                  (Z.of_nat
                     (Nat.min (Z.to_nat (m - Z.of_nat 0))
                        (List.length rows))) m);
        destruct (Z.ltb_spec m 0); try reflexivity; lia.
  - split; [| reflexivity]. apply read_data_unlimited. reflexivity.
Qed.

(** X16. Whatever the rows of the file, as long as every column has room
    for the three dots, the rows [view_csv] keeps have one cell for each
    header, and the table [print_table] prints for them is aligned: its
    rules, its header row and its data rows are all as long as the header
    row. *)
Theorem view_csv_table_aligned :
  forall max_rows headers rows max_col_width,
    (3 <= max_col_width)%Z ->
    Forall (fun row => List.length row = List.length headers)
      (ViewCsv.read_data max_rows headers 0 rows)
    /\ Forall
         (fun line =>
            String.length line
            = String.length
                (ViewCsv.header_row headers
                   (ViewCsv.column_widths
                      (ViewCsv.read_data max_rows headers 0 rows)
                      headers max_col_width)))
         (removelast
            (ViewCsv.print_table
               (ViewCsv.read_data max_rows headers 0 rows)
               headers max_col_width)).
Proof.
  intros max_rows headers rows max_col_width Hmax.
  pose proof (read_data_rectangular max_rows headers rows 0) as Hrect.
  split; [exact Hrect |].
  apply print_table_lines; [exact Hmax |].
  eapply Forall_impl; [| exact Hrect]. intros row H. simpl in H. lia.
Qed.

(* ================================================================= *)
(** ** The summary *)

Lemma filled_cells_csv_rows (column : nat) (field : paper_record -> option string) :
  (forall paper,
      nth column (csv_row paper) EmptyString = get_or_empty (field paper)) ->
  forall papers,
    List.length (filter (fun p => truthy_get (field p)) papers)
    = filled_cells column (map csv_row papers).
Proof.
  intros Hcell. unfold filled_cells.
  induction papers as [| paper rest IH]; [reflexivity |].
  cbn [map filter]. rewrite Hcell.
  replace (PyStr.truthy (get_or_empty (field paper)))
    with (truthy_get (field paper))
    by (destruct (field paper); reflexivity).
  destruct (truthy_get (field paper)); simpl; rewrite IH; reflexivity.
Qed.

(** X12. The counts at the head of the summary agree with the csv file
    written from the same records: the total is the number of its data
    rows, and the papers counted as having an abstract or a PDF link are
    the rows whose [abstract] cell or [pdf_url] cell is not empty. *)
Theorem summary_counts_match_csv_rows :
  forall papers,
    save_summary papers
    = summary_head
        (List.length (map csv_row papers))
        (filled_cells 2 (map csv_row papers))
        (filled_cells 3 (map csv_row papers))
      ++ "Sample Papers:" ++ PyText.nl
      ++ PyText.repeat_char "-" 50 ++ PyText.nl
      ++ sample_entries 1 (firstn 10 papers).
Proof.
  intros papers. unfold save_summary.
  rewrite length_map.
  rewrite <- (filled_cells_csv_rows 2 abstract (fun _ => eq_refl) papers).
  rewrite <- (filled_cells_csv_rows 3 pdf_url (fun _ => eq_refl) papers).
  reflexivity.
Qed.

(** X13. The abstract as the summary shows it: an abstract of at most 200
    characters is shown whole; a longer one is shown as its first 200
    characters followed by three dots, 203 characters in all, which for an
    abstract of 201 or 202 characters is more than the abstract has. *)
Theorem summary_abstract_preview :
  forall a,
    (String.length a <= 200 -> abstract_preview a = a)
    /\ (200 < String.length a ->
        exists head rest,
          a = head ++ rest /\ String.length head = 200
          /\ abstract_preview a = head ++ "..."
          /\ String.length (abstract_preview a) = 203).
Proof.
  intros a. unfold abstract_preview.
  destruct (Nat.ltb_spec 200 (String.length a)) as [Hlong | Hshort].
  - split; [lia |]. intros _.
    change (PyText.slice_to 200 a) with (String.substring 0 200 a).
    destruct (substring_0_prefix 200 a) as [rest Hrest].
    assert (Hlen : String.length (String.substring 0 200 a) = 200)
      by (rewrite length_substring_0; lia).
    exists (String.substring 0 200 a), rest.
    split; [exact Hrest |]. split; [exact Hlen |]. split; [reflexivity |].
    rewrite length_append, Hlen. reflexivity.
  - split; [reflexivity | lia].
Qed.

(* ================================================================= *)
(** ** The order of the fetches *)

Lemma enrich_paper_log urljoin serve paper log :
  snd (enrich_paper urljoin (list string) (fetch_logged serve) paper log)
  = (log ++ address_to_fetch paper)%list.
Proof.
  unfold enrich_paper, address_to_fetch.
  destruct (detail_url paper) as [paper_url |];
    [destruct (PyStr.truthy paper_url) |];
    try (simpl; rewrite app_nil_r; reflexivity).
  unfold fetch_logged. destruct (serve paper_url) as [soup |].
  - destruct (pdf_from_page urljoin soup (abstract_from_page soup paper))
      as [q c].
    destruct c; reflexivity.
  - reflexivity.
Qed.

Lemma enrich_loop_log urljoin serve : forall papers enriched_papers log out log',
  enrich_loop urljoin (list string) (fetch_logged serve)
    papers enriched_papers log
  = (Returned out, log') ->
  log' = (log ++ flat_map address_to_fetch papers)%list.
Proof.
  induction papers as [| paper rest IH]; intros acc log out log' H;
    simpl in H.
  - injection H as _ <-. simpl. rewrite app_nil_r. reflexivity.
  - pose proof (enrich_paper_log urljoin serve paper log) as Hlog.
    destruct (enrich_paper urljoin (list string) (fetch_logged serve)
                paper log) as [[q c] log1].
    simpl in Hlog. subst log1. destruct c; [| discriminate].
    apply IH in H. rewrite H. simpl. rewrite app_assoc. reflexivity.
Qed.

(** X19. When [enrich_paper_details] hands a list back, it has fetched the
    detail-page address of every record that has one, once each and in the
    order of the records, and nothing else. *)
Theorem enrich_fetches_each_address_once :
  forall urljoin serve papers log out log',
    enrich_paper_details urljoin (list string) (fetch_logged serve) papers log
    = (Returned out, log') ->
    log' = (log ++ flat_map address_to_fetch papers)%list.
Proof.
  intros urljoin serve papers log out log'. apply enrich_loop_log.
Qed.

(** X20. When [scrape_papers] returns, it has fetched the listing page
    first; then, if the abstracts are asked for and the page was served,
    the detail-page address of each record of the listing pass, in the order
    of the records; and nothing else. *)
Theorem scrape_papers_fetch_order :
  forall urljoin serve base_url fetch_abstracts max_papers log out log',
    scrape_papers urljoin (list string) (fetch_logged serve)
      base_url fetch_abstracts max_papers log
    = (Returned out, log') ->
    log'
    = (log ++ base_url
         :: match serve base_url with
            | Some soup =>
                if fetch_abstracts
                then flat_map address_to_fetch
                       (papers_of (listing_pass urljoin max_papers soup))
                else []
            | None => []
            end)%list.
Proof.
  intros urljoin serve base_url fetch_abstracts max_papers log out log' H.
  unfold scrape_papers in H. unfold fetch_logged at 1 in H.
  destruct (serve base_url) as [soup |].
  - destruct (papers_of (listing_pass urljoin max_papers soup))
      as [| paper rest] eqn:E.
    + simpl in H. injection H as _ <-. destruct fetch_abstracts; reflexivity.
    + destruct fetch_abstracts; simpl in H.
      * apply enrich_loop_log in H. rewrite H, <- app_assoc. reflexivity.
      * injection H as _ <-. reflexivity.
  - injection H as _ <-. reflexivity.
Qed.

(* ================================================================= *)
(** ** The further properties at sample pages, records and tables *)

Lemma extract_bare_title_node_witness :
  extract_paper_info urljoin_example
    (Soup.Tag "div" [] [Soup.Tag "dt" [] [text " Deep Nets "]])
  = Some (mkPaper (Some "Deep Nets") None None None None None).
Proof.
  apply (extract_bare_title_node urljoin_example [] [text " Deep Nets "]);
    [reflexivity | reflexivity | discriminate].
Defined.

Lemma extract_authors_in_document_order_witness :
  authors
    (mkPaper (Some "Paper A") (Some ["A. Smith"; "B. Lee"]) None None None
       (Some "https://openaccess.thecvf.com/content/CVPR2024/html/a.html"))
  = Some ["A. Smith"; "B. Lee"].
Proof.
  apply (extract_authors_in_document_order urljoin_example
           [] [link "/content/CVPR2024/html/a.html" "Paper A"]
           [] [link "#" "A. Smith"; text ", "; link "#" "B. Lee"]);
    [reflexivity | discriminate | reflexivity].
Defined.

Lemma extract_paper_info_invariants_witness :
  has_title (mkPaper (Some "Deep Nets") None None None None None)
  /\ abstract (mkPaper (Some "Deep Nets") None None None None None) = None
  /\ authors (mkPaper (Some "Deep Nets") None None None None None) <> Some [].
Proof.
  apply (extract_paper_info_invariants urljoin_example
           (Soup.Tag "div" [] [Soup.Tag "dt" [] [text " Deep Nets "]])).
  reflexivity.
Defined.

Lemma extract_addresses_from_urljoin_witness :
  exists pdf_link,
    Soup.find_attr "a" "href" PyStr.search_pdf
      (Soup.Tag "div" []
         [Soup.Tag "dt" [] [link "/content/CVPR2024/html/c.html" "Paper C"];
          Soup.Tag "dd" [] [link "/content/CVPR2024/papers/c.pdf" "pdf"]])
    = Some pdf_link
    /\ Soup.get "href" "" pdf_link <> EmptyString
    /\ urljoin_example CVF (Soup.get "href" "" pdf_link)
       = Some "https://openaccess.thecvf.com/content/CVPR2024/papers/c.pdf".
Proof.
  apply (proj1
           (extract_addresses_from_urljoin urljoin_example
              (Soup.Tag "div" []
                 [Soup.Tag "dt" []
                    [link "/content/CVPR2024/html/c.html" "Paper C"];
                  Soup.Tag "dd" []
                    [link "/content/CVPR2024/papers/c.pdf" "pdf"]])
              (mkPaper (Some "Paper C") (Some ["pdf"]) None
                 (Some "https://openaccess.thecvf.com/content/CVPR2024/papers/c.pdf")
                 None
                 (Some "https://openaccess.thecvf.com/content/CVPR2024/html/c.html"))
              eq_refl)).
  reflexivity.
Defined.

Lemma listing_pass_sample_moves :
  gone_of (listing_pass urljoin_example 2 sample_listing)
  = [[0; 3]; [0; 2]; [0; 1]; [0; 0]].
Proof. reflexivity. Qed.

Lemma scrape_papers_returns_titled_within_cap_witness :
  Forall has_title (papers_of (listing_pass urljoin_example 2 sample_listing))
  /\ ((0 <= 2)%Z ->
      (Z.of_nat
         (List.length
            (papers_of (listing_pass urljoin_example 2 sample_listing)))
       <= 2)%Z).
Proof.
  apply (scrape_papers_returns_titled_within_cap urljoin_example unit
           (fetch_always sample_listing) CVF false 2 tt _ tt).
  reflexivity.
Defined.

Lemma enrich_removes_paper_url_witness :
  Forall (fun enriched => _paper_url enriched = None)
    [mkPaper (Some "Paper A") None (Some "A new abstract.")
       (Some "https://openaccess.thecvf.com/content/CVPR2024/papers/a.pdf")
       None None].
Proof.
  apply (enrich_removes_paper_url urljoin_example unit
           (fetch_always detail_page) [paper_enriched] tt _ tt).
  reflexivity.
Defined.

Lemma enrich_without_address_fetches_nothing_witness :
  enrich_paper_details urljoin_example unit (fetch_always detail_page)
    [paper_no_authors] tt
  = (Returned (map del_paper_url [paper_no_authors]), tt).
Proof.
  apply (enrich_without_address_fetches_nothing urljoin_example unit
           (fetch_always detail_page) [paper_no_authors] tt).
  repeat constructor.
Defined.

Lemma enrich_page_without_abstract_witness :
  abstract
    (fst (fst (enrich_paper urljoin_example unit
                 (fetch_always page_without_titles) paper_enriched tt)))
  = abstract paper_enriched
  /\ (truthy_get (pdf_url paper_enriched) = true ->
      enrich_paper urljoin_example unit (fetch_always page_without_titles)
        paper_enriched tt
      = (del_paper_url paper_enriched, Completed, tt)).
Proof.
  apply (enrich_page_without_abstract urljoin_example unit
           (fetch_always page_without_titles) paper_enriched tt
           "https://openaccess.thecvf.com/content/CVPR2024/html/a.html"
           page_without_titles tt);
    reflexivity.
Defined.

Lemma enrich_fills_pdf_url_witness :
  pdf_url
    (fst (fst (enrich_paper urljoin_example unit (fetch_always detail_page)
                 paper_to_enrich tt)))
  = Some "https://openaccess.thecvf.com/content/CVPR2024/papers/other.pdf"
  /\ snd (fst (enrich_paper urljoin_example unit (fetch_always detail_page)
                 paper_to_enrich tt))
     = Completed.
Proof.
  apply (proj1
           (enrich_fills_pdf_url urljoin_example unit
              (fetch_always detail_page) paper_to_enrich tt
              "https://openaccess.thecvf.com/content/CVPR2024/html/a.html"
              detail_page tt eq_refl eq_refl eq_refl eq_refl)
           (link "/content/CVPR2024/papers/other.pdf" "pdf"));
    [reflexivity | reflexivity | discriminate].
Defined.

Lemma main_reports_witness :
  exists papers,
    scrape_papers urljoin_example unit (fetch_always sample_listing)
      CVF (negb true) 2 tt
    = (Returned papers, tt)
    /\ 2 = List.length papers /\ 1 <= 2
    /\ ((0 <= 2)%Z -> (Z.of_nat 2 <= 2)%Z)
    /\ exists text,
         save_to_csv (papers_of (listing_pass urljoin_example 2 sample_listing))
         = Some text
         /\ save_to_csv papers = Some text.
Proof.
  apply (main_reports urljoin_example unit (fetch_always sample_listing)
           CVF true 2 tt
           (FilesCreated 2
              (save_to_csv
                 (papers_of (listing_pass urljoin_example 2 sample_listing))))
           tt).
  reflexivity.
Defined.

Lemma print_table_aligned_witness :
  Forall
    (fun line =>
       String.length line
       = String.length
           (ViewCsv.header_row ["title"; "authors"]
              (ViewCsv.column_widths
                 [["Paper A"; "A. Smith; B. Lee"; "extra"]; ["Deep Nets"; ""]]
                 ["title"; "authors"] 12)))
    (removelast
       (ViewCsv.print_table
          [["Paper A"; "A. Smith; B. Lee"; "extra"]; ["Deep Nets"; ""]]
          ["title"; "authors"] 12)).
Proof.
  apply (print_table_aligned
           [["Paper A"; "A. Smith; B. Lee"; "extra"]; ["Deep Nets"; ""]]
           ["title"; "authors"] 12);
    [lia | repeat constructor].
Defined.

(** The table of the witness: the second column is cut at twelve
    characters. *)
Example print_table_sample :
  ViewCsv.print_table
    [["Paper A"; "A. Smith; B. Lee"; "extra"]; ["Deep Nets"; ""]]
    ["title"; "authors"] 12
  = ["========================";
     "title     | authors     ";
     "========================";
     "Paper A   | A. Smith;...";
     "Deep Nets |             ";
     "========================";
     PyText.nl ++ "Total rows: 2"].
Proof. reflexivity. Qed.

Lemma view_csv_table_aligned_witness :
  Forall (fun row => List.length row = List.length ["title"; "authors"])
    (ViewCsv.read_data (Some 20%Z) ["title"; "authors"] 0
       [["Paper A"; "A. Smith; B. Lee"; "extra"]; ["Deep Nets"]])
  /\ Forall
       (fun line =>
          String.length line
          = String.length
              (ViewCsv.header_row ["title"; "authors"]
                 (ViewCsv.column_widths
                    (ViewCsv.read_data (Some 20%Z) ["title"; "authors"] 0
                       [["Paper A"; "A. Smith; B. Lee"; "extra"];
                        ["Deep Nets"]])
                    ["title"; "authors"] 12)))
       (removelast
          (ViewCsv.print_table
             (ViewCsv.read_data (Some 20%Z) ["title"; "authors"] 0
                [["Paper A"; "A. Smith; B. Lee"; "extra"]; ["Deep Nets"]])
             ["title"; "authors"] 12)).
Proof.
  apply (view_csv_table_aligned (Some 20%Z) ["title"; "authors"]
           [["Paper A"; "A. Smith; B. Lee"; "extra"]; ["Deep Nets"]] 12).
  lia.
Defined.

Lemma enrich_keeps_entries_witness :
  Forall2
    (fun paper enriched =>
       title enriched = title paper
       /\ authors enriched = authors paper
       /\ supplementary_url enriched = supplementary_url paper)
    [paper_enriched]
    [mkPaper (Some "Paper A") None (Some "A new abstract.")
       (Some "https://openaccess.thecvf.com/content/CVPR2024/papers/a.pdf")
       None None].
Proof.
  apply (enrich_keeps_entries urljoin_example unit
           (fetch_always detail_page) [paper_enriched] tt _ tt).
  reflexivity.
Defined.

Lemma enrich_fetches_each_address_once_witness :
  ["https://openaccess.thecvf.com/content/CVPR2024/html/a.html";
   "https://openaccess.thecvf.com/content/CVPR2024/Wu_Study_paper.html"]
  = ([] ++ flat_map address_to_fetch
             [paper_enriched; paper_no_authors; paper_pdf_regular])%list.
Proof.
  apply (enrich_fetches_each_address_once urljoin_example (fun _ => None)
           [paper_enriched; paper_no_authors; paper_pdf_regular] []
           (map del_paper_url
              [paper_enriched; paper_no_authors; paper_pdf_regular])).
  reflexivity.
Defined.

Lemma scrape_papers_fetch_order_witness :
  [CVF; "https://openaccess.thecvf.com/content/CVPR2024/html/a.html"]
  = ([] ++ CVF
        :: match (fun _ : string => Some sample_listing) CVF with
           | Some soup =>
               if true
               then flat_map address_to_fetch
                      (papers_of (listing_pass urljoin_example 2 soup))
               else []
           | None => []
           end)%list.
Proof.
  eapply (scrape_papers_fetch_order urljoin_example
            (fun _ => Some sample_listing) CVF true 2 []).
  reflexivity.
Defined.
